(** * SleepMonitor: the breathing-monitor log reader and its report windows

    A shallow embedding of [python_plotting_script/analyze_breathing_data.py]:
    the constructor of [BreathingMonitorFile] (binary and text readers, the
    derived signals) and the two helpers of [process_files] that cut the
    recording into report windows and pick the y-axis limits.

    Numbers are IEEE-754 binary64 values (Rocq's primitive floats), exceptions
    are values of an error monad, a [str] is a string of code points below
    256, and the bytes of a file are a [list byte]. *)

From Stdlib Require Import ZArith List String Ascii Bool Lia Floats.
From Stdlib Require Import Strings.Byte.
From Stdlib Require Import Zbitwise.
From Stdlib Require Import Reals Lra.
From Stdlib Require Import DecimalString DecimalNat.
From Equations Require Import Equations.
Import ListNotations.

Set Warnings "-inexact-float".

(** ** Python values, exceptions and the string builtins the reader uses *)

Module Py.

(** The exceptions the constructor can raise. *)
Inductive exn : Type :=
| StructError (required : nat)      (* struct.error: unpack requires a buffer of [required] bytes *)
| ValueError (text : string)        (* could not convert string to float: [text]; or a shape error *)
| IndexError (index size : nat).    (* index [index] is out of bounds for axis 0 with size [size] *)

Inductive result (A : Type) : Type :=
| Ok (value : A)
| Raise (e : exn).

Arguments Ok {A} value.
Arguments Raise {A} e.

Definition bind {A B : Type} (r : result A) (k : A -> result B) : result B :=
  match r with
  | Ok a => k a
  | Raise e => Raise e
  end.

(** A list comprehension [[f(x) for x in l]]: left to right, the first
    exception ends it. *)
Fixpoint comprehension {A B : Type} (f : A -> result B) (l : list A) : result (list B) :=
  match l with
  | [] => Ok []
  | x :: rest =>
      bind (f x) (fun y => bind (comprehension f rest) (fun ys => Ok (y :: ys)))
  end.

(** What the elements of [struct.unpack]'s tuple and of the parsed lines are. *)
Inductive number : Type :=
| PyInt (z : Z)
| PyFloat (f : float).

(** [s.endswith(suffix)] *)
Definition endswith (s suffix : string) : bool :=
  let n := String.length s in
  let k := String.length suffix in
  (k <=? n)%nat && String.eqb (substring (n - k) k s) suffix.

(** [s.split(sep)] for a one-character separator: never an empty list. *)
Fixpoint split (sep : ascii) (s : string) : list string :=
  match s with
  | EmptyString => [EmptyString]
  | String c rest =>
      if Ascii.eqb c sep then EmptyString :: split sep rest
      else match split sep rest with
           | field :: fields => String c field :: fields
           | [] => [String c EmptyString]
           end
  end.

(** The line boundaries of [str.splitlines] among the code points below 256:
    LF, VT, FF, CR, FS, GS, RS and NEL. *)
Definition is_linebreak (c : ascii) : bool :=
  let n := nat_of_ascii c in
  ((10 <=? n) && (n <=? 13) || (28 <=? n) && (n <=? 30) || (n =? 133))%nat.

(** [s.splitlines()]: CR LF is one boundary, and a boundary at the very end
    opens no further line. *)
Fixpoint splitlines (s : string) : list string :=
  match s with
  | EmptyString => []
  | String c rest =>
      if is_linebreak c then
        EmptyString ::
          match rest with
          | String c' rest' =>
              if ((nat_of_ascii c =? 13) && (nat_of_ascii c' =? 10))%nat
              then splitlines rest' else splitlines rest
          | EmptyString => []
          end
      else match splitlines rest with
           | line :: lines => String c line :: lines
           | [] => [String c EmptyString]
           end
  end.

(** [max(a, b)] of the builtins: the first argument unless the second is
    greater. *)
Definition max (a b : float) : float := if (a <? b)%float then b else a.

(** [range(start, stop, step)] for a positive step. *)
Definition range (start stop step : nat) : list nat :=
  map (fun k => start + k * step)%nat (seq 0 ((stop - start + step - 1) / step)).

(** [values[start:stop]] *)
Definition slice {A : Type} (values : list A) (start stop : nat) : list A :=
  firstn (stop - start) (skipn start values).

End Py.

Import Py.

Declare Scope py_scope.
Notation "x <- r ;; k" := (Py.bind r (fun x => k))
  (at level 61, r at next level, right associativity) : py_scope.
Notation "' p <- r ;; k" := (Py.bind r (fun x => let p := x in k))
  (at level 61, p pattern, r at next level, right associativity) : py_scope.
Local Open Scope py_scope.

(** ** [struct.unpack] for the two big-endian formats of the log *)

Module Struct.

Local Open Scope Z_scope.

(** The bytes read as one big-endian unsigned integer. *)
Definition be_uint (bs : list byte) : Z :=
  fold_left (fun acc b => Z.lor (Z.shiftl acc 8) (Z.of_N (Byte.to_N b))) bs 0.

(** Two's complement reading of a [bits]-wide word. *)
Definition to_signed (bits : Z) (w : Z) : Z :=
  if Z.testbit w (bits - 1) then w - 2 ^ bits else w.

(** Format [q]: a signed 64-bit integer. *)
Definition int64 (bs : list byte) : Z := to_signed 64 (be_uint bs).

(** Format [f]: an IEEE-754 binary32 value, widened (exactly) to a double. *)
Definition float_of_bits32 (w : Z) : float :=
  let sign := Z.testbit w 31 in
  let e := Z.land (Z.shiftr w 23) 255 in
  let frac := Z.land w (2 ^ 23 - 1) in
  if e =? 255 then
    if frac =? 0 then (if sign then neg_infinity else infinity) else nan
  else
    let m := if e =? 0 then frac else frac + 2 ^ 23 in
    let ex := (if e =? 0 then 1 else e) - 150 in
    SF2Prim (binary_normalize prec emax (if sign then - m else m) ex sign).

Definition float32 (bs : list byte) : float := float_of_bits32 (be_uint bs).

(** The buffer cut into [n] fields of four bytes. *)
Fixpoint floats (n : nat) (bs : list byte) : list number :=
  match n with
  | O => []
  | S n' => PyFloat (float32 (firstn 4 bs)) :: floats n' (skipn 4 bs)
  end.

(** [struct.calcsize(">q{}f".format(n))] *)
Definition calcsize_q_f (n : nat) : nat := (8 + n * 4)%nat.

(** [struct.unpack(">q", buffer)[0]] *)
Definition unpack_q (buffer : list byte) : result Z :=
  if (List.length buffer =? 8)%nat then Ok (int64 buffer) else Raise (StructError 8).

(** [struct.unpack(">q{}f".format(n), buffer)] *)
Definition unpack_q_f (n : nat) (buffer : list byte) : result (list number) :=
  if (List.length buffer =? calcsize_q_f n)%nat
  then Ok (PyInt (int64 (firstn 8 buffer)) :: floats n (skipn 8 buffer))
  else Raise (StructError (calcsize_q_f n)).

End Struct.

(** ** numpy: float64 arrays *)

Module Np.

(** A Python [int] as a double: rounded to nearest, ties to even. *)
Definition float_of_int (z : Z) : float :=
  SF2Prim (binary_normalize prec emax z 0 false).

Definition float64 (v : number) : float :=
  match v with
  | PyInt z => float_of_int z
  | PyFloat f => f
  end.

(** [np.array(values, np.float64)] *)
Definition array (values : list number) : list float := map float64 values.

(** [a[i]] on a one-dimensional array, for a non-negative index. *)
Definition getitem (a : list float) (i : nat) : result float :=
  match nth_error a i with
  | Some x => Ok x
  | None => Raise (IndexError i (List.length a))
  end.

(** [values[values != 0]]: NaN is kept, both zeros go. *)
Definition non_zero (values : list float) : list float :=
  filter (fun v => negb (v =? 0)%float) values.

(** The reductions [a.min()] and [a.max()] of a non-empty array [x :: rest]:
    a NaN anywhere makes the result NaN. *)
Definition minimum (a b : float) : float :=
  if is_nan a then a else if is_nan b then b else if (b <? a)%float then b else a.

Definition maximum (a b : float) : float :=
  if is_nan a then a else if is_nan b then b else if (a <? b)%float then b else a.

Definition min (x : float) (rest : list float) : float := fold_left minimum rest x.
Definition max (x : float) (rest : list float) : float := fold_left maximum rest x.

End Np.

(** ** scipy.signal: the IIR filter the derived signals go through

    [lfilter] is scipy's direct form II transposed filter, written out from
    its documented difference equations.  The two design functions [butter]
    and [lfilter_zi] are left to the class [Externals] below. *)

Module Signal.

Local Open Scope float_scope.

Inductive btype : Type := low | high.

(** Coefficients padded with zeros to a common length. *)
Definition pad (n : nat) (c : list float) : list float :=
  c ++ repeat 0 (n - List.length c).

(** The delay line after one sample [x] with output [y]:
    [z[i] = z[i+1] + x*b[i+1] - y*a[i+1]], the last one without [z[i+1]]. *)
Fixpoint delays (b a z : list float) (x y : float) : list float :=
  match b, a with
  | bn :: b', an :: a' =>
      match z with
      | zn :: z' => (zn + x * bn - y * an) :: delays b' a' z' x y
      | [] => [x * bn - y * an]
      end
  | _, _ => []
  end.

(** One sample: [y = z[0] + b[0]*x], then the delay line moves. *)
Definition step (b a z : list float) (x : float) : float * list float :=
  match b, a, z with
  | b0 :: b', _ :: a', z0 :: z' => let y := z0 + b0 * x in (y, delays b' a' z' x y)
  | b0 :: _, _, _ => (x * b0, z)
  | [], _, _ => (x, z)
  end.

Fixpoint run (b a z x : list float) : list float * list float :=
  match x with
  | [] => ([], z)
  | xn :: x' =>
      let '(y, z') := step b a z xn in
      let '(ys, zf) := run b a z' x' in
      (y :: ys, zf)
  end.

(** [scipy.signal.lfilter(b, a, x, zi=zi)]: the filtered signal and the final
    delays. *)
Definition lfilter (b a x zi : list float) : result (list float * list float) :=
  match a with
  | [] => Raise (ValueError "object of too small depth for desired array")
  | a0 :: _ =>
      let n := Nat.max (List.length a) (List.length b) in
      if negb (List.length zi =? n - 1)%nat
      then Raise (ValueError "The number of initial conditions must be max([len(a),len(b)]) - 1")
      else if a0 =? 0
      then Raise (ValueError "Filter coefficient a[0] == 0 not supported yet")
      else Ok (run (map (fun c => c / a0) (pad n b)) (map (fun c => c / a0) (pad n a)) zi x)
  end.

End Signal.

(** ** What the script takes from Python, numpy and scipy as given

    [float(str)], [ndarray.mean] and the two filter design functions are not
    recomputed here; of the design functions only the documented shapes of
    their results are used. *)
Class Externals : Type := {
  (** [float(s)]; [None] when it raises [ValueError]. *)
  float_of_str : string -> option float;
  (** [a.mean()] *)
  mean : list float -> float;
  (** [scipy.signal.butter(N, Wn, btype)]: the pair [(b, a)]. *)
  butter : nat -> float -> Signal.btype -> list float * list float;
  (** [scipy.signal.lfilter_zi(b, a)] *)
  lfilter_zi : list float -> list float -> list float;
  butter_length : forall N Wn bt,
    List.length (fst (butter N Wn bt)) = S N /\ List.length (snd (butter N Wn bt)) = S N;
  butter_monic : forall N Wn bt, hd_error (snd (butter N Wn bt)) = Some 1%float;
  lfilter_zi_length : forall b a,
    List.length (lfilter_zi b a) = Nat.max (List.length a) (List.length b) - 1
}.

(** What [open(filename, "rb").read()] and [open(filename).read()] give for
    one file. *)
Record stored_file : Type := {
  read_bytes : list byte;
  read_text : string
}.

(** The object the constructor builds. *)
Record BreathingMonitorFile : Type := {
  filename : string;
  values : list (list float);
  start_unix_timestamp : option float;
  timestamps : list float;
  positions : list float;
  angles : list float;
  azimuth : list float;
  pitch : list float;
  roll : list float;
  thermistor : list float;
  spo2 : list float;
  pulse_rate : list float;
  perfusion_index : list float;
  mean_spo2_wave : list float;
  elapsed : list float;
  signal : list float;
  low_pass : list float;
  high_pass : list float;
  thermistor_low_pass : list float
}.

Definition value_count : nat := 11.

(** [for array, value in zip(self.values, numbers): array.append(value)];
    [zip] stops at the shorter of the two. *)
Fixpoint append (values : list (list number)) (numbers : list number) : list (list number) :=
  match values, numbers with
  | array :: values', value :: numbers' => (array ++ [value]) :: append values' numbers'
  | _, _ => values
  end.

(** [file_in.read(n)]: the bytes read and the rest of the file. *)
Definition read (n : nat) (file_in : list byte) : list byte * list byte :=
  (firstn n file_in, skipn n file_in).

(** A value together with the equation that names it. *)
Definition inspect {A : Type} (x : A) : {y : A | x = y} := exist _ x eq_refl.

#[local] Opaque read.

(** The [while True] loop of the binary reader. *)
Equations? read_records (file_in : list byte) (values : list (list number)) :
  result (list (list number)) by wf (List.length file_in) lt :=
  read_records file_in values with
    inspect (read (Struct.calcsize_q_f (value_count - 1)) file_in) => {
    | exist _ ([], _) _ => Ok values
    | exist _ (value_bytes, rest) Heq with
        Struct.unpack_q_f (value_count - 1) value_bytes => {
        | Raise e => Raise e
        | Ok numbers => read_records rest (append values numbers) } }.
Proof.
  Transparent read.
  unfold read in *. cbv beta iota in *.
  destruct file_in as [|x file_in]; [now rewrite firstn_nil in *|].
  rewrite length_skipn. cbn. lia.
Qed.

#[local] Transparent read.

(** ** The constructor [BreathingMonitorFile.__init__] *)

Section Reader.

Context {ext : Externals}.

Local Open Scope float_scope.

(** The [.dat] branch: the start timestamp, then records until end of file. *)
Definition read_dat (file_in : list byte) : result (float * list (list number)) :=
  let '(header, file_in) := read 8 file_in in
  q <- Struct.unpack_q header ;;
  values <- read_records file_in (repeat [] value_count) ;;
  Ok (Np.float_of_int q / 1.0e3, values).

(** [[float(string) for string in line.split(",")]] *)
Definition parse_line (line : string) : result (list number) :=
  comprehension
    (fun field =>
       match float_of_str field with
       | Some x => Ok (PyFloat x)
       | None => Raise (ValueError field)
       end)
    (split "," line).

(** [for line in lines: ...] of the text branch. *)
Fixpoint read_lines (lines : list string) (values : list (list number)) :
  result (list (list number)) :=
  match lines with
  | [] => Ok values
  | line :: lines' =>
      numbers <- parse_line line ;;
      read_lines lines' (append values numbers)
  end.

Definition read_txt (text : string) : result (list (list number)) :=
  read_lines (splitlines text) (repeat [] value_count).

(** [(self.thermistor - self.thermistor.mean()) * 0.02] *)
Definition normalize (thermistor : list float) : list float :=
  let m := mean thermistor in
  map (fun x => (x - m) * 0.02) thermistor.

(** [b, a = signal.butter(order, Wn, btype); zi = signal.lfilter_zi(b, a);
    out, _ = signal.lfilter(b, a, x, zi=zi * x[0])] *)
Definition filtered (order : nat) (Wn : float) (bt : Signal.btype) (x : list float) :
  result (list float) :=
  let '(b, a) := butter order Wn bt in
  let zi := lfilter_zi b a in
  x0 <- Np.getitem x 0 ;;
  out <- Signal.lfilter b a x (map (fun z => z * x0) zi) ;;
  Ok (fst out).

(** The two branches on the file name: the start timestamp ([None] for a
    text file) and the eleven lists. *)
Definition load (name : string) (file : stored_file) :
  result (option float * list (list number)) :=
  if endswith name ".dat" then
    r <- read_dat (read_bytes file) ;; Ok (Some (fst r), snd r)
  else
    vs <- read_txt (read_text file) ;; Ok (None, vs).

Definition init (name : string) (file : stored_file) : result BreathingMonitorFile :=
  loaded <- load name file ;;
  let start := fst loaded in
  let values := map Np.array (snd loaded) in
  let timestamps := nth 0 values [] in
  let positions := nth 1 values [] in
  let angles := nth 2 values [] in
  let azimuth := nth 3 values [] in
  let pitch := nth 4 values [] in
  let roll := nth 5 values [] in
  let thermistor := nth 6 values [] in
  let spo2 := nth 7 values [] in
  let pulse_rate := nth 8 values [] in
  let perfusion_index := nth 9 values [] in
  let mean_spo2_wave := nth 10 values [] in
  t0 <- Np.getitem timestamps 0 ;;
  let elapsed := map (fun t => t / 1.0e9 - t0 / 1.0e9) timestamps in
  let signal := positions in
  let thermistor := normalize thermistor in
  let order := 3%nat in
  low_pass <- filtered order 0.1 Signal.low signal ;;
  high_pass <- filtered order 0.3 Signal.high signal ;;
  thermistor_low_pass <- filtered order 0.15 Signal.low thermistor ;;
  Ok {| filename := name;
        values := values;
        start_unix_timestamp := start;
        timestamps := timestamps;
        positions := positions;
        angles := angles;
        azimuth := azimuth;
        pitch := pitch;
        roll := roll;
        thermistor := thermistor;
        spo2 := spo2;
        pulse_rate := pulse_rate;
        perfusion_index := perfusion_index;
        mean_spo2_wave := mean_spo2_wave;
        elapsed := elapsed;
        signal := signal;
        low_pass := low_pass;
        high_pass := high_pass;
        thermistor_low_pass := thermistor_low_pass |}.

End Reader.

(** ** The report windows of [process_files] *)

Definition max_data_points : nat := 1000.

(** [values[point_idx: point_idx + max_data_points]] *)
Definition region {A : Type} (point_idx : nat) (values : list A) : list A :=
  slice values point_idx (point_idx + max_data_points).

(** [range(0, len(signal), max_data_points)] *)
Definition window_starts (n : nat) : list nat := range 0 n max_data_points.

(** [set_non_zero_ylim]: the limits handed to [set_ylim]. *)
Definition set_non_zero_ylim (values : list float) : float * float :=
  match Np.non_zero values with
  | [] => (0, 1)%float
  | x :: rest =>
      let lo := Np.min x rest in
      let hi := Np.max x rest in
      let margin := (Py.max 0.1 (hi - lo) * 0.05)%float in
      ((lo - margin)%float, (hi + margin)%float)
  end.

(** ** The pages of [process_files]

    What the loop body computes itself for one window: the page timestamp,
    the regions it plots, the two ends [x[0]] and [x[-1]] of the time axis and the four
    autoscaled limits.  The calls into [datetime], matplotlib and the report
    are not part of it. *)

Module Report.

(** The exceptions of [process_files]: the ones of the builtins, the
    [TypeError] of [None + float] and the plain [Exception] the report
    raises. *)
Inductive exn : Type :=
| TypeError
| Exception (message : string)
| Builtin (e : Py.exn).

Inductive result (A : Type) : Type :=
| Ok (value : A)
| Raise (e : exn).

Arguments Ok {A} value.
Arguments Raise {A} e.

Definition bind {A B : Type} (r : result A) (k : A -> result B) : result B :=
  match r with
  | Ok a => k a
  | Raise e => Raise e
  end.

Definition builtin {A : Type} (r : Py.result A) : result A :=
  match r with
  | Py.Ok a => Ok a
  | Py.Raise e => Raise (Builtin e)
  end.

(** [for x in l: ...] collecting one result per turn; the first exception
    ends the loop. *)
Fixpoint for_each {A B : Type} (body : A -> result B) (l : list A) : result (list B) :=
  match l with
  | [] => Ok []
  | x :: rest => bind (body x) (fun y => bind (for_each body rest) (fun ys => Ok (y :: ys)))
  end.

(** The local variables of one turn of the loop. *)
Record page : Type := {
  timestamp : float;
  x : list float;
  y : list float;
  roll : list float;
  pitch : list float;
  thermistor_low_pass : list float;
  spo2 : list float;
  pulse_rate : list float;
  perfusion_index : list float;
  mean_spo2_wave : list float;
  xlim : float * float;
  pulse_rate_ylim : float * float;
  spo2_ylim : float * float;
  perfusion_index_ylim : float * float;
  mean_spo2_wave_ylim : float * float
}.

(** [np.pi] *)
Definition pi : float := 3.141592653589793%float.

(** [values * 180/np.pi] *)
Definition degrees (values : list float) : list float :=
  map (fun v => v * 180 / pi)%float values.

(** [-values] *)
Definition negative (values : list float) : list float := map PrimFloat.opp values.

(** [start + e], where [start] may be [None]. *)
Definition add (start : option float) (e : float) : result float :=
  match start with
  | Some s => Ok (s + e)%float
  | None => Raise TypeError
  end.

(** [np.diff(a)]: [a[1:] - a[:-1]]. *)
Fixpoint diff (a : list float) : list float :=
  match a with
  | v :: (w :: _) as rest => (w - v)%float :: diff rest
  | _ => []
  end.

End Report.

(** One turn of [for point_idx in range(0, len(signal), max_data_points)]. *)
Definition page_of (data : BreathingMonitorFile) (signal : list float) (point_idx : nat) :
  Report.result Report.page :=
  Report.bind (Report.builtin (Np.getitem (elapsed data) point_idx)) (fun e =>
  Report.bind (Report.add (start_unix_timestamp data) e) (fun timestamp =>
  let x := region point_idx (elapsed data) in
  let y := region point_idx signal in
  let roll := Report.degrees (region point_idx (roll data)) in
  let pitch := Report.degrees (region point_idx (pitch data)) in
  let thermistor_low_pass := region point_idx (thermistor_low_pass data) in
  let spo2 := region point_idx (spo2 data) in
  let pulse_rate := region point_idx (pulse_rate data) in
  let perfusion_index := region point_idx (perfusion_index data) in
  let mean_spo2_wave := region point_idx (mean_spo2_wave data) in
  match x with
  | [] => Report.Raise (Report.Builtin (IndexError 0 0))
  | x_first :: rest =>
      Report.Ok {| Report.timestamp := timestamp;
                 Report.x := x;
                 Report.y := y;
                 Report.roll := roll;
                 Report.pitch := pitch;
                 Report.thermistor_low_pass := thermistor_low_pass;
                 Report.spo2 := spo2;
                 Report.pulse_rate := pulse_rate;
                 Report.perfusion_index := perfusion_index;
                 Report.mean_spo2_wave := mean_spo2_wave;
                 Report.xlim := (x_first, last rest x_first);
                 Report.pulse_rate_ylim := set_non_zero_ylim pulse_rate;
                 Report.spo2_ylim := set_non_zero_ylim spo2;
                 Report.perfusion_index_ylim := set_non_zero_ylim perfusion_index;
                 Report.mean_spo2_wave_ylim := set_non_zero_ylim mean_spo2_wave |}
  end)).

(** The two arguments of the first [plt.plot]: [data.elapsed[:-1]] and
    [np.diff(data.elapsed)]. *)
Definition first_figure (data : BreathingMonitorFile) : list float * list float :=
  (removelast (elapsed data), Report.diff (elapsed data)).

(** The loop of [process_files] over the windows of [signal = -data.positions]. *)
Definition pages (data : BreathingMonitorFile) : Report.result (list Report.page) :=
  let signal := Report.negative (positions data) in
  Report.for_each (page_of data signal) (window_starts (List.length signal)).

(** ** [markup.py]: the helpers behind the report

    The string and table helpers the report of [process_files] is built
    with.  A [str] is a string of code points below 256, a [dict] or an
    [OrderedDict] with [str] keys is the list of its items in insertion
    order, and a value that is only ever passed through [str()] is
    represented by the text [str()] gives. *)

Module Markup.

Local Open Scope string_scope.

(** The double quote. *)
Definition quote : ascii := ascii_of_nat 34.

(** [sep.join(strings)] *)
Fixpoint join (sep : string) (strings : list string) : string :=
  match strings with
  | [] => ""
  | [s] => s
  | s :: rest => s ++ sep ++ join sep rest
  end.

(** [s.replace(old, new)] for a one-character [old]. *)
Fixpoint replace (old : ascii) (new : string) (s : string) : string :=
  match s with
  | EmptyString => EmptyString
  | String c rest =>
      (if Ascii.eqb c old then new else String c EmptyString) ++ replace old new rest
  end.

(** [c.isspace()]: TAB to CR, FS to US, the space, NEL and the no-break
    space. *)
Definition isspace (c : ascii) : bool :=
  let n := nat_of_ascii c in
  ((9 <=? n) && (n <=? 13) || (28 <=? n) && (n <=? 32) || (n =? 133) || (n =? 160))%nat.

Fixpoint lstrip (s : string) : string :=
  match s with
  | String c rest => if isspace c then lstrip rest else s
  | EmptyString => EmptyString
  end.

Fixpoint rstrip (s : string) : string :=
  match s with
  | String c rest =>
      match rstrip rest with
      | EmptyString => if isspace c then EmptyString else String c EmptyString
      | kept => String c kept
      end
  | EmptyString => EmptyString
  end.

(** [s.strip()] *)
Definition strip (s : string) : string := rstrip (lstrip s).

(** [s.startswith(prefix)] *)
Definition startswith (s prefix : string) : bool := String.prefix prefix s.

(** [s.find(sub)]: the lowest index where [sub] starts; [None] for -1. *)
Fixpoint find (s sub : string) : option nat :=
  if String.prefix sub s then Some 0%nat
  else match s with
       | EmptyString => None
       | String _ rest => option_map S (find rest sub)
       end.

(** [str(n)] for a non-negative [int]. *)
Definition str (n : nat) : string := NilEmpty.string_of_uint (Nat.to_uint n).

Definition dict (V : Type) : Type := list (string * V).

(** [d.get(key, default)] *)
Fixpoint get {V : Type} (d : dict V) (key : string) (default : V) : V :=
  match d with
  | [] => default
  | (k, v) :: rest => if String.eqb k key then v else get rest key default
  end.

(** [d[key] = value]: a key that is there keeps its place. *)
Fixpoint setitem {V : Type} (d : dict V) (key : string) (value : V) : dict V :=
  match d with
  | [] => [(key, value)]
  | (k, v) :: rest =>
      if String.eqb k key then (k, value) :: rest else (k, v) :: setitem rest key value
  end.

(** *** [to_css_string] and [from_css_string] *)

(** The values of a style dictionary: a nested dictionary, [None], or
    anything else, which is written with [str()]. *)
#[warnings="-register-all"] Inductive css_value : Type :=
| CssText (text : string)
| CssNone
| CssDict (items : list (string * css_value)).

(** [before_string + join_string.join(style_strings) + after_string] *)
Definition wrap (multi_line : bool) (style_strings : list string) : string :=
  let after_string := if multi_line then String (ascii_of_nat 10) "" else "" in
  let join_string := if multi_line then String (ascii_of_nat 10) "    " else " " in
  let before_string := if multi_line then join_string else "" in
  before_string ++ join join_string style_strings ++ after_string.

(** What the loop appends for one item. *)
Fixpoint style_string (multi_line : bool) (attribute_name : string)
    (attribute_value : css_value) : string :=
  match attribute_value with
  | CssDict items =>
      attribute_name ++ " { " ++
      strip (wrap multi_line
               (map (fun item => match item with
                                 | (name, value) => style_string multi_line name value
                                 end) items)) ++
      " }"
  | CssNone => attribute_name
  | CssText text => attribute_name ++ ": " ++ text ++ ";"
  end.

Definition to_css_string (style_dictionary : list (string * css_value)) (multi_line : bool) :
  string :=
  wrap multi_line
    (map (fun item => style_string multi_line (fst item) (snd item)) style_dictionary).

(** [key, value = item.split(":")] *)
Definition unpack_pair (parts : list string) : result (string * string) :=
  match parts with
  | [key; value] => Ok (key, value)
  | [] | [_] => Raise (ValueError "not enough values to unpack (expected 2, got 1)")
  | _ => Raise (ValueError "too many values to unpack (expected 2)")
  end.

(** [value[1:-1]] *)
Definition inner (value : string) : string :=
  substring 1 (String.length value - 2) value.

Fixpoint from_css_items (items : list string) (dictionary : dict string) :
  result (dict string) :=
  match items with
  | [] => Ok dictionary
  | item :: rest =>
      pair <- unpack_pair (split ":" item) ;;
      let key := fst pair in
      let value := snd pair in
      let value :=
        if startswith value (String quote "") && endswith value (String quote "")
        then inner value else value in
      from_css_items rest (setitem dictionary key value)
  end.

Definition from_css_string (text : string) : result (dict string) :=
  from_css_items (split ";" text) [].

(** *** [class_name_to_function_name] *)

(** [c.lower()]: the capital letters of ASCII and of Latin-1 move by 32. *)
Definition lower (c : ascii) : ascii :=
  let n := nat_of_ascii c in
  if ((65 <=? n) && (n <=? 90) || (192 <=? n) && (n <=? 214) || (216 <=? n) && (n <=? 222))%nat
  then ascii_of_nat (n + 32) else c.

(** [c == c.upper()]: false for the small letters, which all have a capital
    form (for the sharp s, the micro sign and the y with diaeresis one that
    is not a code point below 256). *)
Definition is_upper_of_itself (c : ascii) : bool :=
  let n := nat_of_ascii c in
  negb ((97 <=? n) && (n <=? 122) || (n =? 181) || (223 <=? n) && (n <=? 246)
        || (248 <=? n) && (n <=? 255))%nat.

(** [c == c.lower()] *)
Definition is_lower_of_itself (c : ascii) : bool := Ascii.eqb c (lower c).

(** The loop over [enumerate(name)], with the character before the current
    one ([None] at index 0). *)
Fixpoint function_name (previous : option ascii) (name : string) : string :=
  match name with
  | EmptyString => ""
  | String char rest =>
      let underscore :=
        match previous with
        | Some p => is_upper_of_itself char && is_lower_of_itself p
        | None => false
        end in
      (if underscore then "_" else "") ++
      String (lower char) (function_name (Some char) rest)
  end.

Definition class_name_to_function_name (name : string) : string :=
  function_name None name.

(** *** [Markup.attribute_string] *)

Definition attribute_string (attributes : dict string) (replace_xml_characters : bool) :
  string :=
  match attributes with
  | [] => ""
  | _ =>
      " " ++
      join " "
        (map (fun item =>
                fst item ++ "=" ++ String quote "" ++
                (if replace_xml_characters then replace quote "&quot;" (snd item)
                 else snd item) ++
                String quote "")
           attributes)
  end.

(** *** [HtmlBase.set_border] *)

Definition set_border (attributes : dict string) : dict string :=
  let classes := get attributes "class" "" in
  match find classes "border" with
  | Some _ => attributes
  | None =>
      let classes := if String.eqb classes "" then classes else classes ++ " " in
      let classes := classes ++ "border" in
      setitem attributes "class" classes
  end.

(** *** The table: [TableRow] and [Tbody] *)

Inductive item_class : Type := TableHeader | TableItem.

(** A [TableHeader] or [TableItem] object. *)
Record cell (A : Type) : Type := {
  class : item_class;
  value : A;
  attributes : dict string;
  css : dict string
}.

Arguments class {A} c.
Arguments value {A} c.
Arguments attributes {A} c.
Arguments css {A} c.

(** [enumerate(l)] *)
Definition enumerate {A : Type} (l : list A) : list (nat * A) :=
  combine (seq 0 (List.length l)) l.

(** [l[i]] on a list, for a non-negative index. *)
Definition getitem {A : Type} (l : list A) (i : nat) : result A :=
  match nth_error l i with
  | Some x => Ok x
  | None => Raise (IndexError i (List.length l))
  end.

(** [TableRow.__init__]: the items of the row. *)
Definition TableRow {A : Type} (table_items : list A)
    (row_headers column_headers is_first_row : bool) : list (cell A) :=
  map (fun entry =>
         let item_idx := fst entry in
         let item := snd entry in
         {| class := if is_first_row && column_headers || (item_idx =? 0)%nat && row_headers
                     then TableHeader else TableItem;
            value := item;
            attributes := [];
            css := [] |})
    (enumerate table_items).

(** [[[table_list[row_idx][col_idx] for row_idx in range(len(table_list))]
      for col_idx in range(len(table_list[0]))]] *)
Definition transposed {A : Type} (table_list : list (list A)) : result (list (list A)) :=
  first <- getitem table_list 0 ;;
  comprehension
    (fun col_idx =>
       comprehension
         (fun row_idx => row <- getitem table_list row_idx ;; getitem row col_idx)
         (seq 0 (List.length table_list)))
    (seq 0 (List.length first)).

(** [Tbody.__init__] on a list of rows: the rows of the body.  A row is a
    list, which has [__getitem__], so the branch that wraps a one-dimensional
    [table_list] into a single row is not taken. *)
Definition Tbody {A : Type} (table_list : list (list A))
    (column_headers row_headers : bool) (title : option A)
    (title_column_span : option nat) (transpose : bool) : result (list (list (cell A))) :=
  table_list <- (if transpose then transposed table_list else Ok table_list) ;;
  let rows :=
    map (fun entry => TableRow (snd entry) row_headers column_headers (fst entry =? 0)%nat)
      (enumerate table_list) in
  match title with
  | None => Ok rows
  | Some title =>
      column_count <-
        match title_column_span with
        | Some span => Ok span
        | None => first <- getitem rows 0 ;; Ok (List.length first)
        end ;;
      match TableRow [title] false true true with
      | [] => Raise (IndexError 0 0)
      | c :: others =>
          let c := {| class := class c;
                      value := value c;
                      attributes := [("colspan", str column_count)];
                      css := setitem (css c) "text-align" "center" |} in
          Ok ((c :: others) :: rows)
      end
  end.

End Markup.

(** ** The report document: figures and the table of pages

    The part of [HtmlDocument] that [process_files] drives: the counter of
    automatic resource names, the two folders and the children of the body.
    A method is a function from the document to its result and the document
    afterwards; the document keeps what a method did before it raised.
    [os.path.join] is a parameter.  What matplotlib does with a path (saving
    the figure, measuring it for the [width] and [height] that [add_figure]
    stores on the image object, which the report never writes out) is not
    modelled. *)

Module Html.

Local Open Scope string_scope.

(** The elements [process_files] puts into the report: an [Image] with its
    attributes, and a [Table] with its attributes and the rows of its
    [Tbody]. *)
#[warnings="-register-all"] Inductive element : Type :=
| Image (attributes : Markup.dict string)
| Table (attributes : Markup.dict string) (rows : list (list (Markup.cell element))).

Record HtmlDocument : Type := {
  resource_folder : option string;
  relative_path : option string;
  auto_resource_count : nat;
  body_children : list element
}.

Definition method (A : Type) : Type := HtmlDocument -> Report.result A * HtmlDocument.

Definition ret {A : Type} (a : A) : method A := fun self => (Report.Ok a, self).

Definition raise {A : Type} (e : Report.exn) : method A := fun self => (Report.Raise e, self).

Definition bind {A B : Type} (m : method A) (k : A -> method B) : method B :=
  fun self =>
    match m self with
    | (Report.Ok a, self') => k a self'
    | (Report.Raise e, self') => (Report.Raise e, self')
    end.

(** A computation that does not touch the document. *)
Definition pure {A : Type} (r : Report.result A) : method A := fun self => (r, self).

(** [for x in l: ...] collecting one result per turn. *)
Fixpoint for_each {A B : Type} (body : A -> method B) (l : list A) : method (list B) :=
  match l with
  | [] => ret []
  | x :: rest => bind (body x) (fun y => bind (for_each body rest) (fun ys => ret (y :: ys)))
  end.

(** [Image(filename)]: the source is the file name with [%20] for each
    space. *)
Definition new_image (filename : string) : element :=
  Image [("src", Markup.replace " " "%20" filename)].

(** [Table(table_list)]: no attribute, no border, the rows of [Tbody]. *)
Definition new_table (table_list : list (list element)) : Report.result element :=
  Report.bind (Report.builtin (Markup.Tbody table_list false false None None false))
    (fun rows => Report.Ok (Table [] rows)).

(** The name of a resource that is named automatically. *)
Definition automatic_name (count : nat) : string := "res_" ++ Markup.str count.

(** [HtmlDocument.clear], which the constructor calls: a new report, with an
    empty body and the counter of automatic names at zero again.  The style
    sheet, which it resets to the default styles, is not part of this
    model. *)
Definition clear : method unit :=
  fun self =>
    (Report.Ok tt,
     {| resource_folder := resource_folder self;
        relative_path := relative_path self;
        auto_resource_count := 0;
        body_children := [] |}).

Section Paths.

(** [os.path.join] *)
Variable join : string -> string -> string.

(** [HtmlDocument.resource_paths]: the absolute and the relative path. *)
Definition resource_paths (resource_name : option string) (extension : string) :
  method (string * string) :=
  fun self =>
    let named :=
      match resource_name with
      | None =>
          (automatic_name (auto_resource_count self),
           {| resource_folder := resource_folder self;
              relative_path := relative_path self;
              auto_resource_count := auto_resource_count self + 1;
              body_children := body_children self |})
      | Some name => (name, self)
      end in
    let resource_name := fst named ++ "." ++ extension in
    let self := snd named in
    match resource_folder self with
    | None => (Report.Raise (Report.Exception "No resource folder was provided."), self)
    | Some folder =>
        match relative_path self with
        | None =>
            (Report.Raise
               (Report.Exception
                  "resource folder and html filename must be provided to calculate relative resource path."),
             self)
        | Some relative =>
            let relative_path := join relative resource_name in
            let absolute_path := join folder resource_name in
            (Report.Ok (absolute_path, relative_path), self)
        end
    end.

(** [HtmlDocument.add]: the element goes to the end of the body. *)
Definition add (html_element : element) : method element :=
  fun self =>
    (Report.Ok html_element,
     {| resource_folder := resource_folder self;
        relative_path := relative_path self;
        auto_resource_count := auto_resource_count self;
        body_children := body_children self ++ [html_element] |}).

(** [self.body.children.pop(-1)] *)
Definition pop : method element :=
  fun self =>
    match body_children self with
    | [] => (Report.Raise (Report.Builtin (IndexError 0 0)), self)
    | first :: rest =>
        (Report.Ok (last rest first),
         {| resource_folder := resource_folder self;
            relative_path := relative_path self;
            auto_resource_count := auto_resource_count self;
            body_children := removelast (first :: rest) |})
    end.

(** [HtmlDocument.add_figure] for the current matplotlib figure, without
    [save]: the figure goes to the absolute path, an image with the relative
    path to the body. *)
Definition add_figure (figure_name : option string) (extension : string) : method element :=
  bind (resource_paths figure_name extension) (fun paths =>
  add (new_image (snd paths))).

(** [HtmlDocument.get_image] *)
Definition get_image (figure_name : option string) (extension : string) : method element :=
  bind (add_figure figure_name extension) (fun _ => pop).

(** [report.table(rows)]: [doc.add(Table(rows))]. *)
Definition table (rows : list (list element)) : method element :=
  bind (pure (new_table rows)) add.

(** [process_files] from its first figure to the table: the first figure is
    added to the report, each turn of the loop computes its page and takes
    its figure as an image for a row, and the rows go into one table. *)
Definition report_of (data : BreathingMonitorFile) : method (list Report.page) :=
  bind (add_figure None "png") (fun _ =>
  let signal := Report.negative (positions data) in
  bind (for_each
          (fun point_idx =>
             bind (pure (page_of data signal point_idx)) (fun page =>
             bind (get_image None "png") (fun image =>
             ret (page, [image]))))
          (window_starts (List.length signal))) (fun turns =>
  bind (table (map snd turns)) (fun _ =>
  ret (map fst turns)))).

End Paths.

End Html.

(** * Vocabulary of the statements *)

Section Statements.

Context {ext : Externals}.

Local Open Scope float_scope.

(** A field that [float] accepts. *)
Definition numeric (field : string) : bool :=
  match float_of_str field with
  | Some _ => true
  | None => false
  end.

(** The first field of a line, in reading order, that [float] refuses. *)
Definition first_bad_field (line : string) : option string :=
  find (fun field => negb (numeric field)) (split "," line).

(** The first such field of a text, and the index of its record. *)
Fixpoint first_bad (lines : list string) : option string :=
  match lines with
  | [] => None
  | line :: rest =>
      match first_bad_field line with
      | Some field => Some field
      | None => first_bad rest
      end
  end.

Fixpoint bad_record_index (lines : list string) : option nat :=
  match lines with
  | [] => None
  | line :: rest =>
      match first_bad_field line with
      | Some _ => Some 0%nat
      | None => option_map S (bad_record_index rest)
      end
  end.

(** The derived signal in the words of the specification: the thermistor
    channel minus its sample mean, times 0.02, through a third-order low-pass
    Butterworth filter at normalized cutoff 0.15 whose initial conditions are
    the steady-state ones scaled by the first sample of that signal. *)
Definition spec_thermistor_low_pass (channel : list float) : result (list float) :=
  let normalized := map (fun v => (v - mean channel) * 0.02) channel in
  let b := fst (butter 3 0.15 Signal.low) in
  let a := snd (butter 3 0.15 Signal.low) in
  let steady_state := lfilter_zi b a in
  match normalized with
  | [] => Raise (IndexError 0 0)
  | first :: _ =>
      match Signal.lfilter b a normalized (map (fun z => z * first) steady_state) with
      | Ok (y, _) => Ok y
      | Raise e => Raise e
      end
  end.

End Statements.

(** Each sample is at most its successor, in the order of doubles. *)
Definition non_decreasing (a : list float) : Prop :=
  forall i x y,
    nth_error a i = Some x -> nth_error a (S i) = Some y -> (x <=? y)%float = true.

(** What the first list of a binary file holds. *)
Definition int64_number (v : number) : Prop :=
  exists z, v = PyInt z /\ (- 2 ^ 63 <= z <= 2 ^ 63)%Z.

(** The [i]-th record of a binary file: 48 bytes, after the 8-byte header
    and the records before it. *)
Definition record (file_in : list byte) (i : nat) : list byte :=
  slice file_in (8 + 48 * i) (8 + 48 * i + 48).

(** Value [c] of a record in the format [>q10f]: the first eight bytes are
    the integer, each four bytes after them a float. *)
Definition record_value (c : nat) (value_bytes : list byte) : number :=
  match c with
  | O => PyInt (Struct.int64 (slice value_bytes 0 8))
  | S j => PyFloat (Struct.float32 (slice value_bytes (8 + 4 * j) (8 + 4 * j + 4)))
  end.

(** Value [c] of every record of a file of [n] records, as doubles. *)
Definition column (file_in : list byte) (n c : nat) : list float :=
  map (fun i => Np.float64 (record_value c (record file_in i))) (seq 0 n).

(** The lines with more than [c] fields: the ones that give sequence [c] a
    sample. *)
Definition lines_reaching (c : nat) (lines : list string) : list string :=
  filter (fun line => (c <? List.length (split "," line))%nat) lines.

(** [c in s] *)
Fixpoint contains (c : ascii) (s : string) : bool :=
  match s with
  | EmptyString => false
  | String c' rest => Ascii.eqb c' c || contains c rest
  end.

(** How often [c] occurs in [s]. *)
Fixpoint count (c : ascii) (s : string) : nat :=
  match s with
  | EmptyString => 0
  | String c' rest => (if Ascii.eqb c' c then 1 else 0) + count c rest
  end.

(** What [from_css_string] stores for a value: without its quotes when it
    starts and ends with one. *)
Definition unquoted (value : string) : string :=
  if Markup.startswith value (String Markup.quote "") && endswith value (String Markup.quote "")
  then Markup.inner value else value.

(** The characters of [s] that are not underscores. *)
Definition without_underscores (s : string) : list ascii :=
  filter (fun c => negb (Ascii.eqb c "_")) (list_ascii_of_string s).

(** What a page of window [point_idx] is, for a recording with start
    timestamp [start]. *)
Definition page_at (r : BreathingMonitorFile) (start : float) (point_idx : nat)
    (p : Report.page) : Prop :=
  exists e,
    nth_error (elapsed r) point_idx = Some e /\
    Report.timestamp p = (start + e)%float /\
    Report.x p = region point_idx (elapsed r) /\
    Report.xlim p = (e, last (Report.x p) e) /\
    (1 <= List.length (Report.x p) <= max_data_points)%nat /\
    List.length (Report.y p) = List.length (Report.x p) /\
    List.length (Report.roll p) = List.length (Report.x p) /\
    List.length (Report.pitch p) = List.length (Report.x p) /\
    List.length (Report.thermistor_low_pass p) = List.length (Report.x p) /\
    List.length (Report.spo2 p) = List.length (Report.x p) /\
    List.length (Report.pulse_rate p) = List.length (Report.x p) /\
    List.length (Report.perfusion_index p) = List.length (Report.x p) /\
    List.length (Report.mean_spo2_wave p) = List.length (Report.x p).




(** The classes of an element: the words of its [class] attribute. *)
Definition class_names (attributes : Markup.dict string) : list string :=
  split " " (Markup.get attributes "class" ""%string).

(** The resource name of the automatic name with number [count]. *)
Definition resource_name (count : nat) (extension : string) : string :=
  (Html.automatic_name count ++ "." ++ extension)%string.

(** The image [add_figure] makes for the automatic name with number
    [count], in a document whose relative resource path is [relative]. *)
Definition figure (join : string -> string -> string) (relative : string) (count : nat)
    (extension : string) : Html.element :=
  Html.new_image (join relative (Html.automatic_name count ++ "." ++ extension)%string).

(** ** Worked inputs *)

Definition LF : string := String (ascii_of_nat 10) EmptyString.

(** A [.dat] file: start timestamp 1000 ms, then one record of zero bytes. *)
Definition one_record_dat : stored_file :=
  {| read_bytes :=
       [Byte.x00; Byte.x00; Byte.x00; Byte.x00; Byte.x00; Byte.x00; Byte.x03; Byte.xe8]
         ++ repeat Byte.x00 48;
     read_text := EmptyString |}.

(** A [.dat] file of two records, with the timestamps 1 and 1000000003. *)
Definition two_record_dat : stored_file :=
  {| read_bytes :=
       [Byte.x00; Byte.x00; Byte.x00; Byte.x00; Byte.x00; Byte.x00; Byte.x03; Byte.xe8]
         ++ ([Byte.x00; Byte.x00; Byte.x00; Byte.x00; Byte.x00; Byte.x00; Byte.x00; Byte.x01]
               ++ repeat Byte.x00 40)
         ++ ([Byte.x00; Byte.x00; Byte.x00; Byte.x00; Byte.x3b; Byte.x9a; Byte.xca; Byte.x03]
               ++ repeat Byte.x00 40);
     read_text := EmptyString |}.




(** A text file whose second line stops after three fields. *)
Definition short_line_txt : stored_file :=
  {| read_bytes := [];
     read_text := ("1,2,3,4,5,6,7,8,9,10,11" ++ LF ++ "2,3,4")%string |}.

(** Two text files with a field that is no number: in the first record of
    the one, in the second record of the other. *)
Definition bad_first_txt : stored_file :=
  {| read_bytes := []; read_text := "x,2,3,4,5,6,7,8,9,10,11" |}.

Definition bad_second_txt : stored_file :=
  {| read_bytes := [];
     read_text := ("1,2,3,4,5,6,7,8,9,10,11" ++ LF ++ "x,2,3,4,5,6,7,8,9,10,11")%string |}.

(** A text file whose two timestamps are infinite. *)
Definition inf_timestamp_txt : stored_file :=
  {| read_bytes := [];
     read_text := ("inf,2,3,4,5,6,7,8,9,10,11" ++ LF ++ "inf,3,4,5,6,7,8,9,10,11,12")%string |}.

(** Two text files of one line: eleven fields, and the same with a twelfth. *)
Definition eleven_fields_txt : stored_file :=
  {| read_bytes := []; read_text := "1,2,3,4,5,6,7,8,9,10,11" |}.

Definition twelve_fields_txt : stored_file :=
  {| read_bytes := []; read_text := "1,2,3,4,5,6,7,8,9,10,11,12" |}.

(** [os.path.join] of a POSIX system, for two arguments. *)
Definition posix_join (a b : string) : string :=
  if String.prefix "/" b then b
  else if String.eqb a "" || endswith a "/" then (a ++ b)%string
  else (a ++ "/" ++ b)%string.

(** A report that has its folders and nothing in it yet. *)
Definition night_report : Html.HtmlDocument :=
  {| Html.resource_folder := Some "plots/night.dat/resources"%string;
     Html.relative_path := Some "./resources"%string;
     Html.auto_resource_count := 0;
     Html.body_children := [] |}.

(** ** A concrete instance of [Externals] for the worked examples

    [float_of_str] reads the plain literals of Python's float grammar (sign,
    digits, fraction, exponent, [inf], [nan], surrounding blanks) with correct
    rounding; [mean] adds from left to right; [butter] tabulates the three
    designs the script asks for; [lfilter_zi] uses the explicit formulas for
    the steady state of a unit step. *)

Module Sample.

Local Open Scope Z_scope.

Definition is_digit (c : ascii) : bool :=
  let n := nat_of_ascii c in ((48 <=? n) && (n <=? 57))%nat.

Definition is_space (c : ascii) : bool :=
  let n := nat_of_ascii c in ((9 <=? n) && (n <=? 13) || (n =? 32))%nat.

Fixpoint lstrip (s : string) : string :=
  match s with
  | String c rest => if is_space c then lstrip rest else s
  | EmptyString => EmptyString
  end.

Fixpoint rstrip (s : string) : string :=
  match s with
  | String c rest =>
      match rstrip rest with
      | EmptyString => if is_space c then EmptyString else String c EmptyString
      | kept => String c kept
      end
  | EmptyString => EmptyString
  end.

Definition lower_char (c : ascii) : ascii :=
  let n := nat_of_ascii c in
  if ((65 <=? n) && (n <=? 90))%nat then ascii_of_nat (n + 32) else c.

Fixpoint lower (s : string) : string :=
  match s with
  | String c rest => String (lower_char c) (lower rest)
  | EmptyString => EmptyString
  end.

(** The leading digits of [s] appended to [acc]; how many; what follows. *)
Fixpoint take_digits (s : string) (acc count : Z) : Z * Z * string :=
  match s with
  | String c rest =>
      if is_digit c
      then take_digits rest (10 * acc + (Z.of_nat (nat_of_ascii c) - 48)) (count + 1)
      else (acc, count, s)
  | EmptyString => (acc, count, s)
  end.

(** The double nearest to [(-1)^neg * m * 10^e10], ties to even. *)
Definition of_decimal (neg : bool) (m e10 : Z) : float :=
  SF2Prim
    (if m =? 0 then S754_zero neg
     else if 0 <=? e10
     then binary_normalize prec emax ((if neg then -1 else 1) * (m * 10 ^ e10)) 0 neg
     else
       let '(q, e, l) := SFdiv_core_binary prec emax m 0 (10 ^ (- e10)) 0 in
       binary_round_aux prec emax neg q e l).

Definition exponent_part (neg : bool) (m fc : Z) (s : string) : option float :=
  match s with
  | EmptyString => Some (of_decimal neg m (- fc))
  | String c rest =>
      if Ascii.eqb (lower_char c) "e" then
        let '(eneg, rest) :=
          match rest with
          | String "-" r => (true, r)
          | String "+" r => (false, r)
          | _ => (false, rest)
          end in
        let '(ev, ec, rest) := take_digits rest 0 0 in
        if (ec =? 0) || negb (String.eqb rest EmptyString) then None
        else Some (of_decimal neg m ((if eneg then - ev else ev) - fc))
      else None
  end.

Definition unsigned (neg : bool) (s : string) : option float :=
  let l := lower s in
  if String.eqb l "inf" || String.eqb l "infinity"
  then Some (if neg then neg_infinity else infinity)
  else if String.eqb l "nan" then Some nan
  else
    let '(ip, ic, r1) := take_digits s 0 0 in
    let '(m, fc, r2) :=
      match r1 with
      | String "." r => take_digits r ip 0
      | _ => (ip, 0, r1)
      end in
    if ic + fc =? 0 then None else exponent_part neg m fc r2.

Definition float_of_str (s : string) : option float :=
  match rstrip (lstrip s) with
  | String "-" r => unsigned true r
  | String "+" r => unsigned false r
  | t => unsigned false t
  end.

Local Open Scope float_scope.

Definition sum (a : list float) : float := fold_left PrimFloat.add a 0.

Definition mean (a : list float) : float :=
  sum a / Np.float_of_int (Z.of_nat (List.length a)).

Definition butter (N : nat) (Wn : float) (bt : Signal.btype) : list float * list float :=
  match N, bt with
  | 3%nat, Signal.low =>
      if Wn =? 0.1 then
        ([0.00289819463372143; 0.008694583901164291; 0.008694583901164291; 0.00289819463372143],
         [1; -2.374094743709352; 1.929355669091215; -0.5320753683120918])
      else if Wn =? 0.15 then
        ([0.008598686086321944; 0.02579605825896583; 0.02579605825896583; 0.008598686086321944],
         [1; -2.065139783393474; 1.5199926412503033; -0.3860633691662536])
      else (1 :: repeat 0 N, 1 :: repeat 0 N)
  | 3%nat, Signal.high =>
      if Wn =? 0.3 then
        ([0.37445269259015956; -1.1233580777704786; 1.1233580777704786; -0.37445269259015956],
         [1; -1.1619174836717325; 0.6959427557896508; -0.13776130125989283])
      else (1 :: repeat 0 N, 1 :: repeat 0 N)
  | _, _ => (1 :: repeat 0 N, 1 :: repeat 0 N)
  end.

Fixpoint zi_tail (a b : list float) (b0 zi0 asum csum : float) : list float :=
  match a, b with
  | ak :: a', bk :: b' =>
      let asum := asum + ak in
      let csum := csum + (bk - ak * b0) in
      (asum * zi0 - csum) :: zi_tail a' b' b0 zi0 asum csum
  | _, _ => []
  end.

Definition lfilter_zi (b a : list float) : list float :=
  let n := Nat.max (List.length a) (List.length b) in
  match Signal.pad n a, Signal.pad n b with
  | a0 :: a1 :: a', b0 :: b1 :: b' =>
      let an := map (fun c => c / a0) (a1 :: a') in
      let bn := map (fun c => c / a0) (b1 :: b') in
      let b0 := b0 / a0 in
      let zi0 := (sum bn - sum an * b0) / (1 + sum an) in
      zi0 :: zi_tail (removelast an) (removelast bn) b0 zi0 1 0
  | _, _ => []
  end.

End Sample.

(** * IEEE-754 binary64: what the derived signals need of it

    The primitive operations are specified by [SpecFloat]'s algorithms.  This
    part reads those algorithms on the real line: a division or subtraction
    returns the correctly rounded value of the exact result, rounding to
    nearest (ties to even) is monotone, and [x - x] is [+0] for finite [x]. *)

Module Ieee.

Local Open Scope R_scope.

(** ** Definitions *)

Definition bpow (e : Z) : R := powerRZ 2 e.

Definition inbetween_int (m : Z) (l : location) (w : R) : Prop :=
  match l with
  | loc_Exact => w = IZR m
  | loc_Inexact Lt => IZR m < w < IZR m + / 2
  | loc_Inexact Eq => w = IZR m + / 2
  | loc_Inexact Gt => IZR m + / 2 < w < IZR m + 1
  end.

Definition mag_is (v : R) (k : Z) : Prop := bpow (k - 1) <= v < bpow k.

Definition nearest_even (w : R) (n : Z) : Prop :=
  IZR n - / 2 < w < IZR n + / 2 \/
  ((w = IZR n - / 2 \/ w = IZR n + / 2) /\ Z.even n = true).

(** The float for the rounded mantissa [n] at exponent [ce]: zero, a finite
    number (renormalized when the mantissa reached [2^53]) or an overflow. *)
Definition finalize (s : bool) (n ce : Z) : spec_float :=
  match n with
  | Z0 => S754_zero s
  | Zpos p =>
      if (n <? 2 ^ 53)%Z then
        if (ce <=? 971)%Z then S754_finite s p ce else S754_infinity s
      else
        if (ce + 1 <=? 971)%Z then S754_finite s 4503599627370496 (ce + 1)
        else S754_infinity s
  | Zneg _ => S754_nan
  end.

Definition F2R (m e : Z) : R := IZR m * bpow e.

(** The place of a float on the real line; the infinities stand at
    [2^1024] and [-2^1024], beyond every finite value. *)
Definition key (x : spec_float) : R :=
  match x with
  | S754_zero _ => 0
  | S754_infinity s => if s then - bpow 1024 else bpow 1024
  | S754_nan => 0
  | S754_finite s m e => if s then - F2R (Zpos m) e else F2R (Zpos m) e
  end.

Definition not_nan (x : spec_float) : Prop := x <> S754_nan.

Definition cmp_spec (c : option comparison) (a b : R) : Prop :=
  match c with
  | Some Lt => a < b
  | Some Eq => a = b
  | Some Gt => b < a
  | None => False
  end.

Definition canonical_pair (n ce : Z) : Prop :=
  (0 <= n <= 2 ^ 53)%Z /\ (-1074 <= ce)%Z /\ ((-1074 < ce)%Z -> (2 ^ 52 <= n)%Z).

Definition signed (s : bool) (x : R) : R := if s then - x else x.

Definition rounds_to (v : R) (s : bool) (r : spec_float) : Prop :=
  exists k n,
    mag_is v k /\
    nearest_even (v * bpow (- SpecFloat.fexp prec emax k)) n /\
    r = finalize s n (SpecFloat.fexp prec emax k).

(** [r] is the correctly rounded float of the real [v]. *)
Definition Rounded (v : R) (r : spec_float) : Prop :=
  (v = 0 /\ exists s, r = S754_zero s) \/
  (0 < v /\ rounds_to v false r) \/
  (v < 0 /\ rounds_to (- v) true r).

Definition finite_or_zero (x : spec_float) : Prop :=
  match x with
  | S754_zero _ | S754_finite _ _ _ => True
  | _ => False
  end.

Definition finite (x : float) : Prop := finite_or_zero (Prim2SF x).

(** The largest finite double. *)
Definition max_float : float := 0x1.fffffffffffffp+1023%float.

(** ** Powers of two as reals *)

Lemma bpow_gt_0 e : 0 < bpow e.
Proof. apply powerRZ_lt. lra. Qed.

Lemma bpow_plus a b : bpow (a + b) = bpow a * bpow b.
Proof. apply powerRZ_add. lra. Qed.

Lemma bpow_0 : bpow 0 = 1.
Proof. reflexivity. Qed.

Lemma bpow_1 : bpow 1 = 2.
Proof. exact (powerRZ_1 2). Qed.

Lemma bpow_succ e : bpow (e + 1) = 2 * bpow e.
Proof. rewrite bpow_plus, bpow_1. lra. Qed.

Lemma bpow_opp e : bpow (- e) = / bpow e.
Proof. apply powerRZ_neg'. Qed.

Lemma bpow_minus a b : bpow (a - b) = bpow a / bpow b.
Proof. unfold Z.sub. rewrite bpow_plus, bpow_opp. reflexivity. Qed.

Lemma bpow_ge_1 (e : Z) : (0 <= e)%Z -> 1 <= bpow e.
Proof.
  intros H. pattern e. apply natlike_ind; [rewrite bpow_0; lra| |exact H].
  intros x Hx IH. unfold Z.succ. rewrite bpow_succ. lra.
Qed.

Lemma bpow_le a b : (a <= b)%Z -> bpow a <= bpow b.
Proof.
  intros H. replace b with (a + (b - a))%Z by lia. rewrite bpow_plus.
  pose proof (bpow_gt_0 a). pose proof (bpow_ge_1 (b - a) ltac:(lia)). nra.
Qed.

Lemma bpow_lt a b : (a < b)%Z -> bpow a < bpow b.
Proof.
  intros H. replace b with (a + 1 + (b - a - 1))%Z by lia.
  rewrite bpow_plus, bpow_succ.
  pose proof (bpow_gt_0 a). pose proof (bpow_ge_1 (b - a - 1) ltac:(lia)). nra.
Qed.

Lemma bpow_lt_inv a b : bpow a < bpow b -> (a < b)%Z.
Proof.
  intros H. destruct (Z_lt_le_dec a b) as [L|L]; [exact L|].
  apply bpow_le in L. lra.
Qed.

Lemma bpow_IZR (e : Z) : (0 <= e)%Z -> bpow e = IZR (2 ^ e).
Proof.
  intros H. pattern e. apply natlike_ind; [reflexivity| |exact H].
  intros x Hx IH. unfold Z.succ. rewrite bpow_succ, IH, Z.pow_add_r by lia.
  rewrite mult_IZR. change (2 ^ 1)%Z with 2%Z. lra.
Qed.

(** ** The binary64 format *)

Lemma fexp_eq e : SpecFloat.fexp prec emax e = Z.max (e - 53) (-1074).
Proof. reflexivity. Qed.

Lemma digits2_pos_size p : digits2_pos p = Pos.size p.
Proof. induction p as [p IH|p IH|]; cbn; now rewrite ?IH. Qed.

Lemma digits2_bounds (p : positive) :
  (2 ^ (Zpos (digits2_pos p) - 1) <= Zpos p < 2 ^ Zpos (digits2_pos p))%Z.
Proof.
  rewrite digits2_pos_size.
  pose proof (Pos.size_gt p) as Hgt. pose proof (Pos.size_le p) as Hle.
  assert (E : (2 ^ Zpos (Pos.size p) = Zpos (2 ^ Pos.size p))%Z)
    by now rewrite Pos2Z.inj_pow.
  assert (S : (2 ^ Zpos (Pos.size p) = 2 * 2 ^ (Zpos (Pos.size p) - 1))%Z).
  { rewrite <- Z.pow_succ_r by lia. f_equal. lia. }
  split.
  - assert (Zpos (2 ^ Pos.size p) <= Zpos p~0)%Z by exact Hle. lia.
  - rewrite E. exact Hgt.
Qed.

Lemma digits2_bpow (p : positive) :
  bpow (Zpos (digits2_pos p) - 1) <= IZR (Zpos p) < bpow (Zpos (digits2_pos p)).
Proof.
  pose proof (digits2_bounds p) as [L U].
  rewrite !bpow_IZR by lia. split; [now apply IZR_le|now apply IZR_lt].
Qed.

(** A positive integer below [2^d] has at most [d] digits, one from [2^(d-1)]
    on has at least [d]. *)
Lemma digits2_le (p : positive) (d : Z) :
  (Zpos p < 2 ^ d)%Z -> (0 <= d)%Z -> (Zpos (digits2_pos p) <= d)%Z.
Proof.
  intros H Hd. pose proof (digits2_bounds p) as [L _].
  destruct (Z_le_gt_dec (Zpos (digits2_pos p)) d) as [C|C]; [exact C|].
  assert (2 ^ d <= 2 ^ (Zpos (digits2_pos p) - 1))%Z by (apply Z.pow_le_mono_r; lia).
  lia.
Qed.

Lemma digits2_ge (p : positive) (d : Z) :
  (2 ^ (d - 1) <= Zpos p)%Z -> (Zpos (digits2_pos p) >= d)%Z.
Proof.
  intros H. pose proof (digits2_bounds p) as [_ U].
  destruct (Z_lt_ge_dec (Zpos (digits2_pos p)) d) as [C|C]; [|exact C].
  assert (2 ^ Zpos (digits2_pos p) <= 2 ^ (d - 1))%Z by (apply Z.pow_le_mono_r; lia).
  lia.
Qed.

(** ** Where a real stands between two consecutive integers *)

Lemma inbetween_bounds m l w : inbetween_int m l w -> IZR m <= w < IZR m + 1.
Proof. destruct l as [|[| |]]; cbn; lra. Qed.

Lemma IZR_xO p : IZR (Zpos p~0) = 2 * IZR (Zpos p).
Proof. rewrite Pos2Z.inj_xO, mult_IZR. reflexivity. Qed.

Lemma IZR_xI p : IZR (Zpos p~1) = 2 * IZR (Zpos p) + 1.
Proof. rewrite Pos2Z.inj_xI, plus_IZR, mult_IZR. reflexivity. Qed.

(** One right shift halves the value and keeps track of where it stands. *)
Lemma shr_1_correct mrs w :
  (0 <= shr_m mrs)%Z ->
  inbetween_int (shr_m mrs) (loc_of_shr_record mrs) w ->
  (0 <= shr_m (shr_1 mrs))%Z /\
  inbetween_int (shr_m (shr_1 mrs)) (loc_of_shr_record (shr_1 mrs)) (w / 2).
Proof.
  destruct mrs as [m r s]. cbn [shr_m]. intros Hm H.
  destruct m as [|p|p]; [| |lia].
  - destruct r, s; cbn [shr_1 shr_m loc_of_shr_record orb inbetween_int] in *;
      (split; [lia|lra]).
  - destruct p as [p|p|]; destruct r, s;
      cbn [shr_1 shr_m loc_of_shr_record orb inbetween_int] in *;
      try rewrite (IZR_xO p) in H; try rewrite (IZR_xI p) in H; (split; [lia|lra]).
Qed.

Lemma bpow_xI p : bpow (- Zpos p~1) = bpow (Z.opp 1) * bpow (- Zpos p) * bpow (- Zpos p).
Proof. rewrite <- !bpow_plus. f_equal. lia. Qed.

Lemma bpow_xO p : bpow (- Zpos p~0) = bpow (- Zpos p) * bpow (- Zpos p).
Proof. rewrite <- !bpow_plus. f_equal. lia. Qed.

Lemma bpow_m1 : bpow (Z.opp 1) = / 2.
Proof. rewrite bpow_opp, bpow_1. reflexivity. Qed.

Lemma shr_iter_correct p :
  forall mrs w,
    (0 <= shr_m mrs)%Z ->
    inbetween_int (shr_m mrs) (loc_of_shr_record mrs) w ->
    (0 <= shr_m (SpecFloat.iter_pos shr_1 p mrs))%Z /\
    inbetween_int (shr_m (SpecFloat.iter_pos shr_1 p mrs))
      (loc_of_shr_record (SpecFloat.iter_pos shr_1 p mrs)) (w * bpow (- Zpos p)).
Proof.
  induction p as [p IH|p IH|]; intros mrs w Hm H; cbn [SpecFloat.iter_pos].
  - destruct (shr_1_correct _ _ Hm H) as [Hm1 H1].
    destruct (IH _ _ Hm1 H1) as [Hm2 H2].
    destruct (IH _ _ Hm2 H2) as [Hm3 H3].
    split; [exact Hm3|]. rewrite bpow_xI, bpow_m1.
    replace (w * (/ 2 * bpow (- Zpos p) * bpow (- Zpos p)))
      with (w / 2 * bpow (- Zpos p) * bpow (- Zpos p)) by (unfold Rdiv; ring).
    exact H3.
  - destruct (IH _ _ Hm H) as [Hm2 H2].
    destruct (IH _ _ Hm2 H2) as [Hm3 H3].
    split; [exact Hm3|]. rewrite bpow_xO.
    replace (w * (bpow (- Zpos p) * bpow (- Zpos p)))
      with (w * bpow (- Zpos p) * bpow (- Zpos p)) by ring.
    exact H3.
  - destruct (shr_1_correct _ _ Hm H) as [Hm1 H1].
    split; [exact Hm1|]. rewrite bpow_m1. exact H1.
Qed.

Lemma shr_correct mrs e n w :
  (0 <= shr_m mrs)%Z ->
  inbetween_int (shr_m mrs) (loc_of_shr_record mrs) w ->
  (0 <= n)%Z ->
  snd (shr mrs e n) = (e + n)%Z /\
  (0 <= shr_m (fst (shr mrs e n)))%Z /\
  inbetween_int (shr_m (fst (shr mrs e n)))
    (loc_of_shr_record (fst (shr mrs e n))) (w * bpow (- n)).
Proof.
  intros Hm H Hn. destruct n as [|p|p]; [| |lia]; cbn [shr fst snd].
  - rewrite Z.add_0_r. change (bpow (- 0)) with 1. rewrite Rmult_1_r. auto.
  - destruct (shr_iter_correct p _ _ Hm H). auto.
Qed.

Lemma shr_record_of_loc_m m l : shr_m (shr_record_of_loc m l) = m.
Proof. now destruct l as [|[| |]]. Qed.

Lemma loc_of_shr_record_of_loc m l : loc_of_shr_record (shr_record_of_loc m l) = l.
Proof. now destruct l as [|[| |]]. Qed.

(** ** Magnitude *)

Lemma mag_is_pos v k : mag_is v k -> 0 < v.
Proof. intros [L _]. pose proof (bpow_gt_0 (k - 1)). lra. Qed.

Lemma mag_le v1 k1 v2 k2 : mag_is v1 k1 -> mag_is v2 k2 -> v1 <= v2 -> (k1 <= k2)%Z.
Proof.
  intros [L1 U1] [L2 U2] H.
  assert (bpow (k1 - 1) < bpow k2) by lra.
  apply bpow_lt_inv in H0. lia.
Qed.

Lemma mag_unique v k1 k2 : mag_is v k1 -> mag_is v k2 -> k1 = k2.
Proof.
  intros H1 H2.
  pose proof (mag_le _ _ _ _ H1 H2 ltac:(lra)).
  pose proof (mag_le _ _ _ _ H2 H1 ltac:(lra)). lia.
Qed.

Lemma inbetween_mag p l e v :
  inbetween_int (Zpos p) l (v * bpow (- e)) ->
  mag_is v (Zpos (digits2_pos p) + e).
Proof.
  intros H. apply inbetween_bounds in H. destruct H as [L U].
  pose proof (digits2_bpow p) as [DL DU].
  pose proof (digits2_bounds p) as [_ ZU].
  assert (U' : v * bpow (- e) < bpow (Zpos (digits2_pos p))).
  { rewrite (bpow_IZR (Zpos (digits2_pos p))) by lia.
    apply Rlt_le_trans with (1 := U). rewrite <- plus_IZR. apply IZR_le. lia. }
  pose proof (bpow_gt_0 e) as Pe.
  assert (Ev : v = v * bpow (- e) * bpow e).
  { rewrite Rmult_assoc, <- bpow_plus. replace (- e + e)%Z with 0%Z by lia.
    rewrite bpow_0. ring. }
  unfold mag_is.
  replace (Zpos (digits2_pos p) + e - 1)%Z with ((Zpos (digits2_pos p) - 1) + e)%Z by lia.
  rewrite !bpow_plus. rewrite Ev at 1 2. split.
  - apply Rmult_le_compat_r; lra.
  - apply Rmult_lt_compat_r; lra.
Qed.

(** ** Rounding to nearest, ties to even *)

Lemma round_nearest_even_correct m l w :
  inbetween_int m l w -> nearest_even w (round_nearest_even m l).
Proof.
  destruct l as [|[| |]]; cbn [inbetween_int round_nearest_even]; intros H.
  - left. lra.
  - destruct (Z.even m) eqn:E.
    + right. split; [right; exact H|exact E].
    + right. rewrite plus_IZR. split; [left; lra|].
      change (m + 1)%Z with (Z.succ m). rewrite Z.even_succ, <- Z.negb_even, E. reflexivity.
  - left. lra.
  - left. rewrite plus_IZR. lra.
Qed.

Lemma nearest_even_le_int w n J : nearest_even w n -> w <= IZR J -> (n <= J)%Z.
Proof.
  intros H Hw. destruct (Z_le_gt_dec n J) as [C|C]; [exact C|].
  assert (IZR J + 1 <= IZR n) by (rewrite <- plus_IZR; apply IZR_le; lia).
  destruct H as [H|[[H|H] _]]; lra.
Qed.

Lemma nearest_even_ge_int w n J : nearest_even w n -> IZR J <= w -> (J <= n)%Z.
Proof.
  intros H Hw. destruct (Z_le_gt_dec J n) as [C|C]; [exact C|].
  assert (IZR n + 1 <= IZR J) by (rewrite <- plus_IZR; apply IZR_le; lia).
  destruct H as [H|[[H|H] _]]; lra.
Qed.

Lemma nearest_even_bounds w n : nearest_even w n -> IZR n - / 2 <= w <= IZR n + / 2.
Proof. intros [H|[[H|H] _]]; lra. Qed.

Lemma nearest_even_mono w1 n1 w2 n2 :
  nearest_even w1 n1 -> nearest_even w2 n2 -> w1 <= w2 -> (n1 <= n2)%Z.
Proof.
  intros H1 H2 Hw. destruct (Z_le_gt_dec n1 n2) as [C|C]; [exact C|].
  assert (Hn : IZR n2 + 1 <= IZR n1) by (rewrite <- plus_IZR; apply IZR_le; lia).
  pose proof (nearest_even_bounds _ _ H1) as B1.
  pose proof (nearest_even_bounds _ _ H2) as B2.
  assert (E1 : Z.even n1 = true) by (destruct H1 as [H1|[_ E]]; [lra|exact E]).
  assert (E2 : Z.even n2 = true) by (destruct H2 as [H2|[_ E]]; [lra|exact E]).
  assert (Hd : IZR n1 <= IZR n2 + 1)
    by (destruct H1 as [H1|[[H1|H1] _]]; destruct H2 as [H2|[[H2|H2] _]]; lra).
  assert (Heq : IZR n1 = IZR (n2 + 1)) by (rewrite plus_IZR; lra).
  apply eq_IZR in Heq. subst n1.
  change (n2 + 1)%Z with (Z.succ n2) in E1.
  rewrite Z.even_succ, <- Z.negb_even, E2 in E1. discriminate.
Qed.

Lemma nearest_even_unique w n1 n2 : nearest_even w n1 -> nearest_even w n2 -> n1 = n2.
Proof.
  intros H1 H2.
  pose proof (nearest_even_mono _ _ _ _ H1 H2 ltac:(lra)).
  pose proof (nearest_even_mono _ _ _ _ H2 H1 ltac:(lra)). lia.
Qed.

Lemma nearest_even_exact n : nearest_even (IZR n) n.
Proof. left. lra. Qed.

Lemma shr_nonpos mrs e n : (n <= 0)%Z -> shr mrs e n = (mrs, e).
Proof. destruct n; [reflexivity|lia|reflexivity]. Qed.

Lemma round_aux_second_phase s n ce :
  (0 <= n <= 2 ^ 53)%Z -> (-1074 <= ce)%Z ->
  (let '(mrs, e) := shr_fexp prec emax n ce loc_Exact in
   match shr_m mrs with
   | Z0 => S754_zero s
   | Zpos m => if (e <=? emax - prec)%Z then S754_finite s m e else S754_infinity s
   | Zneg _ => S754_nan
   end) = finalize s n ce.
Proof.
  intros Hn Hce. unfold shr_fexp. rewrite fexp_eq.
  change (emax - prec)%Z with 971%Z.
  destruct n as [|p|p]; [| |lia].
  - rewrite shr_nonpos by (cbn [Zdigits2]; lia). reflexivity.
  - cbn [Zdigits2]. unfold finalize.
    destruct (Z.ltb_spec (Zpos p) (2 ^ 53)) as [Hlt|Hge].
    + pose proof (digits2_le p 53 Hlt ltac:(lia)).
      rewrite shr_nonpos by lia. reflexivity.
    + assert (E : p = 9007199254740992%positive) by lia. subst p.
      change (Zpos (digits2_pos 9007199254740992)) with 54%Z.
      replace (Z.max (54 + ce - 53) (-1074) - ce)%Z with 1%Z by lia.
      reflexivity.
Qed.

Lemma binary_round_aux_correct s m e l v k :
  (0 <= m)%Z ->
  inbetween_int m l (v * bpow (- e)) ->
  mag_is v k ->
  (e <= SpecFloat.fexp prec emax k)%Z ->
  exists n,
    nearest_even (v * bpow (- SpecFloat.fexp prec emax k)) n /\
    (0 <= n <= 2 ^ 53)%Z /\
    binary_round_aux prec emax s m e l = finalize s n (SpecFloat.fexp prec emax k).
Proof.
  intros Hm Hin Hmag He.
  set (ce := SpecFloat.fexp prec emax k) in *.
  assert (Hce : ce = Z.max (k - 53) (-1074)) by apply fexp_eq.
  assert (Hshift : SpecFloat.fexp prec emax (Zdigits2 m + e) = ce).
  { destruct m as [|p|p]; [| |lia].
    - cbn [Zdigits2]. rewrite fexp_eq.
      pose proof (inbetween_bounds _ _ _ Hin) as [_ U].
      destruct Hmag as [L _].
      assert (bpow (k - 1) < bpow e).
      { apply Rle_lt_trans with (1 := L).
        replace v with (v * bpow (- e) * bpow e).
        - pose proof (bpow_gt_0 e). replace (bpow e) with (1 * bpow e) at 2 by ring.
          apply Rmult_lt_compat_r; lra.
        - rewrite Rmult_assoc, <- bpow_plus. replace (- e + e)%Z with 0%Z by lia.
          rewrite bpow_0. ring. }
      apply bpow_lt_inv in H. lia.
    - cbn [Zdigits2]. unfold ce. f_equal.
      apply (mag_unique v); [now apply (inbetween_mag p l)|exact Hmag]. }
  unfold binary_round_aux. unfold shr_fexp at 1. rewrite Hshift.
  pose proof (shr_correct (shr_record_of_loc m l) e (ce - e) (v * bpow (- e))) as Hs.
  rewrite shr_record_of_loc_m, loc_of_shr_record_of_loc in Hs.
  destruct (Hs Hm Hin ltac:(lia)) as (E1 & Hm' & Hin'). clear Hs.
  destruct (shr (shr_record_of_loc m l) e (ce - e)) as [mrs' e'].
  cbn [fst snd] in *.
  replace (e + (ce - e))%Z with ce in E1 by lia. subst e'.
  replace (v * bpow (- e) * bpow (- (ce - e))) with (v * bpow (- ce)) in Hin'.
  2:{ rewrite Rmult_assoc, <- bpow_plus. do 2 f_equal. lia. }
  pose proof (round_nearest_even_correct _ _ _ Hin') as Hn.
  set (n := round_nearest_even (shr_m mrs') (loc_of_shr_record mrs')) in *.
  pose proof (inbetween_bounds _ _ _ Hin') as [Lw Uw].
  assert (Hw0 : 0 <= v * bpow (- ce)).
  { apply Rle_trans with (2 := Lw). apply IZR_le. exact Hm'. }
  assert (Hw1 : v * bpow (- ce) <= IZR (2 ^ 53)).
  { rewrite <- bpow_IZR by lia. destruct Hmag as [_ U].
    apply Rle_trans with (bpow k * bpow (- ce)).
    - apply Rmult_le_compat_r; [pose proof (bpow_gt_0 (- ce)); lra|lra].
    - rewrite <- bpow_plus. apply bpow_le. lia. }
  assert (Hn0 : (0 <= n)%Z) by (apply (nearest_even_ge_int _ _ 0 Hn); exact Hw0).
  assert (Hn1 : (n <= 2 ^ 53)%Z) by (apply (nearest_even_le_int _ _ _ Hn); exact Hw1).
  exists n. split; [exact Hn|]. split; [lia|].
  apply round_aux_second_phase; lia.
Qed.

(** ** The order of valid floats, read on the real line *)

Lemma valid_finite m e :
  valid_binary (S754_finite false m e) = true ->
  (Zpos (digits2_pos m) <= 53)%Z /\ (-1074 <= e <= 971)%Z /\
  ((-1074 < e)%Z -> Zpos (digits2_pos m) = 53%Z).
Proof.
  unfold SpecFloat.valid_binary, SpecFloat.bounded, SpecFloat.canonical_mantissa.
  rewrite fexp_eq. change (emax - prec)%Z with 971%Z.
  intros H. apply andb_prop in H. destruct H as [H1 H2].
  apply Z.eqb_eq in H1. apply Z.leb_le in H2. lia.
Qed.

Lemma valid_sign s m e :
  valid_binary (S754_finite s m e) = valid_binary (S754_finite false m e).
Proof. reflexivity. Qed.

Lemma F2R_pos m e : 0 < F2R (Zpos m) e.
Proof.
  unfold F2R. apply Rmult_lt_0_compat; [now apply IZR_lt|apply bpow_gt_0].
Qed.

Lemma F2R_digits_bounds m e :
  bpow (Zpos (digits2_pos m) - 1 + e) <= F2R (Zpos m) e < bpow (Zpos (digits2_pos m) + e).
Proof.
  pose proof (digits2_bpow m) as [L U]. pose proof (bpow_gt_0 e).
  unfold F2R. rewrite !bpow_plus. split.
  - apply Rmult_le_compat_r; lra.
  - apply Rmult_lt_compat_r; lra.
Qed.

Lemma valid_finite_lt_max m e :
  valid_binary (S754_finite false m e) = true -> F2R (Zpos m) e < bpow 1024.
Proof.
  intros H. destruct (valid_finite _ _ H) as (Hd & He & _).
  pose proof (F2R_digits_bounds m e) as [_ U].
  apply Rlt_le_trans with (1 := U). apply bpow_le. lia.
Qed.

(** Two valid positive floats: the exponents decide, then the mantissas. *)
Lemma valid_exponent_lt m1 e1 m2 e2 :
  valid_binary (S754_finite false m1 e1) = true ->
  valid_binary (S754_finite false m2 e2) = true ->
  (e1 < e2)%Z -> F2R (Zpos m1) e1 < F2R (Zpos m2) e2.
Proof.
  intros V1 V2 He.
  destruct (valid_finite _ _ V1) as (Hd1 & He1 & _).
  destruct (valid_finite _ _ V2) as (_ & He2 & Hn2).
  pose proof (F2R_digits_bounds m1 e1) as [_ U1].
  pose proof (F2R_digits_bounds m2 e2) as [L2 _].
  rewrite Hn2 in L2 by lia.
  apply Rlt_le_trans with (1 := U1).
  apply Rle_trans with (2 := L2). apply bpow_le. lia.
Qed.

Lemma F2R_same_exponent m1 m2 e :
  (F2R (Zpos m1) e < F2R (Zpos m2) e <-> (m1 < m2)%positive) /\
  (F2R (Zpos m1) e = F2R (Zpos m2) e <-> m1 = m2).
Proof.
  pose proof (bpow_gt_0 e) as P. unfold F2R. split; split; intros H.
  - apply Rmult_lt_reg_r in H; [|exact P]. apply lt_IZR in H. lia.
  - apply Rmult_lt_compat_r; [exact P|]. apply IZR_lt. lia.
  - apply Rmult_eq_reg_r in H; [|lra]. apply eq_IZR in H. congruence.
  - now subst.
Qed.

Lemma cmp_spec_opp c a b : cmp_spec (Some c) a b -> cmp_spec (Some (CompOpp c)) (- a) (- b).
Proof. destruct c; cbn; lra. Qed.

Lemma compare_finite_pos m1 e1 m2 e2 :
  valid_binary (S754_finite false m1 e1) = true ->
  valid_binary (S754_finite false m2 e2) = true ->
  cmp_spec (Some match (e1 ?= e2)%Z with
                 | Lt => Lt
                 | Gt => Gt
                 | Eq => Pos.compare_cont Eq m1 m2
                 end) (F2R (Zpos m1) e1) (F2R (Zpos m2) e2).
Proof.
  intros V1 V2. destruct (Z.compare_spec e1 e2) as [E|L|G].
  - subst e2. change (Pos.compare_cont Eq m1 m2) with (m1 ?= m2)%positive.
    pose proof (F2R_same_exponent m1 m2 e1) as [A B].
    pose proof (F2R_same_exponent m2 m1 e1) as [A' _].
    destruct (Pos.compare_spec m1 m2) as [E|L|G]; cbn.
    + now subst.
    + now apply A.
    + now apply A'.
  - cbn. now apply valid_exponent_lt.
  - cbn. now apply valid_exponent_lt.
Qed.

Lemma SFcompare_key x y :
  valid_binary x = true -> valid_binary y = true -> not_nan x -> not_nan y ->
  cmp_spec (SFcompare x y) (key x) (key y).
Proof.
  intros Vx Vy Nx Ny. pose proof (bpow_gt_0 1024) as B.
  destruct x as [sx|sx| |sx mx ex]; [| |now elim Nx|];
    destruct y as [sy|sy| |sy my ey]; try (now elim Ny).
  - cbn [SFcompare key cmp_spec]. reflexivity.
  - destruct sy; cbn [SFcompare key cmp_spec]; lra.
  - pose proof (F2R_pos my ey). destruct sy; cbn [SFcompare key cmp_spec]; lra.
  - destruct sx; cbn [SFcompare key cmp_spec]; lra.
  - destruct sx, sy; cbn [SFcompare key cmp_spec]; lra.
  - rewrite valid_sign in Vy. pose proof (valid_finite_lt_max _ _ Vy).
    pose proof (F2R_pos my ey). destruct sx, sy; cbn [SFcompare key cmp_spec]; lra.
  - pose proof (F2R_pos mx ex). destruct sx; cbn [SFcompare key cmp_spec]; lra.
  - rewrite valid_sign in Vx. pose proof (valid_finite_lt_max _ _ Vx).
    pose proof (F2R_pos mx ex). destruct sx, sy; cbn [SFcompare key cmp_spec]; lra.
  - rewrite valid_sign in Vx, Vy.
    pose proof (F2R_pos mx ex). pose proof (F2R_pos my ey).
    pose proof (compare_finite_pos mx ex my ey Vx Vy) as C.
    destruct sx, sy; cbn [SFcompare key]; [|cbn [SFcompare key cmp_spec]; lra|cbn [SFcompare key cmp_spec]; lra|exact C].
    apply cmp_spec_opp in C. destruct (ex ?= ey)%Z; exact C.
Qed.

Lemma SFleb_key x y :
  valid_binary x = true -> valid_binary y = true -> not_nan x -> not_nan y ->
  (SFleb x y = true <-> key x <= key y).
Proof.
  intros Vx Vy Nx Ny. pose proof (SFcompare_key x y Vx Vy Nx Ny) as C.
  unfold SFleb. destruct (SFcompare x y) as [[| |]|]; cbn in C; split; intros H;
    try reflexivity; try discriminate; try lra; contradiction.
Qed.

Lemma SFleb_not_nan x y : SFleb x y = true -> not_nan x /\ not_nan y.
Proof.
  unfold not_nan. destruct x, y; cbn; intros H; split; congruence.
Qed.

(** ** Correct rounding as a relation, and its monotonicity *)

Lemma finalize_props s n ce :
  canonical_pair n ce ->
  valid_binary (finalize s n ce) = true /\
  not_nan (finalize s n ce) /\
  key (finalize s n ce) = signed s (Rmin (IZR n * bpow ce) (bpow 1024)).
Proof.
  intros (Hn & Hce & Hnorm). pose proof (bpow_gt_0 ce) as Pce.
  pose proof (bpow_gt_0 1024) as P1024.
  unfold finalize. destruct n as [|p|p]; [| |lia].
  - repeat split; [discriminate|]. cbn [key]. rewrite Rmult_0_l, Rmin_left by lra.
    destruct s; cbn [signed]; lra.
  - destruct (Z.ltb_spec (Zpos p) (2 ^ 53)) as [Hlt|Hge].
    + destruct (Z.leb_spec ce 971) as [Hle|Hgt].
      * assert (Hd : (Zpos (digits2_pos p) <= 53)%Z) by (apply digits2_le; lia).
        assert (Hd' : (-1074 < ce)%Z -> (Zpos (digits2_pos p) >= 53)%Z)
          by (intros H; apply digits2_ge; apply Hnorm; exact H).
        repeat split; [|discriminate|].
        -- unfold SpecFloat.valid_binary, SpecFloat.bounded, SpecFloat.canonical_mantissa.
           rewrite fexp_eq. change (emax - prec)%Z with 971%Z.
           apply andb_true_intro. split; [apply Z.eqb_eq|apply Z.leb_le]; lia.
        -- cbn [key]. unfold F2R. rewrite Rmin_left; [now destruct s|].
           apply Rlt_le. apply Rlt_le_trans with (bpow 53 * bpow ce).
           ++ apply Rmult_lt_compat_r; [exact Pce|].
              rewrite bpow_IZR by lia. now apply IZR_lt.
           ++ rewrite <- bpow_plus. apply bpow_le. lia.
      * repeat split; [discriminate|]. cbn [key].
        rewrite Rmin_right; [now destruct s|].
        apply Rle_trans with (bpow 52 * bpow ce).
        -- rewrite <- bpow_plus. apply bpow_le. lia.
        -- apply Rmult_le_compat_r; [lra|].
           rewrite bpow_IZR by lia. apply IZR_le. apply Hnorm. lia.
    + assert (E : Zpos p = (2 ^ 53)%Z) by lia. rewrite E.
      destruct (Z.leb_spec (ce + 1) 971) as [Hle|Hgt].
      * repeat split; [|discriminate|].
        -- unfold SpecFloat.valid_binary, SpecFloat.bounded, SpecFloat.canonical_mantissa.
           rewrite fexp_eq. change (emax - prec)%Z with 971%Z.
           change (Zpos (digits2_pos 4503599627370496)) with 53%Z.
           apply andb_true_intro. split; [apply Z.eqb_eq|apply Z.leb_le]; lia.
        -- cbn [key]. unfold F2R. rewrite bpow_succ.
           change (2 ^ 53)%Z with 9007199254740992%Z.
           rewrite Rmin_left.
           ++ destruct s; cbn [signed]; lra.
           ++ change 9007199254740992%Z with (2 ^ 53)%Z.
              rewrite <- bpow_IZR, <- bpow_plus by lia. apply bpow_le. lia.
      * repeat split; [discriminate|]. cbn [key].
        rewrite Rmin_right; [now destruct s|].
        rewrite <- bpow_IZR, <- bpow_plus by lia. apply bpow_le. lia.
Qed.

Lemma scaled_bounds v k ce :
  mag_is v k -> bpow (k - 1 - ce) <= v * bpow (- ce) < bpow (k - ce).
Proof.
  intros [L U]. pose proof (bpow_gt_0 (- ce)) as P.
  unfold Z.sub. rewrite !bpow_plus. split.
  - rewrite <- bpow_plus. apply Rmult_le_compat_r; [lra|exact L].
  - apply Rmult_lt_compat_r; [exact P|exact U].
Qed.

Lemma rounds_to_canonical v k n :
  mag_is v k ->
  nearest_even (v * bpow (- SpecFloat.fexp prec emax k)) n ->
  canonical_pair n (SpecFloat.fexp prec emax k).
Proof.
  intros Hmag Hn. pose proof (scaled_bounds v k (SpecFloat.fexp prec emax k) Hmag) as [L U].
  rewrite fexp_eq in *. set (ce := Z.max (k - 53) (-1074)) in *.
  repeat split.
  - apply (nearest_even_ge_int _ _ 0 Hn).
    pose proof (bpow_gt_0 (k - 1 - ce)). lra.
  - apply (nearest_even_le_int _ _ _ Hn).
    rewrite <- bpow_IZR by lia. apply Rle_trans with (bpow (k - ce)); [lra|].
    apply bpow_le. lia.
  - lia.
  - intros Hc. apply (nearest_even_ge_int _ _ _ Hn).
    rewrite <- bpow_IZR by lia. apply Rle_trans with (2 := L). apply bpow_le. lia.
Qed.

(** The rounded value grows with the value rounded. *)
Lemma rounded_value_mono v1 k1 n1 v2 k2 n2 :
  mag_is v1 k1 -> nearest_even (v1 * bpow (- SpecFloat.fexp prec emax k1)) n1 ->
  mag_is v2 k2 -> nearest_even (v2 * bpow (- SpecFloat.fexp prec emax k2)) n2 ->
  v1 <= v2 ->
  IZR n1 * bpow (SpecFloat.fexp prec emax k1) <= IZR n2 * bpow (SpecFloat.fexp prec emax k2).
Proof.
  intros M1 N1 M2 N2 Hv.
  pose proof (mag_le _ _ _ _ M1 M2 Hv) as Hk.
  pose proof (scaled_bounds v1 k1 (SpecFloat.fexp prec emax k1) M1) as [L1 U1].
  pose proof (scaled_bounds v2 k2 (SpecFloat.fexp prec emax k2) M2) as [L2 U2].
  rewrite !fexp_eq in *.
  set (c1 := Z.max (k1 - 53) (-1074)) in *. set (c2 := Z.max (k2 - 53) (-1074)) in *.
  pose proof (bpow_gt_0 c1) as P1. pose proof (bpow_gt_0 c2) as P2.
  destruct (Z.eq_dec c1 c2) as [E|NE].
  - rewrite E in *. apply Rmult_le_compat_r; [lra|]. apply IZR_le.
    apply (nearest_even_mono _ _ _ _ N1 N2).
    apply Rmult_le_compat_r; [pose proof (bpow_gt_0 (- c2)); lra|exact Hv].
  - assert (Hlt : (c1 < c2)%Z) by lia.
    apply Rle_trans with (bpow k1).
    + destruct (Z_le_gt_dec 0 (k1 - c1)) as [Hp|Hneg].
      * replace (bpow k1) with (bpow (k1 - c1) * bpow c1)
          by (rewrite <- bpow_plus; f_equal; lia).
        apply Rmult_le_compat_r; [lra|].
        rewrite bpow_IZR by lia. apply IZR_le.
        apply (nearest_even_le_int _ _ _ N1). rewrite <- bpow_IZR by lia. lra.
      * assert (Hn1 : (n1 <= 0)%Z).
        { pose proof (nearest_even_bounds _ _ N1) as B.
          assert (Hh : bpow (k1 - c1) <= bpow (Z.opp 1)) by (apply bpow_le; lia).
          rewrite bpow_m1 in Hh.
          assert (Hlt1 : IZR n1 < IZR 1) by lra.
          apply lt_IZR in Hlt1. lia. }
        apply Rle_trans with 0; [|pose proof (bpow_gt_0 k1); lra].
        assert (IZR n1 <= 0) by (now apply IZR_le). nra.
    + apply Rle_trans with (bpow (k2 - 1)); [apply bpow_le; lia|].
      replace (bpow (k2 - 1)) with (bpow 52 * bpow c2)
        by (rewrite <- bpow_plus; f_equal; lia).
      apply Rmult_le_compat_r; [lra|].
      rewrite bpow_IZR by lia. apply IZR_le.
      apply (nearest_even_ge_int _ _ _ N2). rewrite <- bpow_IZR by lia.
      apply Rle_trans with (2 := L2). apply bpow_le. lia.
Qed.

Lemma rounds_to_props v s r :
  rounds_to v s r ->
  valid_binary r = true /\ not_nan r /\
  exists x, 0 <= x /\ key r = signed s (Rmin x (bpow 1024)).
Proof.
  intros (k & n & M & N & ->).
  pose proof (rounds_to_canonical _ _ _ M N) as C.
  destruct (finalize_props s _ _ C) as (V & NN & K).
  repeat split; try assumption.
  exists (IZR n * bpow (SpecFloat.fexp prec emax k)). split; [|exact K].
  destruct C as ((H0 & _) & _). apply Rmult_le_pos; [now apply IZR_le|].
  pose proof (bpow_gt_0 (SpecFloat.fexp prec emax k)). lra.
Qed.

Lemma Rounded_props v r : Rounded v r -> valid_binary r = true /\ not_nan r.
Proof.
  intros [[_ [s ->]]|[[_ H]|[_ H]]].
  - split; [reflexivity|discriminate].
  - destruct (rounds_to_props _ _ _ H) as (V & N & _). auto.
  - destruct (rounds_to_props _ _ _ H) as (V & N & _). auto.
Qed.

Lemma rounds_to_mono v1 v2 s r1 r2 :
  rounds_to v1 s r1 -> rounds_to v2 s r2 -> v1 <= v2 ->
  if s then key r2 <= key r1 else key r1 <= key r2.
Proof.
  intros (k1 & n1 & M1 & N1 & ->) (k2 & n2 & M2 & N2 & ->) Hv.
  destruct (finalize_props s _ _ (rounds_to_canonical _ _ _ M1 N1)) as (_ & _ & ->).
  destruct (finalize_props s _ _ (rounds_to_canonical _ _ _ M2 N2)) as (_ & _ & ->).
  pose proof (rounded_value_mono _ _ _ _ _ _ M1 N1 M2 N2 Hv) as H.
  apply (Rle_min_compat_r _ _ (bpow 1024)) in H.
  destruct s; cbn [signed]; lra.
Qed.

Theorem Rounded_mono v1 v2 r1 r2 :
  Rounded v1 r1 -> Rounded v2 r2 -> v1 <= v2 -> SFleb r1 r2 = true.
Proof.
  intros H1 H2 Hv.
  destruct (Rounded_props _ _ H1) as [V1 N1]. destruct (Rounded_props _ _ H2) as [V2 N2].
  apply SFleb_key; try assumption.
  pose proof (bpow_gt_0 1024) as B.
  assert (Hpos : forall v r, rounds_to v false r -> 0 <= key r).
  { intros v r H. destruct (rounds_to_props _ _ _ H) as (_ & _ & x & Hx & ->).
    cbn [signed]. apply Rmin_glb; lra. }
  assert (Hneg : forall v r, rounds_to v true r -> key r <= 0).
  { intros v r H. destruct (rounds_to_props _ _ _ H) as (_ & _ & x & Hx & ->).
    cbn [signed]. assert (0 <= Rmin x (bpow 1024)) by (apply Rmin_glb; lra). lra. }
  destruct H1 as [[E1 [s1 ->]]|[[P1 R1]|[P1 R1]]];
    destruct H2 as [[E2 [s2 ->]]|[[P2 R2]|[P2 R2]]]; cbn [key]; try lra.
  - now apply (Hpos v2).
  - exact (rounds_to_mono _ _ false _ _ R1 R2 Hv).
  - now apply (Hneg (- v1)).
  - apply Rle_trans with 0; [now apply (Hneg (- v1))|now apply (Hpos v2)].
  - exact (rounds_to_mono _ _ true _ _ R2 R1 ltac:(lra)).
Qed.

(** A valid float is the rounding of its own value. *)
Lemma F2R_scaled m e : F2R m e * bpow (- e) = IZR m.
Proof.
  unfold F2R. rewrite Rmult_assoc, <- bpow_plus.
  replace (e + - e)%Z with 0%Z by lia. rewrite bpow_0. ring.
Qed.

Lemma valid_rounds_to s m e :
  valid_binary (S754_finite s m e) = true ->
  rounds_to (F2R (Zpos m) e) s (S754_finite s m e).
Proof.
  intros V. rewrite valid_sign in V. destruct (valid_finite _ _ V) as (Hd & He & Hn).
  assert (Hmag : mag_is (F2R (Zpos m) e) (Zpos (digits2_pos m) + e)).
  { apply (inbetween_mag m loc_Exact). cbn [inbetween_int]. apply F2R_scaled. }
  assert (Hce : SpecFloat.fexp prec emax (Zpos (digits2_pos m) + e) = e).
  { rewrite fexp_eq. destruct (Z.eq_dec e (-1074)); [lia|]. rewrite Hn by lia. lia. }
  exists (Zpos (digits2_pos m) + e)%Z, (Zpos m). rewrite Hce.
  split; [exact Hmag|]. split.
  - rewrite F2R_scaled. apply nearest_even_exact.
  - unfold finalize.
    pose proof (digits2_bounds m) as [_ U].
    assert (Zpos m < 2 ^ 53)%Z.
    { apply Z.lt_le_trans with (1 := U). apply Z.pow_le_mono_r; lia. }
    destruct (Z.ltb_spec (Zpos m) (2 ^ 53)); [|lia].
    destruct (Z.leb_spec e 971); [reflexivity|lia].
Qed.

Lemma valid_Rounded x :
  valid_binary x = true ->
  match x with S754_zero _ | S754_finite _ _ _ => Rounded (key x) x | _ => True end.
Proof.
  intros V. destruct x as [s|s| |s m e]; try exact I.
  - left. split; [reflexivity|eauto].
  - pose proof (F2R_pos m e) as Hp. pose proof (valid_rounds_to s m e V) as H.
    destruct s; cbn [key].
    + right. right. split; [lra|]. now rewrite Ropp_involutive.
    + right. left. split; [lra|exact H].
Qed.

(** ** The operations round correctly *)

Lemma iter_xO mx d : Zpos (Pos.iter xO mx d) = (Zpos mx * 2 ^ Zpos d)%Z.
Proof.
  induction d as [|d IH] using Pos.peano_ind.
  - cbn [Pos.iter]. lia.
  - rewrite Pos.iter_succ, Pos2Z.inj_xO, IH, Pos2Z.inj_succ, Z.pow_succ_r by lia. lia.
Qed.

Lemma shl_align_correct mx ex ex' :
  F2R (Zpos (fst (shl_align mx ex ex'))) (snd (shl_align mx ex ex')) = F2R (Zpos mx) ex /\
  (snd (shl_align mx ex ex') <= ex')%Z /\
  ((ex' <= ex)%Z -> snd (shl_align mx ex ex') = ex').
Proof.
  unfold shl_align. destruct (ex' - ex)%Z as [|d|d] eqn:E; cbn [fst snd].
  - repeat split; lia.
  - repeat split; lia.
  - repeat split; try lia. unfold F2R. rewrite iter_xO, mult_IZR, <- bpow_IZR by lia.
    rewrite Rmult_assoc, <- bpow_plus. do 2 f_equal. lia.
Qed.

Lemma binary_round_rounds s mx ex :
  rounds_to (F2R (Zpos mx) ex) s (binary_round prec emax s mx ex).
Proof.
  unfold binary_round.
  pose proof (shl_align_correct mx ex (SpecFloat.fexp prec emax (Zpos (digits2_pos mx) + ex)))
    as (Hv & He & _).
  destruct (shl_align mx ex (SpecFloat.fexp prec emax (Zpos (digits2_pos mx) + ex)))
    as [mz ez]. cbn [fst snd] in *.
  assert (Hmag : mag_is (F2R (Zpos mx) ex) (Zpos (digits2_pos mx) + ex)).
  { apply (inbetween_mag mx loc_Exact). cbn [inbetween_int]. apply F2R_scaled. }
  destruct (binary_round_aux_correct s (Zpos mz) ez loc_Exact (F2R (Zpos mx) ex)
              (Zpos (digits2_pos mx) + ex)) as (n & Hn & _ & E); try assumption; [lia| |].
  - cbn [inbetween_int]. rewrite <- Hv. apply F2R_scaled.
  - exists (Zpos (digits2_pos mx) + ex)%Z, n. auto.
Qed.

Lemma F2R_opp m e : F2R (- m) e = - F2R m e.
Proof. unfold F2R. rewrite opp_IZR. ring. Qed.

Lemma binary_normalize_Rounded m e sz :
  Rounded (F2R m e) (binary_normalize prec emax m e sz).
Proof.
  destruct m as [|p|p]; cbn [binary_normalize].
  - left. split; [unfold F2R; ring|eauto].
  - right. left. split; [apply F2R_pos|apply binary_round_rounds].
  - right. right. change (Zneg p) with (- Zpos p)%Z. rewrite F2R_opp.
    pose proof (F2R_pos p e). split; [lra|].
    rewrite Ropp_involutive. apply binary_round_rounds.
Qed.

Lemma ratio_bounds (r b : Z) :
  (0 < b)%Z ->
  let t := IZR r / IZR b in
  ((0 < r)%Z -> 0 < t) /\ ((r < b)%Z -> t < 1) /\
  ((2 * r < b)%Z -> t < / 2) /\ ((2 * r = b)%Z -> t = / 2) /\ ((b < 2 * r)%Z -> / 2 < t).
Proof.
  intros Hb t. assert (Pb : 0 < IZR b) by now apply IZR_lt.
  assert (Et : t * IZR b = IZR r) by (unfold t; field; lra).
  repeat split; intros H.
  - apply IZR_lt in H. apply Rmult_lt_reg_r with (IZR b); [exact Pb|]. lra.
  - apply IZR_lt in H. apply Rmult_lt_reg_r with (IZR b); [exact Pb|]. lra.
  - apply IZR_lt in H. rewrite mult_IZR in H.
    apply Rmult_lt_reg_r with (IZR b); [exact Pb|]. lra.
  - apply (f_equal IZR) in H. rewrite mult_IZR in H.
    apply Rmult_eq_reg_r with (IZR b); [|lra]. lra.
  - apply IZR_lt in H. rewrite mult_IZR in H.
    apply Rmult_lt_reg_r with (IZR b); [exact Pb|]. lra.
Qed.

Lemma new_location_correct (b r q : Z) (w : R) :
  (0 < b)%Z -> (0 <= r < b)%Z -> w = IZR q + IZR r / IZR b ->
  inbetween_int q (new_location b r) w.
Proof.
  intros Hb Hr ->. destruct (ratio_bounds r b Hb) as (T0 & T1 & TL & TE & TG).
  assert (Z0 : r = 0%Z -> IZR q + IZR r / IZR b = IZR q)
    by (intros E; rewrite E; unfold Rdiv; ring).
  unfold new_location.
  destruct (Z.even b) eqn:Ev; unfold new_location_even, new_location_odd;
    (destruct (Z.eqb_spec r 0) as [E0|Hr0]; [cbn [inbetween_int]; now apply Z0|]);
    specialize (T0 ltac:(lia)); specialize (T1 ltac:(lia)).
  - destruct (Z.compare_spec (2 * r) b) as [E|L|G]; cbn [inbetween_int].
    + rewrite (TE E). reflexivity.
    + specialize (TL L). lra.
    + specialize (TG G). lra.
  - assert (Ho : Z.Odd b) by (apply Z.odd_spec; rewrite <- Z.negb_even, Ev; reflexivity).
    destruct Ho as [k Hk].
    destruct (Z.compare_spec (2 * r + 1) b) as [E|L|G]; cbn [inbetween_int].
    + specialize (TL ltac:(lia)). lra.
    + specialize (TL ltac:(lia)). lra.
    + specialize (TG ltac:(lia)). lra.
Qed.

Lemma div_core_correct mx ex my ey :
  let v := F2R (Zpos mx) ex / F2R (Zpos my) ey in
  let q := fst (fst (SFdiv_core_binary prec emax (Zpos mx) ex (Zpos my) ey)) in
  let e' := snd (fst (SFdiv_core_binary prec emax (Zpos mx) ex (Zpos my) ey)) in
  let l := snd (SFdiv_core_binary prec emax (Zpos mx) ex (Zpos my) ey) in
  (0 <= q)%Z /\ inbetween_int q l (v * bpow (- e')) /\
  exists k, mag_is v k /\ (e' <= SpecFloat.fexp prec emax k)%Z.
Proof.
  intros v. unfold SFdiv_core_binary. cbn [Zdigits2].
  set (d1 := Zpos (digits2_pos mx)). set (d2 := Zpos (digits2_pos my)).
  set (e' := Z.min (SpecFloat.fexp prec emax (d1 + ex - (d2 + ey))) (ex - ey)).
  set (s := (ex - ey - e')%Z).
  assert (Hs : (0 <= s)%Z) by (unfold s, e'; lia).
  set (m' := match s with
             | 0%Z => Zpos mx
             | Zpos _ => Z.shiftl (Zpos mx) s
             | Zneg _ => 0%Z
             end).
  assert (Hm' : m' = (Zpos mx * 2 ^ s)%Z).
  { unfold m'. destruct s as [|p|p]; [lia| |lia]. now rewrite Z.shiftl_mul_pow2 by lia. }
  pose proof (Z_div_mod m' (Zpos my) ltac:(lia)) as Hdiv.
  destruct (Z.div_eucl m' (Zpos my)) as [q r]. cbn [fst snd].
  destruct Hdiv as [Hq Hr].
  assert (P2 : (0 < 2 ^ s)%Z) by (apply Z.pow_pos_nonneg; lia).
  assert (Hq0 : (0 <= q)%Z) by nia.
  pose proof (F2R_pos mx ex) as PX. pose proof (F2R_pos my ey) as PY.
  assert (PIy : 0 < IZR (Zpos my)) by now apply IZR_lt.
  split; [exact Hq0|]. split.
  - apply new_location_correct; [lia|lia|].
    assert (Ew : v * bpow (- e') = IZR m' / IZR (Zpos my)).
    { unfold v, F2R. rewrite Hm', mult_IZR, <- bpow_IZR by lia.
      replace (bpow s) with (bpow ex * / bpow ey * bpow (- e')).
      - pose proof (bpow_gt_0 ey). field; repeat split; lra.
      - rewrite <- bpow_opp, <- !bpow_plus. f_equal; unfold s; lia. }
    rewrite Ew, Hq, plus_IZR, mult_IZR. field. lra.
  - set (D := (d1 + ex - (d2 + ey))%Z).
    pose proof (F2R_digits_bounds mx ex) as [LX UX].
    pose proof (F2R_digits_bounds my ey) as [LY UY].
    fold d1 in LX, UX. fold d2 in LY, UY.
    assert (Ev : v * F2R (Zpos my) ey = F2R (Zpos mx) ex) by (unfold v; field; lra).
    assert (Hlo : bpow (D - 1) < v).
    { apply Rmult_lt_reg_r with (F2R (Zpos my) ey); [exact PY|]. rewrite Ev.
      apply Rlt_le_trans with (bpow (D - 1) * bpow (d2 + ey)).
      - apply Rmult_lt_compat_l; [apply bpow_gt_0|exact UY].
      - rewrite <- bpow_plus. apply Rle_trans with (2 := LX). apply bpow_le. unfold D. lia. }
    assert (Hhi : v < bpow (D + 1)).
    { apply Rmult_lt_reg_r with (F2R (Zpos my) ey); [exact PY|]. rewrite Ev.
      apply Rlt_le_trans with (1 := UX).
      apply Rle_trans with (bpow (D + 1) * bpow (d2 - 1 + ey)).
      - rewrite <- bpow_plus. apply bpow_le. unfold D. lia.
      - apply Rmult_le_compat_l; [pose proof (bpow_gt_0 (D + 1)); lra|exact LY]. }
    destruct (Rlt_dec v (bpow D)) as [Hlt|Hge].
    + exists D. split; [split; lra|]. unfold e'. fold D. lia.
    + exists (D + 1)%Z. split.
      * unfold mag_is. replace (D + 1 - 1)%Z with D by lia. split; lra.
      * unfold e'. fold D. rewrite !fexp_eq. lia.
Qed.

Lemma SFdiv_Rounded x mc ec :
  finite_or_zero x ->
  Rounded (key x / F2R (Zpos mc) ec) (SFdiv prec emax x (S754_finite false mc ec)).
Proof.
  intros Hx. pose proof (F2R_pos mc ec) as PC.
  destruct x as [s|s| |s m e]; try contradiction.
  - left. split; [cbn [key]; unfold Rdiv; ring|cbn; eauto].
  - cbn [SFdiv]. rewrite xorb_false_r.
    pose proof (div_core_correct m e mc ec) as H. cbv zeta in H.
    destruct (SFdiv_core_binary prec emax (Zpos m) e (Zpos mc) ec) as [[q e'] l].
    cbn [fst snd] in H. destruct H as (Hq & Hin & k & Hmag & He).
    destruct (binary_round_aux_correct s q e' l _ k Hq Hin Hmag He) as (n & Hn & _ & E).
    assert (R : rounds_to (F2R (Zpos m) e / F2R (Zpos mc) ec) s
                  (binary_round_aux prec emax s q e' l)) by (exists k, n; auto).
    pose proof (mag_is_pos _ _ Hmag) as Pv.
    destruct s; cbn [key].
    + right. right.
      replace (- F2R (Zpos m) e / F2R (Zpos mc) ec)
        with (- (F2R (Zpos m) e / F2R (Zpos mc) ec)) by (field; lra).
      split; [lra|]. now rewrite Ropp_involutive.
    + right. left. split; assumption.
Qed.

Lemma F2R_minus a b e : F2R (a - b) e = F2R a e - F2R b e.
Proof. unfold F2R. rewrite minus_IZR. ring. Qed.

Lemma F2R_cond_Zopp s m e : F2R (cond_Zopp s m) e = signed s (F2R m e).
Proof. destruct s; cbn [cond_Zopp signed]; [apply F2R_opp|reflexivity]. Qed.

Lemma key_finite s m e : key (S754_finite s m e) = signed s (F2R (Zpos m) e).
Proof. now destruct s. Qed.

Lemma shl_align_min m e ez :
  (ez <= e)%Z -> F2R (Zpos (fst (shl_align m e ez))) ez = F2R (Zpos m) e.
Proof.
  intros H. destruct (shl_align_correct m e ez) as (Hv & _ & Hs).
  rewrite <- Hv. now rewrite Hs.
Qed.

Lemma SFsub_Rounded a d :
  valid_binary a = true -> valid_binary d = true ->
  finite_or_zero a -> finite_or_zero d ->
  Rounded (key a - key d) (SFsub prec emax a d).
Proof.
  intros Va Vd Ha Hd.
  destruct a as [sa|sa| |sa ma ea]; try contradiction;
    destruct d as [sd|sd| |sd md ed]; try contradiction.
  - left. split; [cbn [key]; ring|]. destruct sa, sd; cbn; eauto.
  - cbn [SFsub]. pose proof (valid_Rounded (S754_finite (negb sd) md ed) Vd) as H.
    cbv beta iota in H. rewrite !key_finite in *.
    replace (key (S754_zero sa) - signed sd (F2R (Zpos md) ed))
      with (signed (negb sd) (F2R (Zpos md) ed)); [exact H|].
    destruct sd; cbn [key signed negb]; ring.
  - cbn [SFsub]. pose proof (valid_Rounded _ Va) as H. cbv beta iota in H.
    replace (key (S754_finite sa ma ea) - key (S754_zero sd))
      with (key (S754_finite sa ma ea)) by (cbn [key]; ring).
    exact H.
  - cbn [SFsub]. rewrite !key_finite.
    rewrite <- (shl_align_min ma ea (Z.min ea ed)) by lia.
    rewrite <- (shl_align_min md ed (Z.min ea ed)) by lia.
    rewrite <- !F2R_cond_Zopp, <- F2R_minus.
    apply binary_normalize_Rounded.
Qed.

(** ** Monotonicity of an operation that rounds a growing function *)

Lemma rounds_to_key_bounds v s r :
  rounds_to v s r -> - bpow 1024 <= key r <= bpow 1024.
Proof.
  intros H. destruct (rounds_to_props _ _ _ H) as (_ & _ & x & Hx & ->).
  pose proof (bpow_gt_0 1024) as B.
  pose proof (Rmin_r x (bpow 1024)).
  assert (0 <= Rmin x (bpow 1024)) by (apply Rmin_glb; lra).
  destruct s; cbn [signed]; lra.
Qed.

Lemma Rounded_key_bounds v r : Rounded v r -> - bpow 1024 <= key r <= bpow 1024.
Proof.
  pose proof (bpow_gt_0 1024) as B.
  intros [[_ [s ->]]|[[_ H]|[_ H]]]; [cbn [key]; lra| |];
    now apply rounds_to_key_bounds in H.
Qed.

Lemma Rounded_key_mono v1 v2 r1 r2 :
  Rounded v1 r1 -> Rounded v2 r2 -> v1 <= v2 -> key r1 <= key r2.
Proof.
  intros H1 H2 Hv.
  destruct (Rounded_props _ _ H1) as [V1 N1]. destruct (Rounded_props _ _ H2) as [V2 N2].
  apply SFleb_key; try assumption. now apply (Rounded_mono v1 v2).
Qed.

Lemma key_lt_max x :
  valid_binary x = true -> finite_or_zero x -> - bpow 1024 < key x < bpow 1024.
Proof.
  intros V F. pose proof (bpow_gt_0 1024) as B.
  destruct x as [s|s| |s m e]; try contradiction; cbn [key]; [lra|].
  rewrite valid_sign in V. pose proof (valid_finite_lt_max _ _ V).
  pose proof (F2R_pos m e). destruct s; lra.
Qed.

Section Monotone.

Variable f : spec_float -> spec_float.
Variable g : R -> R.

Hypothesis f_infinity : forall s, f (S754_infinity s) = S754_infinity s.
Hypothesis f_rounds :
  forall x, valid_binary x = true -> finite_or_zero x -> Rounded (g (key x)) (f x).
Hypothesis g_mono : forall a b, a <= b -> g a <= g b.

Lemma f_result x :
  valid_binary x = true -> not_nan x ->
  valid_binary (f x) = true /\ not_nan (f x) /\ - bpow 1024 <= key (f x) <= bpow 1024.
Proof.
  intros V N. pose proof (bpow_gt_0 1024) as B.
  destruct x as [s|s| |s m e]; [| |now elim N|].
  - pose proof (f_rounds _ V I) as H. destruct (Rounded_props _ _ H).
    pose proof (Rounded_key_bounds _ _ H). auto.
  - rewrite f_infinity. repeat split; try discriminate; destruct s; cbn [key]; lra.
  - pose proof (f_rounds _ V I) as H. destruct (Rounded_props _ _ H).
    pose proof (Rounded_key_bounds _ _ H). auto.
Qed.

Theorem rounded_op_mono x y :
  valid_binary x = true -> valid_binary y = true ->
  SFleb x y = true -> SFleb (f x) (f y) = true.
Proof.
  intros Vx Vy H. destruct (SFleb_not_nan _ _ H) as [Nx Ny].
  pose proof (proj1 (SFleb_key x y Vx Vy Nx Ny) H) as K.
  destruct (f_result x Vx Nx) as (Vfx & Nfx & Bx).
  destruct (f_result y Vy Ny) as (Vfy & Nfy & By).
  apply SFleb_key; try assumption.
  pose proof (bpow_gt_0 1024) as B.
  assert (Fin : forall z, valid_binary z = true -> not_nan z ->
                          finite_or_zero z \/ exists s, z = S754_infinity s).
  { intros [s|s| |s m e] _ N; [left; exact I|right; eauto|now elim N|left; exact I]. }
  destruct (Fin x Vx Nx) as [Fx|[sx ->]]; destruct (Fin y Vy Ny) as [Fy|[sy ->]].
  - apply (Rounded_key_mono (g (key x)) (g (key y))); auto.
  - pose proof (key_lt_max x Vx Fx). rewrite f_infinity in *.
    destruct sy; cbn [key] in *; lra.
  - pose proof (key_lt_max y Vy Fy). rewrite f_infinity in *.
    destruct sx; cbn [key] in *; lra.
  - rewrite !f_infinity. exact K.
Qed.

End Monotone.

Theorem SFdiv_mono mc ec x y :
  valid_binary x = true -> valid_binary y = true ->
  SFleb x y = true ->
  SFleb (SFdiv prec emax x (S754_finite false mc ec))
        (SFdiv prec emax y (S754_finite false mc ec)) = true.
Proof.
  apply (rounded_op_mono (fun x => SFdiv prec emax x (S754_finite false mc ec))
           (fun v => v / F2R (Zpos mc) ec)).
  - intros s. cbn [SFdiv]. now rewrite xorb_false_r.
  - intros z _ F. now apply SFdiv_Rounded.
  - intros a b H. pose proof (F2R_pos mc ec) as P.
    unfold Rdiv. apply Rmult_le_compat_r; [|exact H].
    apply Rlt_le. now apply Rinv_0_lt_compat.
Qed.

Theorem SFsub_mono d x y :
  valid_binary d = true -> finite_or_zero d ->
  valid_binary x = true -> valid_binary y = true ->
  SFleb x y = true ->
  SFleb (SFsub prec emax x d) (SFsub prec emax y d) = true.
Proof.
  intros Vd Fd.
  apply (rounded_op_mono (fun x => SFsub prec emax x d) (fun v => v - key d)).
  - intros s. destruct d; try contradiction; reflexivity.
  - intros z V F. now apply SFsub_Rounded.
  - intros a b H. lra.
Qed.

(** ** The same on primitive floats *)

Local Open Scope float_scope.

Lemma is_finite_finite x : is_finite x = true -> finite x.
Proof.
  unfold is_finite, finite, Prim2SF. intros H.
  apply negb_true_iff, orb_false_iff in H. destruct H as [Hn Hi].
  rewrite Hn, Hi. destruct (is_zero x); [exact I|].
  destruct (Z.frexp x) as [r e].
  destruct (shr_fexp prec emax _ _ _) as [mrs e'].
  now destruct (shr_m mrs).
Qed.

Theorem div_mono (c x y : float) mc ec :
  Prim2SF c = S754_finite false mc ec ->
  (x <=? y) = true -> (x / c <=? y / c) = true.
Proof.
  intros Hc. rewrite !leb_spec, !div_spec. unfold SF64div. rewrite Hc.
  apply SFdiv_mono; apply Prim2SF_valid.
Qed.

Theorem sub_mono (d x y : float) :
  finite d -> (x <=? y) = true -> (x - d <=? y - d) = true.
Proof.
  intros Fd. rewrite !leb_spec, !sub_spec. unfold SF64sub.
  apply SFsub_mono; try apply Prim2SF_valid. exact Fd.
Qed.

Lemma SFsub_diag x :
  finite_or_zero x -> SFsub prec emax x x = S754_zero false.
Proof.
  destruct x as [s|s| |s m e]; try contradiction; intros _.
  - now destruct s.
  - cbn [SFsub]. now rewrite Z.sub_diag.
Qed.

Theorem sub_diag (x : float) : finite x -> x - x = 0.
Proof.
  intros F. apply Prim2SF_inj. rewrite sub_spec. unfold SF64sub.
  now rewrite (SFsub_diag _ F).
Qed.

Lemma SFleb_between lo r hi :
  finite_or_zero lo -> finite_or_zero hi ->
  SFleb lo r = true -> SFleb r hi = true -> finite_or_zero r.
Proof.
  intros Flo Fhi H1 H2.
  destruct r as [s|s| |s m e]; try exact I.
  - destruct s.
    + destruct lo; try contradiction; discriminate.
    + destruct hi; try contradiction; discriminate.
  - destruct hi; discriminate.
Qed.

Lemma finite_is_finite x : finite x -> is_finite x = true.
Proof.
  unfold finite, is_finite, is_nan, is_infinity. intros F.
  rewrite !eqb_spec, abs_spec.
  change (Prim2SF infinity) with (S754_infinity false).
  destruct (Prim2SF x) as [s|s| |s m e]; try contradiction.
  - reflexivity.
  - unfold SFeqb. cbn [SFabs SFcompare].
    rewrite Z.compare_refl.
    change (Pos.compare_cont Eq m m) with (m ?= m)%positive.
    rewrite Pos.compare_refl. now destruct s.
Qed.

Lemma finite_le_max_SF x :
  valid_binary x = true -> finite_or_zero x ->
  SFleb x (Prim2SF max_float) = true /\ SFleb (Prim2SF (- max_float)) x = true.
Proof.
  intros V F.
  change (Prim2SF max_float) with (S754_finite false 9007199254740991 971).
  change (Prim2SF (- max_float)) with (S754_finite true 9007199254740991 971).
  assert (Hb : forall m e, valid_binary (S754_finite false m e) = true ->
                 (F2R (Zpos m) e <= F2R 9007199254740991 971)%R).
  { intros m e Vm. destruct (valid_finite _ _ Vm) as (Hd & He & _).
    pose proof (digits2_bounds m) as [_ U].
    assert (Zpos m < 2 ^ 53)%Z.
    { apply Z.lt_le_trans with (1 := U). apply Z.pow_le_mono_r; lia. }
    unfold F2R. apply Rmult_le_compat.
    - apply IZR_le. lia.
    - pose proof (bpow_gt_0 e). lra.
    - apply IZR_le. lia.
    - apply bpow_le. lia. }
  pose proof (F2R_pos 9007199254740991 971) as PM.
  assert (Nx : not_nan x) by (destruct x; try contradiction; discriminate).
  split; apply SFleb_key; try assumption; try reflexivity; try discriminate.
  - destruct x as [s|s| |s m e]; try contradiction; cbn [key]; [lra|].
    rewrite valid_sign in V. specialize (Hb _ _ V). pose proof (F2R_pos m e).
    destruct s; lra.
  - destruct x as [s|s| |s m e]; try contradiction; cbn [key]; [lra|].
    rewrite valid_sign in V. specialize (Hb _ _ V). pose proof (F2R_pos m e).
    destruct s; lra.
Qed.

(** Dividing a finite double by a positive one whose quotients with the
    largest doubles are finite gives a finite double. *)
Theorem div_finite (c x : float) mc ec :
  Prim2SF c = S754_finite false mc ec ->
  finite (max_float / c) -> finite (- max_float / c) ->
  finite x -> finite (x / c).
Proof.
  intros Hc Fhi Flo Fx.
  destruct (finite_le_max_SF (Prim2SF x) (Prim2SF_valid x) Fx) as [Hle Hge].
  rewrite <- leb_spec in Hle, Hge.
  apply (div_mono c _ _ mc ec Hc) in Hle. apply (div_mono c _ _ mc ec Hc) in Hge.
  rewrite leb_spec in Hle, Hge.
  exact (SFleb_between _ _ _ Flo Fhi Hge Hle).
Qed.

(** An integer of at most 64 bits converts to a finite double. *)
Theorem float_of_int_finite (z : Z) :
  (- 2 ^ 63 <= z <= 2 ^ 63)%Z ->
  finite (Np.float_of_int z).
Proof.
  intros Hz. unfold finite, Np.float_of_int.
  pose proof (binary_normalize_Rounded z 0 false) as R.
  destruct (Rounded_props _ _ R) as [V _].
  rewrite Prim2SF_SF2Prim by exact V.
  pose proof (binary_normalize_Rounded (2 ^ 63) 0 false) as Rhi.
  pose proof (binary_normalize_Rounded (- 2 ^ 63) 0 false) as Rlo.
  assert (Hhi : (F2R z 0 <= F2R (2 ^ 63) 0)%R).
  { unfold F2R. rewrite bpow_0, !Rmult_1_r. apply IZR_le. lia. }
  assert (Hlo : (F2R (- 2 ^ 63) 0 <= F2R z 0)%R).
  { unfold F2R. rewrite bpow_0, !Rmult_1_r. apply IZR_le. lia. }
  pose proof (Rounded_mono _ _ _ _ R Rhi Hhi) as Lhi.
  pose proof (Rounded_mono _ _ _ _ Rlo R Hlo) as Llo.
  apply (SFleb_between (binary_normalize prec emax (- 2 ^ 63) 0 false) _
           (binary_normalize prec emax (2 ^ 63) 0 false)); try assumption;
    vm_compute; exact I.
Qed.

End Ieee.

(** * The sample instance satisfies the laws of [Externals] *)

Lemma zi_tail_length a b b0 zi0 asum csum :
  List.length (Sample.zi_tail a b b0 zi0 asum csum) = Nat.min (List.length a) (List.length b).
Proof.
  revert b asum csum.
  induction a as [|ak a IH]; intros [|bk b] asum csum; cbn; auto.
Qed.

Lemma pad_length n c : (List.length c <= n)%nat -> List.length (Signal.pad n c) = n.
Proof.
  intros H. unfold Signal.pad. rewrite length_app, repeat_length. lia.
Qed.

Lemma sample_lfilter_zi_length b a :
  List.length (Sample.lfilter_zi b a) = (Nat.max (List.length a) (List.length b) - 1)%nat.
Proof.
  unfold Sample.lfilter_zi.
  set (n := Nat.max (List.length a) (List.length b)).
  assert (Ha : List.length (Signal.pad n a) = n) by (apply pad_length; lia).
  assert (Hb : List.length (Signal.pad n b) = n) by (apply pad_length; lia).
  destruct (Signal.pad n a) as [|a0 [|a1 a']];
    destruct (Signal.pad n b) as [|b0 [|b1 b']];
    cbn [List.length] in Ha, Hb; cbv zeta; cbn [List.length]; try lia.
  rewrite zi_tail_length.
  assert (Hr : forall l : list float, l <> [] ->
            List.length (removelast l) = (List.length l - 1)%nat).
  { intros l Hl. destruct (exists_last Hl) as [l' [x ->]].
    rewrite removelast_last, length_app. cbn. lia. }
  rewrite !Hr by discriminate. cbn [map List.length]. rewrite !length_map. lia.
Qed.

Lemma sample_butter_length N Wn bt :
  List.length (fst (Sample.butter N Wn bt)) = S N /\
  List.length (snd (Sample.butter N Wn bt)) = S N.
Proof.
  unfold Sample.butter.
  destruct N as [|[|[|[|N]]]], bt;
    repeat match goal with |- context [if ?c then _ else _] => destruct c end;
    cbn [fst snd List.length]; rewrite ?repeat_length; auto.
Qed.

Lemma sample_butter_monic N Wn bt :
  hd_error (snd (Sample.butter N Wn bt)) = Some 1%float.
Proof.
  unfold Sample.butter.
  destruct N as [|[|[|[|N]]]], bt;
    repeat match goal with |- context [if ?c then _ else _] => destruct c end;
    reflexivity.
Qed.

#[export] Instance sample : Externals := {|
  float_of_str := Sample.float_of_str;
  mean := Sample.mean;
  butter := Sample.butter;
  lfilter_zi := Sample.lfilter_zi;
  butter_length := sample_butter_length;
  butter_monic := sample_butter_monic;
  lfilter_zi_length := sample_lfilter_zi_length
|}.

(** * Properties of the reader and of the report *)

(** ** The loop of the binary reader, unfolded *)

Lemma read_records_clause (file_in : list byte) (values : list (list number))
  (p : list byte * list byte)
  (e : read (Struct.calcsize_q_f (value_count - 1)) file_in = p) :
  read_records_unfold_clause_1 file_in (exist _ p e) values =
  match fst p with
  | [] => Ok values
  | value_bytes =>
      match Struct.unpack_q_f 10 value_bytes with
      | Raise e => Raise e
      | Ok numbers => read_records (snd p) (append values numbers)
      end
  end.
Proof.
  destruct p as [[|b l] rest]; [reflexivity|].
  cbn [read_records_unfold_clause_1 fst snd].
  change (value_count - 1)%nat with 10%nat.
  destruct (Struct.unpack_q_f 10 (b :: l)); reflexivity.
Qed.

Lemma read_records_step (file_in : list byte) (values : list (list number)) :
  read_records file_in values =
  match firstn 48 file_in with
  | [] => Ok values
  | value_bytes =>
      match Struct.unpack_q_f 10 value_bytes with
      | Raise e => Raise e
      | Ok numbers => read_records (skipn 48 file_in) (append values numbers)
      end
  end.
Proof.
  rewrite read_records_equation_1. unfold inspect.
  rewrite read_records_clause. reflexivity.
Qed.

(** ** The binary reader: how many records it stores *)

Lemma append_length values numbers :
  List.length (append values numbers) = List.length values.
Proof.
  revert numbers. induction values as [|v values IH]; intros [|x numbers]; cbn; auto.
Qed.

Lemma append_grows values numbers k :
  (List.length values <= List.length numbers)%nat ->
  Forall (fun ch : list number => List.length ch = k) values ->
  Forall (fun ch : list number => List.length ch = S k) (append values numbers).
Proof.
  revert numbers.
  induction values as [|v values IH]; intros [|x numbers] Hlen Hall; cbn in *;
    try constructor; try lia.
  - inversion Hall; subst. rewrite length_app. cbn. lia.
  - inversion Hall; subst. apply IH; [lia|assumption].
Qed.

Lemma floats_length n bs : List.length (Struct.floats n bs) = n.
Proof.
  revert bs. induction n as [|n IH]; intros bs; cbn; auto.
Qed.

Lemma unpack_q_f_ok n buffer :
  List.length buffer = Struct.calcsize_q_f n ->
  exists numbers, Struct.unpack_q_f n buffer = Ok numbers /\ List.length numbers = S n.
Proof.
  intros H. unfold Struct.unpack_q_f. rewrite H, Nat.eqb_refl.
  eexists. split; [reflexivity|]. cbn. now rewrite floats_length.
Qed.

Lemma unpack_q_f_short n buffer :
  List.length buffer <> Struct.calcsize_q_f n ->
  Struct.unpack_q_f n buffer = Raise (StructError (Struct.calcsize_q_f n)).
Proof.
  intros H. unfold Struct.unpack_q_f.
  destruct (Nat.eqb_spec (List.length buffer) (Struct.calcsize_q_f n)); [contradiction|reflexivity].
Qed.

Lemma read_records_count n :
  forall file_in values k,
    List.length file_in = n ->
    List.length values = value_count ->
    Forall (fun ch : list number => List.length ch = k) values ->
    if (n mod 48 =? 0)%nat
    then exists vals,
        read_records file_in values = Ok vals /\
        List.length vals = value_count /\
        Forall (fun ch : list number => List.length ch = (k + n / 48)%nat) vals
    else read_records file_in values = Raise (StructError 48).
Proof.
  induction n as [n IH] using lt_wf_ind. intros file_in values k Hn Hv Hall.
  rewrite read_records_step.
  destruct (Nat.eq_dec n 0) as [->|Hpos].
  - destruct file_in; [|discriminate]. cbn.
    exists values. repeat split; auto. now rewrite Nat.add_0_r.
  - assert (Hf : List.length (firstn 48 file_in) = Nat.min 48 n)
      by (rewrite length_firstn; lia).
    destruct (firstn 48 file_in) as [|b l] eqn:E; [cbn [List.length] in Hf; lia|].
    destruct (Nat.lt_ge_cases n 48) as [Hlt|Hge].
    + rewrite Nat.min_r in Hf by lia.
      rewrite unpack_q_f_short by (rewrite Hf; unfold Struct.calcsize_q_f; lia).
      rewrite Nat.mod_small by lia.
      destruct (Nat.eqb_spec n 0); [lia|reflexivity].
    + rewrite Nat.min_l in Hf by lia.
      destruct (unpack_q_f_ok 10 (b :: l)) as [numbers [-> Hnum]]; [exact Hf|].
      specialize (IH (n - 48)%nat ltac:(lia) (skipn 48 file_in) (append values numbers) (S k)).
      assert (Hmod : ((n - 48) mod 48 = n mod 48)%nat).
      { replace n with ((n - 48) + 1 * 48)%nat at 2 by lia.
        now rewrite Nat.Div0.mod_add. }
      assert (Hdiv : (n / 48 = S ((n - 48) / 48))%nat).
      { replace n with ((n - 48) + 1 * 48)%nat at 1 by lia.
        rewrite Nat.div_add by lia. lia. }
      rewrite Hmod in IH. rewrite Hdiv.
      replace (k + S ((n - 48) / 48))%nat with (S k + (n - 48) / 48)%nat by lia.
      apply IH.
      * rewrite length_skipn. lia.
      * now rewrite append_length.
      * apply append_grows; [rewrite Hv, Hnum; unfold value_count; lia|assumption].
Qed.

Lemma bind_ok {A B : Type} (r : result A) (k : A -> result B) (y : B) :
  Py.bind r k = Ok y -> exists a, r = Ok a /\ k a = Ok y.
Proof.
  destruct r as [a|e]; cbn; [eauto|discriminate].
Qed.

Ltac bind_inv H :=
  let a := fresh "a" in
  let Ha := fresh "H" a in
  apply bind_ok in H; destruct H as [a [Ha H]].

Lemma read_dat_spec (file_in : list byte) :
  (8 <= List.length file_in)%nat ->
  read_dat file_in =
  Py.bind (read_records (skipn 8 file_in) (repeat [] value_count))
    (fun values =>
       Ok ((Np.float_of_int (Struct.int64 (firstn 8 file_in)) / 1.0e3)%float, values)).
Proof.
  intros H. unfold read_dat, read, Struct.unpack_q.
  rewrite length_firstn, Nat.min_l by lia. reflexivity.
Qed.

Lemma read_dat_header (file_in : list byte) :
  (List.length file_in < 8)%nat -> read_dat file_in = Raise (StructError 8).
Proof.
  intros H. unfold read_dat, read, Struct.unpack_q.
  rewrite length_firstn, Nat.min_r by lia.
  destruct (Nat.eqb_spec (List.length file_in) 8); [lia|reflexivity].
Qed.

Lemma read_dat_partial (file_in : list byte) :
  (8 <= List.length file_in)%nat ->
  ((List.length file_in - 8) mod 48 <> 0)%nat ->
  read_dat file_in = Raise (StructError 48).
Proof.
  intros Hsize Hmod. rewrite read_dat_spec by exact Hsize.
  assert (Hcount := read_records_count (List.length file_in - 8) (skipn 8 file_in)
                      (repeat [] value_count) 0).
  destruct (Nat.eqb_spec ((List.length file_in - 8) mod 48) 0) as [E|_]; [contradiction|].
  rewrite Hcount; [reflexivity|now rewrite length_skipn|apply repeat_length|].
  apply Forall_forall. intros ch Hin. now apply repeat_spec in Hin; subst.
Qed.

Lemma read_dat_whole (file_in : list byte) :
  (8 <= List.length file_in)%nat ->
  ((List.length file_in - 8) mod 48 = 0)%nat ->
  exists start vals,
    read_dat file_in = Ok (start, vals) /\
    List.length vals = value_count /\
    Forall (fun ch : list number =>
              List.length ch = ((List.length file_in - 8) / 48)%nat) vals.
Proof.
  intros Hsize Hmod. rewrite read_dat_spec by exact Hsize.
  assert (Hcount := read_records_count (List.length file_in - 8) (skipn 8 file_in)
                      (repeat [] value_count) 0).
  rewrite Hmod in Hcount. cbn [Nat.eqb] in Hcount.
  destruct Hcount as [vals [-> [Hlen Hall]]];
    [now rewrite length_skipn|apply repeat_length| |].
  - apply Forall_forall. intros ch Hin. now apply repeat_spec in Hin; subst.
  - cbn [Py.bind]. eexists _, vals. repeat split; assumption.
Qed.

(** C1 (as amended).  The binary reader takes the 8-byte header and then
    48-byte records until the end of the file.  It succeeds exactly when the
    header is complete and the bytes after it are a whole number of records,
    and then every one of the eleven lists holds [(file_size - 8) / 48]
    samples; a trailing partial record is not dropped: [struct.unpack] raises
    on it. *)
Theorem read_dat_record_count (file_in : list byte) :
  let size := List.length file_in in
  ((size < 8)%nat -> read_dat file_in = Raise (StructError 8)) /\
  ((8 <= size)%nat -> ((size - 8) mod 48 <> 0)%nat ->
   read_dat file_in = Raise (StructError 48)) /\
  ((8 <= size)%nat -> ((size - 8) mod 48 = 0)%nat ->
   exists start vals,
     read_dat file_in = Ok (start, vals) /\
     List.length vals = value_count /\
     Forall (fun ch : list number => List.length ch = ((size - 8) / 48)%nat) vals).
Proof.
  intros size. subst size. split; [|split].
  - apply read_dat_header.
  - apply read_dat_partial.
  - apply read_dat_whole.
Qed.

(** A file of a header and two records: two samples in each list. *)
Lemma read_dat_record_count_witness :
  exists start vals,
    read_dat (repeat Byte.x00 104) = Ok (start, vals) /\
    List.length vals = value_count /\
    Forall (fun ch : list number => List.length ch = 2%nat) vals.
Proof.
  exact (proj2 (proj2 (read_dat_record_count (repeat Byte.x00 104))) ltac:(vm_compute; lia) eq_refl).
Defined.

(** C1 as stated fails: a header, one record and one more byte.  The claim
    promises one sample per list; the reader raises [struct.error]. *)
Lemma read_dat_partial_record_raises :
  let file_in := repeat Byte.x00 57 in
  read_dat file_in = Raise (StructError 48) /\
  ~ exists start vals,
      read_dat file_in = Ok (start, vals) /\
      Forall (fun ch : list number =>
                List.length ch = ((List.length file_in - 8) / 48)%nat) vals.
Proof.
  assert (E : read_dat (repeat Byte.x00 57) = Raise (StructError 48))
    by (vm_compute; reflexivity).
  split; [exact E|].
  intros [start [vals [H _]]]. rewrite E in H. discriminate.
Qed.

(** ** The filter: one output sample for each input sample *)

Lemma run_length b a x : forall z, List.length (fst (Signal.run b a z x)) = List.length x.
Proof.
  induction x as [|xn x IH]; intros z; cbn [Signal.run]; [reflexivity|].
  destruct (Signal.step b a z xn) as [y z'].
  specialize (IH z'). destruct (Signal.run b a z' x) as [ys zf].
  cbn [fst List.length] in *. now rewrite IH.
Qed.

Lemma lfilter_length b a x zi out :
  Signal.lfilter b a x zi = Ok out -> List.length (fst out) = List.length x.
Proof.
  unfold Signal.lfilter. destruct a as [|a0 a]; [discriminate|].
  destruct (negb _); [discriminate|].
  destruct (a0 =? 0)%float; [discriminate|].
  intros H. injection H as <-. apply run_length.
Qed.

Section ReaderFacts.

Context {ext : Externals}.

Lemma filtered_empty order Wn bt :
  filtered order Wn bt [] = Raise (IndexError 0 0).
Proof.
  unfold filtered. destruct (butter order Wn bt) as [b a]. reflexivity.
Qed.

Lemma filtered_ok order Wn bt x :
  x <> [] ->
  exists y, filtered order Wn bt x = Ok y /\ List.length y = List.length x.
Proof.
  intros Hx. unfold filtered.
  pose proof (butter_length order Wn bt) as [Hb Ha].
  pose proof (butter_monic order Wn bt) as Hm.
  destruct (butter order Wn bt) as [b a]. cbn [fst snd] in *.
  destruct x as [|x0 x]; [contradiction|].
  cbn [Np.getitem nth_error Py.bind].
  destruct a as [|a0 a]; [discriminate|]. injection Hm as ->.
  unfold Signal.lfilter.
  rewrite length_map, lfilter_zi_length, Nat.eqb_refl.
  cbn [negb].
  replace (1 =? 0)%float with false by reflexivity.
  cbn [Py.bind]. eexists. split; [reflexivity|]. apply run_length.
Qed.

Lemma filtered_length order Wn bt x y :
  filtered order Wn bt x = Ok y -> List.length y = List.length x.
Proof.
  destruct x as [|x0 x].
  - rewrite filtered_empty. discriminate.
  - intros H. destruct (filtered_ok order Wn bt (x0 :: x)) as [y' [E L]]; [discriminate|].
    rewrite E in H. injection H as <-. exact L.
Qed.

(** What a successful construction went through. *)
Lemma init_ok name file r :
  init name file = Ok r ->
  exists start vals t0,
    load name file = Ok (start, vals) /\
    Np.getitem (nth 0 (map Np.array vals) []) 0 = Ok t0 /\
    filename r = name /\
    values r = map Np.array vals /\
    start_unix_timestamp r = start /\
    timestamps r = nth 0 (values r) [] /\
    positions r = nth 1 (values r) [] /\
    angles r = nth 2 (values r) [] /\
    azimuth r = nth 3 (values r) [] /\
    pitch r = nth 4 (values r) [] /\
    roll r = nth 5 (values r) [] /\
    thermistor r = normalize (nth 6 (values r) []) /\
    spo2 r = nth 7 (values r) [] /\
    pulse_rate r = nth 8 (values r) [] /\
    perfusion_index r = nth 9 (values r) [] /\
    mean_spo2_wave r = nth 10 (values r) [] /\
    elapsed r = map (fun t => t / 1.0e9 - t0 / 1.0e9)%float (timestamps r) /\
    signal r = positions r /\
    filtered 3 0.1 Signal.low (signal r) = Ok (low_pass r) /\
    filtered 3 0.3 Signal.high (signal r) = Ok (high_pass r) /\
    filtered 3 0.15 Signal.low (thermistor r) = Ok (thermistor_low_pass r).
Proof.
  unfold init. intros H.
  bind_inv H. destruct a as [start vals]. cbn [fst snd] in H.
  bind_inv H. bind_inv H. bind_inv H. bind_inv H.
  injection H as <-. cbn.
  exists start, vals, a. repeat split; assumption.
Qed.

(** Construction succeeds as soon as the three sequences whose first element
    it reads are not empty. *)
Lemma init_total name file start vals :
  load name file = Ok (start, vals) ->
  nth 0 (map Np.array vals) [] <> [] ->
  nth 1 (map Np.array vals) [] <> [] ->
  nth 6 (map Np.array vals) [] <> [] ->
  exists r, init name file = Ok r.
Proof.
  intros Hload H0 H1 H6. unfold init. rewrite Hload. cbn [Py.bind fst snd].
  destruct (nth 0 (map Np.array vals) []) as [|t0 ts] eqn:E0; [contradiction|].
  cbn [Np.getitem nth_error Py.bind].
  destruct (filtered_ok 3 0.1 Signal.low _ H1) as [lp [-> _]].
  destruct (filtered_ok 3 0.3 Signal.high _ H1) as [hp [-> _]].
  assert (Hn : normalize (nth 6 (map Np.array vals) []) <> []).
  { unfold normalize. destruct (nth 6 (map Np.array vals) []); [contradiction|discriminate]. }
  destruct (filtered_ok 3 0.15 Signal.low _ Hn) as [tp [-> _]].
  cbn [Py.bind]. eexists. reflexivity.
Qed.

End ReaderFacts.

(** ** The start timestamp of a binary recording *)

Section StartTimestamp.

Context {ext : Externals}.

(** C9 (as amended).  For a binary input the start timestamp comes from the
    first 8 bytes read as a big-endian signed 64-bit integer, and the object
    holds that count of milliseconds divided by [1.0e3]: seconds since the
    epoch, as a double. *)
Theorem start_unix_timestamp_seconds name file r :
  endswith name ".dat" = true ->
  init name file = Ok r ->
  start_unix_timestamp r =
  Some (Np.float_of_int (Struct.int64 (firstn 8 (read_bytes file))) / 1.0e3)%float.
Proof.
  intros Hdat Hinit.
  destruct (init_ok _ _ _ Hinit) as (start & vals & t0 & Hload & _ & _ & _ & Hstart & _).
  rewrite Hstart. unfold load in Hload. rewrite Hdat in Hload.
  bind_inv Hload. injection Hload as <- _.
  destruct (Nat.lt_ge_cases (List.length (read_bytes file)) 8) as [Hlt|Hge].
  - rewrite read_dat_header in Ha by exact Hlt. discriminate.
  - rewrite read_dat_spec in Ha by exact Hge.
    bind_inv Ha. injection Ha as Ha. subst a. reflexivity.
Qed.

End StartTimestamp.

(** The header [00 00 00 00 00 00 03 e8] is 1000 ms: the object holds [1.0]. *)
Lemma start_unix_timestamp_seconds_witness :
  exists r, init "night.dat" one_record_dat = Ok r /\ start_unix_timestamp r = Some 1%float.
Proof.
  destruct (init "night.dat" one_record_dat) as [r|e] eqn:E;
    [|vm_compute in E; discriminate].
  exists r. split; [reflexivity|].
  rewrite (start_unix_timestamp_seconds "night.dat" one_record_dat r eq_refl E).
  vm_compute. reflexivity.
Defined.

(** C9 as stated fails: the same file's header says 1000 (milliseconds), and
    the object does not hold 1000. *)
Lemma start_unix_timestamp_not_milliseconds :
  Struct.int64 (firstn 8 (read_bytes one_record_dat)) = 1000%Z /\
  exists r,
    init "night.dat" one_record_dat = Ok r /\
    start_unix_timestamp r = Some 1%float /\
    start_unix_timestamp r <> Some (Np.float_of_int 1000).
Proof.
  split; [reflexivity|].
  destruct (init "night.dat" one_record_dat) as [r|e] eqn:E;
    [|vm_compute in E; discriminate].
  exists r. split; [reflexivity|].
  assert (H : start_unix_timestamp r = Some 1%float).
  { vm_compute in E. injection E as <-. reflexivity. }
  split; [exact H|]. rewrite H. intros C.
  apply (f_equal (fun o => match o with Some x => (x =? 1)%float | None => false end)) in C.
  vm_compute in C. discriminate.
Qed.

(** ** The eleven sequences have one length *)

Lemma comprehension_length {A B : Type} (f : A -> result B) (l : list A) (ys : list B) :
  comprehension f l = Ok ys -> List.length ys = List.length l.
Proof.
  revert ys. induction l as [|x l IH]; intros ys H; cbn in H.
  - injection H as <-. reflexivity.
  - bind_inv H. bind_inv H. injection H as <-. cbn. f_equal. now apply IH.
Qed.

Lemma nth_Forall_length {A : Type} (vals : list (list A)) (n i : nat) :
  Forall (fun ch : list A => List.length ch = n) vals ->
  (i < List.length vals)%nat ->
  List.length (nth i vals []) = n.
Proof.
  intros Hall Hi. rewrite Forall_forall in Hall. apply Hall. now apply nth_In.
Qed.

Lemma array_lengths (vals : list (list number)) (n : nat) :
  Forall (fun ch : list number => List.length ch = n) vals ->
  Forall (fun ch : list float => List.length ch = n) (map Np.array vals).
Proof.
  intros H. apply Forall_map. eapply Forall_impl; [|exact H].
  intros ch Hch. unfold Np.array. now rewrite length_map.
Qed.

Lemma repeat_nil_lengths (n : nat) :
  Forall (fun ch : list number => List.length ch = 0%nat) (repeat [] n).
Proof.
  apply Forall_forall. intros ch Hin. apply repeat_spec in Hin. now subst.
Qed.

Section EqualLengths.

Context {ext : Externals}.

Lemma parse_line_length line numbers :
  parse_line line = Ok numbers -> List.length numbers = List.length (split "," line).
Proof.
  apply comprehension_length.
Qed.

Lemma read_lines_count lines :
  forall values k vals,
    Forall (fun line => (value_count <= List.length (split "," line))%nat) lines ->
    List.length values = value_count ->
    Forall (fun ch : list number => List.length ch = k) values ->
    read_lines lines values = Ok vals ->
    List.length vals = value_count /\
    Forall (fun ch : list number => List.length ch = (k + List.length lines)%nat) vals.
Proof.
  induction lines as [|line lines IH]; intros values k vals Hfields Hlen Hall H; cbn in H.
  - injection H as <-. cbn. rewrite Nat.add_0_r. auto.
  - bind_inv H. inversion Hfields as [|? ? Hline Hrest]; subst.
    apply parse_line_length in Ha.
    destruct (IH (append values a) (S k) vals Hrest) as [L F]; auto.
    + now rewrite append_length.
    + apply append_grows; [lia|assumption].
    + split; [exact L|]. cbn [List.length].
      now replace (k + S (List.length lines))%nat with (S k + List.length lines)%nat by lia.
Qed.

(** What [load] leaves in the eleven lists, for a binary file and for a text
    file whose every line has at least eleven fields. *)
Lemma load_lengths name file start vals :
  load name file = Ok (start, vals) ->
  endswith name ".dat" = true \/
  Forall (fun line => (value_count <= List.length (split "," line))%nat)
    (splitlines (read_text file)) ->
  List.length vals = value_count /\
  exists n, Forall (fun ch : list number => List.length ch = n) vals.
Proof.
  unfold load. intros H Hcase.
  destruct (endswith name ".dat") eqn:Hdat.
  - bind_inv H. injection H as _ <-.
    destruct (Nat.lt_ge_cases (List.length (read_bytes file)) 8) as [Hlt|Hge];
      [rewrite read_dat_header in Ha by exact Hlt; discriminate|].
    destruct (Nat.eq_dec ((List.length (read_bytes file) - 8) mod 48) 0) as [Hz|Hnz];
      [|rewrite read_dat_partial in Ha by assumption; discriminate].
    destruct (read_dat_whole _ Hge Hz) as (start' & vals' & E & L & F).
    rewrite E in Ha. injection Ha as <-. cbn [snd]. split; [exact L|eauto].
  - destruct Hcase as [C|Hfields]; [discriminate|].
    bind_inv H. injection H as _ <-. unfold read_txt in Ha.
    destruct (read_lines_count _ _ 0 _ Hfields (repeat_length _ _)
                (repeat_nil_lengths _) Ha) as [L F].
    split; [exact L|eauto].
Qed.

(** C2 (as amended).  After a recording is constructed from a binary file, or
    from a text file whose every line has at least eleven comma-separated
    fields, all eleven channel sequences have the same length. *)
Theorem channels_same_length name file r :
  init name file = Ok r ->
  endswith name ".dat" = true \/
  Forall (fun line => (value_count <= List.length (split "," line))%nat)
    (splitlines (read_text file)) ->
  exists n,
    List.length (values r) = value_count /\
    Forall (fun ch : list float => List.length ch = n) (values r) /\
    List.length (timestamps r) = n /\ List.length (positions r) = n /\
    List.length (angles r) = n /\ List.length (azimuth r) = n /\
    List.length (pitch r) = n /\ List.length (roll r) = n /\
    List.length (thermistor r) = n /\ List.length (spo2 r) = n /\
    List.length (pulse_rate r) = n /\ List.length (perfusion_index r) = n /\
    List.length (mean_spo2_wave r) = n.
Proof.
  intros Hinit Hcase.
  destruct (init_ok _ _ _ Hinit)
    as (start & vals & t0 & Hload & _ & _ & Hv & _ & Ht & Hp & Han & Haz & Hpi & Hro
        & Hth & Hsp & Hpu & Hpe & Hme & _).
  destruct (load_lengths _ _ _ _ Hload Hcase) as [L [n F]].
  apply array_lengths in F. rewrite <- Hv in F.
  assert (Lv : List.length (values r) = value_count) by (now rewrite Hv, length_map).
  exists n. split; [exact Lv|]. split; [exact F|].
  rewrite Ht, Hp, Han, Haz, Hpi, Hro, Hth, Hsp, Hpu, Hpe, Hme.
  unfold normalize. rewrite length_map.
  repeat split; apply nth_Forall_length; try exact F; rewrite Lv; unfold value_count; lia.
Qed.

End EqualLengths.

(** The one-record binary file: every sequence has length 1. *)
Lemma channels_same_length_witness :
  exists r n,
    init "night.dat" one_record_dat = Ok r /\
    Forall (fun ch : list float => List.length ch = n) (values r) /\
    List.length (timestamps r) = n /\ List.length (mean_spo2_wave r) = n.
Proof.
  destruct (init "night.dat" one_record_dat) as [r|e] eqn:E;
    [|vm_compute in E; discriminate].
  destruct (channels_same_length "night.dat" one_record_dat r E (or_introl eq_refl))
    as (n & _ & F & Ht & H).
  exists r, n. repeat split; try assumption. apply H.
Defined.

(** C2 as stated fails for a text file: its second line has three fields,
    [zip] stops there, and the first three sequences end up longer than the
    other eight. *)
Lemma text_short_line_unequal_lengths :
  exists r,
    init "night.csv" short_line_txt = Ok r /\
    List.length (timestamps r) = 2%nat /\
    List.length (spo2 r) = 1%nat.
Proof.
  destruct (init "night.csv" short_line_txt) as [r|e] eqn:E;
    [|vm_compute in E; discriminate].
  exists r. split; [reflexivity|].
  vm_compute in E. injection E as <-. split; reflexivity.
Qed.

(** ** A field that is no number *)

Section ParseErrors.

Context {ext : Externals}.

Lemma comprehension_bad fields :
  forall field,
    find (fun f => negb (numeric f)) fields = Some field ->
    comprehension
      (fun f => match float_of_str f with
                | Some x => Ok (PyFloat x)
                | None => Raise (ValueError f)
                end) fields = Raise (ValueError field).
Proof.
  induction fields as [|f fields IH]; intros field H; cbn in *; [discriminate|].
  unfold numeric in H. destruct (float_of_str f) as [x|]; cbn in *.
  - now rewrite (IH _ H).
  - now injection H as <-.
Qed.

Lemma comprehension_good fields :
  find (fun f => negb (numeric f)) fields = None ->
  exists numbers,
    comprehension
      (fun f => match float_of_str f with
                | Some x => Ok (PyFloat x)
                | None => Raise (ValueError f)
                end) fields = Ok numbers.
Proof.
  induction fields as [|f fields IH]; intros H; cbn in *; [eauto|].
  unfold numeric in H. destruct (float_of_str f) as [x|]; cbn in *; [|discriminate].
  destruct (IH H) as [numbers ->]. cbn. eauto.
Qed.

Lemma read_lines_bad lines :
  forall field values,
    first_bad lines = Some field ->
    read_lines lines values = Raise (ValueError field).
Proof.
  induction lines as [|line lines IH]; intros field values H; cbn in *; [discriminate|].
  unfold parse_line. destruct (first_bad_field line) as [f|] eqn:E.
  - injection H as <-. unfold first_bad_field in E.
    now rewrite (comprehension_bad _ _ E).
  - unfold first_bad_field in E.
    destruct (comprehension_good _ E) as [numbers ->]. cbn. now apply IH.
Qed.

Lemma first_bad_exists lines :
  Exists (fun line => Exists (fun field => float_of_str field = None) (split "," line)) lines ->
  exists field, first_bad lines = Some field /\ float_of_str field = None.
Proof.
  induction lines as [|line lines IH]; intros H; [inversion H|]. cbn.
  destruct (first_bad_field line) as [f|] eqn:E.
  - exists f. split; [reflexivity|]. unfold first_bad_field in E.
    apply find_some in E. destruct E as [_ E]. unfold numeric in E.
    now destruct (float_of_str f).
  - inversion H as [? ? Hl|? ? Hr]; subst; [|now apply IH].
    exfalso. apply Exists_exists in Hl. destruct Hl as [f [Hin Hf]].
    unfold first_bad_field in E.
    pose proof (find_none _ _ E f Hin) as N. unfold numeric in N. now rewrite Hf in N.
Qed.

(** C3 (as amended).  For every text-format input with a line that has a
    non-numeric field, construction fails with the [ValueError] of [float],
    which carries the text of the first offending field (and no record
    index); nothing catches it, so the run ends there. *)
Theorem text_malformed_field_raises name file :
  endswith name ".dat" = false ->
  Exists (fun line => Exists (fun field => float_of_str field = None) (split "," line))
    (splitlines (read_text file)) ->
  exists field,
    first_bad (splitlines (read_text file)) = Some field /\
    float_of_str field = None /\
    init name file = Raise (ValueError field).
Proof.
  intros Hname Hbad. destruct (first_bad_exists _ Hbad) as [field [Hf Hn]].
  exists field. repeat split; try assumption.
  unfold init, load, read_txt. rewrite Hname.
  now rewrite (read_lines_bad _ _ _ Hf).
Qed.

End ParseErrors.

(** A text whose second line holds the field [x]: [float] raises on it. *)
Lemma text_malformed_field_raises_witness :
  exists field,
    first_bad (splitlines (read_text bad_second_txt)) = Some field /\
    float_of_str field = None /\
    init "night.csv" bad_second_txt = Raise (ValueError field).
Proof.
  apply (text_malformed_field_raises "night.csv" bad_second_txt eq_refl).
  assert (E : splitlines (read_text bad_second_txt) =
              ["1,2,3,4,5,6,7,8,9,10,11"; "x,2,3,4,5,6,7,8,9,10,11"]%string)
    by (vm_compute; reflexivity).
  rewrite E. apply Exists_cons_tl, Exists_cons_hd.
  assert (F : split "," "x,2,3,4,5,6,7,8,9,10,11" =
              ["x"; "2"; "3"; "4"; "5"; "6"; "7"; "8"; "9"; "10"; "11"]%string)
    by (vm_compute; reflexivity).
  rewrite F. apply Exists_cons_hd. vm_compute. reflexivity.
Defined.

(** C3 as stated fails: the error does not identify the record.  The field
    [x] stands in record 0 of one file and in record 1 of the other, and the
    two constructions raise the same exception. *)
Lemma parse_error_has_no_record_index :
  bad_record_index (splitlines (read_text bad_first_txt)) = Some 0%nat /\
  bad_record_index (splitlines (read_text bad_second_txt)) = Some 1%nat /\
  init "night.csv" bad_first_txt = Raise (ValueError "x") /\
  init "night.csv" bad_second_txt = Raise (ValueError "x").
Proof.
  repeat split; vm_compute; reflexivity.
Qed.

(** ** Recordings without a record, and with one *)

Lemma append_keeps_nonempty values numbers :
  Forall (fun ch : list number => ch <> []) values ->
  Forall (fun ch : list number => ch <> []) (append values numbers).
Proof.
  revert numbers. induction values as [|v values IH]; intros [|x numbers] H; cbn; auto.
  inversion H; subst. constructor; [now destruct v|now apply IH].
Qed.

Lemma append_makes_nonempty values numbers :
  (List.length values <= List.length numbers)%nat ->
  Forall (fun ch : list number => ch <> []) (append values numbers).
Proof.
  revert numbers. induction values as [|v values IH]; intros [|x numbers] H; cbn in *;
    try constructor; try lia.
  - now destruct v.
  - apply IH. lia.
Qed.

Lemma nth_array_nonempty (vals : list (list number)) (i : nat) :
  Forall (fun ch : list number => ch <> []) vals ->
  (i < List.length vals)%nat ->
  nth i (map Np.array vals) [] <> [].
Proof.
  intros Hall Hi. rewrite Forall_forall in Hall.
  change (@nil float) with (Np.array []). rewrite map_nth.
  assert (Hin : In (nth i vals []) vals) by now apply nth_In.
  specialize (Hall _ Hin). now destruct (nth i vals []).
Qed.

Section ZeroRecords.

Context {ext : Externals}.

Lemma read_lines_nonempty lines :
  forall values vals,
    read_lines lines values = Ok vals ->
    List.length values = value_count ->
    Forall (fun ch : list number => ch <> []) values \/
    Exists (fun line => (value_count <= List.length (split "," line))%nat) lines ->
    List.length vals = value_count /\ Forall (fun ch : list number => ch <> []) vals.
Proof.
  induction lines as [|line lines IH]; intros values vals H Hlen Hcase; cbn in H.
  - injection H as <-. destruct Hcase as [Hne|Hex]; [auto|inversion Hex].
  - bind_inv H. pose proof (parse_line_length _ _ Ha) as Hn.
    apply (IH _ _ H); [now rewrite append_length|].
    destruct Hcase as [Hne|Hex].
    + left. now apply append_keeps_nonempty.
    + inversion Hex as [? ? Hl|? ? Hr]; subst; [|now right].
      left. apply append_makes_nonempty. lia.
Qed.

Lemma init_no_records name file start :
  load name file = Ok (start, repeat [] value_count) ->
  init name file = Raise (IndexError 0 0).
Proof.
  intros H. unfold init. rewrite H. reflexivity.
Qed.

(** C10.  Construction needs a complete record.  With none (a [.dat] file
    that is just the 8-byte header, or an empty text file) it fails on
    [self.timestamps[0]] with an [IndexError]; with at least one (a [.dat]
    file of the header and one or more whole records, or a text file that
    parses and has a line of eleven fields) the three first-element reads
    succeed and the object is built. *)
Theorem init_needs_a_record :
  (forall name file,
      endswith name ".dat" = true -> List.length (read_bytes file) = 8%nat ->
      init name file = Raise (IndexError 0 0)) /\
  (forall name file,
      endswith name ".dat" = false -> read_text file = EmptyString ->
      init name file = Raise (IndexError 0 0)) /\
  (forall name file n,
      endswith name ".dat" = true ->
      List.length (read_bytes file) = (8 + 48 * S n)%nat ->
      exists r, init name file = Ok r) /\
  (forall name file vals,
      endswith name ".dat" = false ->
      read_txt (read_text file) = Ok vals ->
      Exists (fun line => (value_count <= List.length (split "," line))%nat)
        (splitlines (read_text file)) ->
      exists r, init name file = Ok r).
Proof.
  repeat split.
  - intros name file Hname Hlen.
    apply (init_no_records _ _ (Some (Np.float_of_int (Struct.int64 (firstn 8 (read_bytes file))) / 1.0e3)%float)).
    unfold load. rewrite Hname, read_dat_spec by lia.
    assert (E : skipn 8 (read_bytes file) = []).
    { apply length_zero_iff_nil. rewrite length_skipn. lia. }
    rewrite E, read_records_step. reflexivity.
  - intros name file Hname Htext.
    apply (init_no_records _ _ None). unfold load, read_txt.
    rewrite Hname, Htext. reflexivity.
  - intros name file n Hname Hlen.
    destruct (read_dat_whole (read_bytes file)) as (start & vals & E & L & F); [lia| |].
    { rewrite Hlen. replace (8 + 48 * S n - 8)%nat with (S n * 48)%nat by lia.
      apply Nat.Div0.mod_mul. }
    assert (Hne : Forall (fun ch : list number => ch <> []) vals).
    { eapply Forall_impl; [|exact F]. intros ch Hch.
      rewrite Hlen in Hch.
      replace (8 + 48 * S n - 8)%nat with (S n * 48)%nat in Hch by lia.
      rewrite Nat.div_mul in Hch by lia. now destruct ch. }
    apply (init_total name file (Some start) vals).
    + unfold load. rewrite Hname, E. reflexivity.
    + apply nth_array_nonempty; [exact Hne|rewrite L; unfold value_count; lia].
    + apply nth_array_nonempty; [exact Hne|rewrite L; unfold value_count; lia].
    + apply nth_array_nonempty; [exact Hne|rewrite L; unfold value_count; lia].
  - intros name file vals Hname Hread Hex.
    destruct (read_lines_nonempty _ _ _ Hread (repeat_length _ _) (or_intror Hex)) as [L Hne].
    apply (init_total name file None vals).
    + unfold load. rewrite Hname, Hread. reflexivity.
    + apply nth_array_nonempty; [exact Hne|rewrite L; unfold value_count; lia].
    + apply nth_array_nonempty; [exact Hne|rewrite L; unfold value_count; lia].
    + apply nth_array_nonempty; [exact Hne|rewrite L; unfold value_count; lia].
Qed.

End ZeroRecords.

(** The header-only file raises; the one-record file is built. *)
Lemma init_needs_a_record_witness :
  init "night.dat" {| read_bytes := repeat Byte.x00 8; read_text := EmptyString |}
    = Raise (IndexError 0 0) /\
  exists r, init "night.dat" one_record_dat = Ok r.
Proof.
  destruct (@init_needs_a_record sample) as (H1 & _ & H3 & _).
  split.
  - apply H1; reflexivity.
  - apply (H3 "night.dat"%string one_record_dat 0%nat); reflexivity.
Defined.

(** ** The filtered thermistor signal *)

Section Thermistor.

Context {ext : Externals}.

Local Open Scope float_scope.

(** C7.  The thermistor low-pass signal of a constructed recording is that
    filter applied to the normalized thermistor channel (the seventh of the
    eleven sequences). *)
Theorem thermistor_low_pass_spec name file r :
  init name file = Ok r ->
  thermistor r = map (fun v => (v - mean (nth 6 (values r) [])) * 0.02) (nth 6 (values r) []) /\
  spec_thermistor_low_pass (nth 6 (values r) []) = Ok (thermistor_low_pass r).
Proof.
  intros Hinit.
  destruct (init_ok _ _ _ Hinit)
    as (start & vals & t0 & _ & _ & _ & _ & _ & _ & _ & _ & _ & _ & _
        & Hth & _ & _ & _ & _ & _ & _ & _ & _ & Hf).
  split; [exact Hth|].
  rewrite Hth in Hf. unfold filtered, normalize in Hf. unfold spec_thermistor_low_pass.
  destruct (butter 3 0.15 Signal.low) as [b a]. cbn [fst snd].
  destruct (map (fun v => (v - mean (nth 6 (values r) [])) * 0.02) (nth 6 (values r) []))
    as [|first rest]; [discriminate|].
  cbn [Np.getitem nth_error Py.bind] in Hf.
  destruct (Signal.lfilter b a (first :: rest) (map (fun z => z * first) (lfilter_zi b a)))
    as [[y zf]|e]; [exact Hf|discriminate].
Qed.

(** C8.  Each filter application gives one output sample per input sample:
    on a non-empty input it returns, and what it returns has the input's
    length; the three filtered signals of a constructed recording are such
    outputs, of the position signal (twice) and of the normalized thermistor
    signal. *)
Theorem filtering_preserves_length :
  (forall order Wn bt x,
      x <> [] ->
      exists y, filtered order Wn bt x = Ok y /\ List.length y = List.length x) /\
  (forall name file r,
      init name file = Ok r ->
      filtered 3 0.1 Signal.low (positions r) = Ok (low_pass r) /\
      filtered 3 0.3 Signal.high (positions r) = Ok (high_pass r) /\
      filtered 3 0.15 Signal.low (thermistor r) = Ok (thermistor_low_pass r) /\
      List.length (low_pass r) = List.length (positions r) /\
      List.length (high_pass r) = List.length (positions r) /\
      List.length (thermistor_low_pass r) = List.length (thermistor r)).
Proof.
  split; [exact filtered_ok|].
  intros name file r Hinit.
  destruct (init_ok _ _ _ Hinit)
    as (start & vals & t0 & _ & _ & _ & _ & _ & _ & _ & _ & _ & _ & _
        & _ & _ & _ & _ & _ & _ & Hs & Hl & Hh & Ht).
  rewrite Hs in Hl, Hh.
  repeat split; try assumption; eapply filtered_length; eassumption.
Qed.

End Thermistor.

(** The one-record binary file: its thermistor low-pass signal is the
    specified one. *)
Lemma thermistor_low_pass_spec_witness :
  exists r,
    init "night.dat" one_record_dat = Ok r /\
    spec_thermistor_low_pass (nth 6 (values r) []) = Ok (thermistor_low_pass r).
Proof.
  destruct (init "night.dat" one_record_dat) as [r|e] eqn:E;
    [|vm_compute in E; discriminate].
  exists r. split; [reflexivity|].
  apply (thermistor_low_pass_spec "night.dat" one_record_dat r E).
Defined.

(** Three samples in, three samples out. *)
Lemma filtering_preserves_length_witness :
  exists y,
    filtered 3 0.1 Signal.low [1; 2; 3]%float = Ok y /\ List.length y = 3%nat.
Proof.
  apply (proj1 (@filtering_preserves_length sample)). discriminate.
Defined.

(** ** The report windows *)

Lemma region_firstn {A : Type} (point_idx : nat) (values : list A) :
  region point_idx values = firstn max_data_points (skipn point_idx values).
Proof.
  unfold region, slice. f_equal. lia.
Qed.

Lemma window_starts_seq (n : nat) :
  window_starts n =
  map (fun k => k * max_data_points)%nat (seq 0 ((n + 999) / max_data_points)).
Proof.
  unfold window_starts, range. rewrite Nat.sub_0_r.
  replace (n + max_data_points - 1)%nat with (n + 999)%nat by (unfold max_data_points; lia).
  apply map_ext. intros k. lia.
Qed.

Lemma window_count_bounds (n : nat) :
  let c := ((n + 999) / max_data_points)%nat in
  (n <= c * max_data_points /\ c * max_data_points < n + max_data_points)%nat.
Proof.
  unfold max_data_points. cbv zeta.
  pose proof (Nat.div_mod_eq (n + 999) 1000) as E.
  pose proof (Nat.mod_upper_bound (n + 999) 1000 ltac:(lia)) as B.
  lia.
Qed.



Lemma region_length {A : Type} (point_idx : nat) (values : list A) :
  List.length (region point_idx values) =
  Nat.min max_data_points (List.length values - point_idx).
Proof.
  now rewrite region_firstn, length_firstn, length_skipn.
Qed.






Section Windows.

Context {ext : Externals}.

(** The sequences of a recording built from a binary file: all of one
    length, which is not zero. *)
Lemma binary_recording_lengths name file r :
  endswith name ".dat" = true ->
  init name file = Ok r ->
  exists start n,
    start_unix_timestamp r = Some start /\
    (1 <= n)%nat /\
    List.length (elapsed r) = n /\ List.length (positions r) = n /\
    List.length (roll r) = n /\ List.length (pitch r) = n /\
    List.length (thermistor_low_pass r) = n /\ List.length (spo2 r) = n /\
    List.length (pulse_rate r) = n /\ List.length (perfusion_index r) = n /\
    List.length (mean_spo2_wave r) = n.
Proof.
  intros Hname Hinit.
  destruct (init_ok _ _ _ Hinit)
    as (start & vals & t0 & Hload & Ht0 & _ & Hv & Hstart & Ht & Hp & _ & _ & Hpi & Hro
        & Hth & Hsp & Hpu & Hpe & Hme & Hel & _ & _ & _ & Hlow).
  destruct (load_lengths _ _ _ _ Hload (or_introl Hname)) as [L [n F]].
  apply array_lengths in F. rewrite <- Hv in F.
  assert (Lv : List.length (values r) = value_count) by (now rewrite Hv, length_map).
  assert (Hs : exists s, start = Some s).
  { unfold load in Hload. rewrite Hname in Hload. bind_inv Hload.
    injection Hload as <- _. eauto. }
  destruct Hs as [s Hs]. rewrite Hs in Hstart.
  assert (Ln : forall i, (i < 11)%nat -> List.length (nth i (values r) []) = n).
  { intros i Hi. apply nth_Forall_length; [exact F|]. rewrite Lv. exact Hi. }
  exists s, n. split; [exact Hstart|].
  assert (Hn : (1 <= n)%nat).
  { rewrite <- Hv, <- Ht in Ht0. rewrite <- (Ln 0%nat) by lia. rewrite <- Ht.
    destruct (timestamps r); [discriminate|cbn; lia]. }
  split; [exact Hn|].
  apply filtered_length in Hlow.
  rewrite Hlow, Hel, length_map, Ht, Hp, Hro, Hpi, Hth, Hsp, Hpu, Hpe, Hme.
  unfold normalize. rewrite length_map.
  repeat split; apply Ln; lia.
Qed.

Lemma text_recording_first_page name file r :
  endswith name ".dat" = false ->
  init name file = Ok r ->
  exists starts,
    window_starts (List.length (Report.negative (positions r))) = 0%nat :: starts /\
    page_of r (Report.negative (positions r)) 0 = Report.Raise Report.TypeError.
Proof.
  intros Hname Hinit.
  destruct (init_ok _ _ _ Hinit)
    as (start & vals & t0 & Hload & Ht0 & _ & Hv & Hstart & Ht & _ & _ & _ & _ & _
        & _ & _ & _ & _ & _ & Hel & Hsig & Hlow & _).
  assert (Hs : start = None).
  { unfold load in Hload. rewrite Hname in Hload. bind_inv Hload.
    now injection Hload as <- _. }
  rewrite Hs in Hstart.
  rewrite window_starts_seq.
  assert (Hp : positions r <> []).
  { rewrite <- Hsig. intros E. rewrite E, filtered_empty in Hlow. discriminate. }
  unfold Report.negative. rewrite length_map.
  destruct (positions r) as [|p0 ps]; [contradiction|]. cbn [List.length].
  assert (Hc : exists c, ((S (List.length ps) + 999) / max_data_points = S c)%nat).
  { unfold max_data_points.
    pose proof (Nat.div_mod_eq (S (List.length ps) + 999) 1000) as E.
    pose proof (Nat.mod_upper_bound (S (List.length ps) + 999) 1000 ltac:(lia)) as B.
    destruct ((S (List.length ps) + 999) / 1000)%nat; [lia|eauto]. }
  destruct Hc as [c ->]. cbn [seq map Nat.mul].
  eexists. split; [reflexivity|].
  unfold page_of. rewrite Hel, Hstart.
  rewrite <- Hv, <- Ht in Ht0.
  destruct (timestamps r) as [|t ts]; [discriminate|]. reflexivity.
Qed.


End Windows.



(** ** The timestamps of a binary file are finite doubles *)

Lemma be_uint_fold_bound (bs : list byte) :
  forall acc k,
    (0 <= k)%Z -> (0 <= acc < 2 ^ k)%Z ->
    (0 <= fold_left (fun acc b => Z.lor (Z.shiftl acc 8) (Z.of_N (Byte.to_N b))) bs acc
     < 2 ^ (k + 8 * Z.of_nat (List.length bs)))%Z.
Proof.
  induction bs as [|b bs IH]; intros acc k Hk Hacc; cbn [fold_left List.length].
  - now rewrite Z.mul_0_r, Z.add_0_r.
  - replace (k + 8 * Z.of_nat (S (List.length bs)))%Z
      with ((k + 8) + 8 * Z.of_nat (List.length bs))%Z by lia.
    apply IH; [lia|].
    pose proof (Byte.to_N_bounded b) as Hb.
    set (x := Z.of_N (Byte.to_N b)) in *.
    assert (Hx : (0 <= x <= 255)%Z) by (unfold x; lia).
    rewrite Z.shiftl_mul_pow2 by lia. change (2 ^ 8)%Z with 256%Z.
    rewrite Z.pow_add_r by lia. change (2 ^ 8)%Z with 256%Z.
    pose proof (Z.add_lor_land (acc * 256) x) as E.
    assert (0 <= Z.land (acc * 256) x)%Z by (apply Z.land_nonneg; lia).
    assert (0 <= Z.lor (acc * 256) x)%Z by (apply Z.lor_nonneg; lia).
    lia.
Qed.

Lemma int64_range (bs : list byte) :
  (List.length bs <= 8)%nat -> (- 2 ^ 63 <= Struct.int64 bs <= 2 ^ 63)%Z.
Proof.
  intros Hlen. unfold Struct.int64, Struct.to_signed, Struct.be_uint.
  pose proof (be_uint_fold_bound bs 0 0 ltac:(lia) ltac:(change (2 ^ 0)%Z with 1%Z; lia))
    as [L U].
  set (w := fold_left _ bs 0%Z) in *.
  assert (U' : (w < 2 ^ 64)%Z).
  { apply Z.lt_le_trans with (1 := U). apply Z.pow_le_mono_r; lia. }
  change (64 - 1)%Z with 63%Z.
  pose proof (Z.testbit_spec' w 63 ltac:(lia)) as T.
  change (2 ^ 63)%Z with 9223372036854775808%Z in *.
  change (2 ^ 64)%Z with 18446744073709551616%Z in *.
  destruct (Z.testbit w 63); cbn [Z.b2z] in T; Z.div_mod_to_equations; lia.
Qed.

Lemma append_first values numbers v :
  hd_error numbers = Some v ->
  Forall int64_number (nth 0 values []) -> int64_number v ->
  Forall int64_number (nth 0 (append values numbers) []).
Proof.
  intros Hhd Hall Hv. destruct values as [|ch0 values]; [constructor|].
  destruct numbers as [|x numbers]; [discriminate|].
  injection Hhd as ->. cbn [append nth] in *.
  apply Forall_app. split; [exact Hall|]. constructor; [exact Hv|constructor].
Qed.

Lemma read_records_int64 n :
  forall file_in values vals,
    List.length file_in = n ->
    read_records file_in values = Ok vals ->
    Forall int64_number (nth 0 values []) ->
    Forall int64_number (nth 0 vals []).
Proof.
  induction n as [n IH] using lt_wf_ind. intros file_in values vals Hn H Hall.
  rewrite read_records_step in H.
  destruct (firstn 48 file_in) as [|b l] eqn:E.
  - now injection H as <-.
  - unfold Struct.unpack_q_f in H.
    destruct (List.length (b :: l) =? Struct.calcsize_q_f 10)%nat; [|discriminate].
    assert (Hlt : (List.length (skipn 48 file_in) < n)%nat).
    { rewrite length_skipn. destruct file_in; [discriminate|]. cbn [List.length] in *. lia. }
    apply (IH _ Hlt _ _ _ eq_refl H).
    apply (append_first _ _ (PyInt (Struct.int64 (firstn 8 (b :: l))))); [reflexivity|exact Hall|].
    eexists. split; [reflexivity|]. apply int64_range. rewrite length_firstn. lia.
Qed.

Lemma float64_int64_finite v : int64_number v -> is_finite (Np.float64 v) = true.
Proof.
  intros [z [-> Hz]]. apply Ieee.finite_is_finite. now apply Ieee.float_of_int_finite.
Qed.

(** ** Elapsed time *)

Lemma billion_positive : exists mc ec, Prim2SF 1.0e9 = S754_finite false mc ec.
Proof. eexists. eexists. vm_compute. reflexivity. Qed.

Lemma elapsed_step_mono (d x y : float) :
  is_finite d = true ->
  (x <=? y)%float = true ->
  (x / 1.0e9 - d <=? y / 1.0e9 - d)%float = true.
Proof.
  intros Hd H. destruct billion_positive as (mc & ec & Hc).
  apply Ieee.sub_mono; [now apply Ieee.is_finite_finite|].
  now apply (Ieee.div_mono _ _ _ mc ec Hc).
Qed.

Lemma seconds_finite (t : float) : is_finite t = true -> is_finite (t / 1.0e9) = true.
Proof.
  intros H. destruct billion_positive as (mc & ec & Hc).
  apply Ieee.finite_is_finite.
  apply (Ieee.div_finite _ _ mc ec Hc); [| |now apply Ieee.is_finite_finite];
    unfold Ieee.finite; vm_compute; exact I.
Qed.

Lemma map_non_decreasing (f : float -> float) (a : list float) :
  (forall x y, (x <=? y)%float = true -> (f x <=? f y)%float = true) ->
  non_decreasing a -> non_decreasing (map f a).
Proof.
  intros Hf Ha i x y Hx Hy. rewrite nth_error_map in Hx, Hy.
  destruct (nth_error a i) as [x0|] eqn:Ex; [|discriminate].
  destruct (nth_error a (S i)) as [y0|] eqn:Ey; [|discriminate].
  cbn in Hx, Hy. injection Hx as <-. injection Hy as <-.
  apply Hf. exact (Ha i x0 y0 Ex Ey).
Qed.

Section Elapsed.

Context {ext : Externals}.

Local Open Scope float_scope.

Lemma load_dat_timestamps name file start vals :
  endswith name ".dat" = true ->
  load name file = Ok (start, vals) ->
  Forall int64_number (nth 0 vals []).
Proof.
  unfold load. intros -> H. bind_inv H. injection H as _ <-.
  destruct (Nat.lt_ge_cases (List.length (read_bytes file)) 8) as [Hlt|Hge].
  - rewrite read_dat_header in Ha by exact Hlt. discriminate.
  - rewrite read_dat_spec in Ha by exact Hge. bind_inv Ha.
    injection Ha as Ha. subst a. cbn [snd].
    apply (read_records_int64 _ _ _ _ eq_refl Ha0). constructor.
Qed.

(** C4 (as amended).  A constructed recording has a first timestamp [t0]
    and [elapsed[i] = timestamps[i] / 1e9 - t0 / 1e9] for every index.  When
    [t0] is finite the first element is exactly [0.0], and non-decreasing
    timestamps give non-decreasing elapsed times.  The timestamps of a binary
    file are always finite; a text file can hold [inf] or [nan]. *)
Theorem elapsed_spec name file r :
  init name file = Ok r ->
  exists t0,
    nth_error (timestamps r) 0 = Some t0 /\
    List.length (elapsed r) = List.length (timestamps r) /\
    (forall i t, nth_error (timestamps r) i = Some t ->
                 nth_error (elapsed r) i = Some (t / 1.0e9 - t0 / 1.0e9)) /\
    (is_finite t0 = true ->
     nth_error (elapsed r) 0 = Some 0 /\
     (non_decreasing (timestamps r) -> non_decreasing (elapsed r))) /\
    (endswith name ".dat" = true -> is_finite t0 = true).
Proof.
  intros Hinit.
  destruct (init_ok _ _ _ Hinit)
    as (start & vals & t0 & Hload & Hget & _ & Hv & _ & Ht & _ & _ & _ & _ & _ & _
        & _ & _ & _ & _ & He & _).
  rewrite <- Hv, <- Ht in Hget. unfold Np.getitem in Hget.
  destruct (nth_error (timestamps r) 0) as [t|] eqn:E0; [|discriminate].
  injection Hget as ->. exists t0.
  split; [reflexivity|]. split; [now rewrite He, length_map|]. split; [|split].
  - intros i t Hi. now rewrite He, nth_error_map, Hi.
  - intros Hfin. pose proof (seconds_finite _ Hfin) as Hd. split.
    + rewrite He, nth_error_map, E0. cbn [option_map].
      now rewrite (Ieee.sub_diag _ (Ieee.is_finite_finite _ Hd)).
    + intros Hnd. rewrite He. apply map_non_decreasing; [|exact Hnd].
      intros x y. now apply elapsed_step_mono.
  - intros Hdat. pose proof (load_dat_timestamps _ _ _ _ Hdat Hload) as Hall.
    rewrite Ht, Hv in E0.
    change (@nil float) with (Np.array []) in E0. rewrite map_nth in E0.
    unfold Np.array in E0. rewrite nth_error_map in E0.
    destruct (nth_error (nth 0 vals []) 0) as [v|] eqn:Ev; [|discriminate].
    injection E0 as <-. apply float64_int64_finite.
    rewrite Forall_forall in Hall. apply Hall. now apply nth_error_In with 0%nat.
Qed.

End Elapsed.

(** The one-record binary file: its elapsed time starts at [0.0]. *)
Lemma elapsed_spec_witness :
  exists r t0,
    init "night.dat" one_record_dat = Ok r /\
    nth_error (timestamps r) 0 = Some t0 /\
    is_finite t0 = true /\
    nth_error (elapsed r) 0 = Some 0%float.
Proof.
  destruct (init "night.dat" one_record_dat) as [r|e] eqn:E;
    [|vm_compute in E; discriminate].
  destruct (elapsed_spec "night.dat" one_record_dat r E) as (t0 & H0 & _ & _ & Hf & Hd).
  exists r, t0. split; [reflexivity|]. split; [exact H0|].
  split; [exact (Hd eq_refl)|]. exact (proj1 (Hf (Hd eq_refl))).
Defined.

(** C4 as stated fails for a text file whose timestamps are [inf]: they are
    non-decreasing, yet the elapsed times are [nan], so the first is not [0.0]
    and the sequence is not non-decreasing. *)
Lemma elapsed_of_infinite_timestamps :
  exists r,
    init "night.csv" inf_timestamp_txt = Ok r /\
    timestamps r = [infinity; infinity] /\
    non_decreasing (timestamps r) /\
    elapsed r = [nan; nan] /\
    nth_error (elapsed r) 0 <> Some 0%float /\
    ~ non_decreasing (elapsed r).
Proof.
  destruct (init "night.csv" inf_timestamp_txt) as [r|e] eqn:E;
    [|vm_compute in E; discriminate].
  exists r. split; [reflexivity|].
  vm_compute in E. injection E as <-. cbn [timestamps elapsed].
  split; [reflexivity|]. split.
  - intros [|[|i]] x y Hx Hy; cbn in Hx, Hy; try discriminate.
    injection Hx as <-. injection Hy as <-. reflexivity.
  - split; [reflexivity|]. split.
    + cbn. intros C.
      apply (f_equal (fun o => match o with
                               | Some x => (x =? x)%float
                               | None => false
                               end)) in C.
      vm_compute in C. discriminate.
    + intros C. specialize (C 0%nat nan nan eq_refl eq_refl). vm_compute in C. discriminate.
Qed.

(** ** The y-axis limits *)

Section Ylim.

Local Open Scope float_scope.

Lemma minimum_self v : Np.minimum v v = v.
Proof. unfold Np.minimum. destruct (is_nan v); [reflexivity|]. now destruct (v <? v). Qed.

Lemma maximum_self v : Np.maximum v v = v.
Proof. unfold Np.maximum. destruct (is_nan v); [reflexivity|]. now destruct (v <? v). Qed.

Lemma min_constant v n : Np.min v (repeat v n) = v.
Proof.
  unfold Np.min. induction n as [|n IH]; [reflexivity|].
  cbn [repeat fold_left]. now rewrite minimum_self.
Qed.

Lemma max_constant v n : Np.max v (repeat v n) = v.
Proof.
  unfold Np.max. induction n as [|n IH]; [reflexivity|].
  cbn [repeat fold_left]. now rewrite maximum_self.
Qed.

Lemma non_zero_constant v n : (v =? 0) = false -> Np.non_zero (repeat v n) = repeat v n.
Proof.
  intros Hv. unfold Np.non_zero. induction n as [|n IH]; [reflexivity|].
  cbn [repeat filter]. now rewrite Hv, IH.
Qed.

Lemma non_zero_all_zero values :
  Forall (fun v => (v =? 0) = true) values -> Np.non_zero values = [].
Proof.
  unfold Np.non_zero. induction 1 as [|v values Hv _ IH]; [reflexivity|].
  cbn [filter]. now rewrite Hv.
Qed.

(** [x - x] is [+0] or NaN, and never above 0.1. *)
Lemma span_of_constant v : Py.max 0.1 (v - v) = 0.1.
Proof.
  unfold Py.max. rewrite ltb_spec, sub_spec. unfold SF64sub.
  replace (Prim2SF 0.1) with (S754_finite false 7205759403792794 (-56))
    by (vm_compute; reflexivity).
  destruct (Prim2SF v) as [s|s| |s m e].
  - now destruct s.
  - now destruct s.
  - reflexivity.
  - cbn [SFsub]. now rewrite Z.sub_diag.
Qed.

Lemma SFmul_comm x y : SFmul prec emax x y = SFmul prec emax y x.
Proof.
  destruct x as [sx|sx| |sx mx ex], y as [sy|sy| |sy my ey]; cbn [SFmul];
    try rewrite (xorb_comm sx sy); try reflexivity.
  now rewrite Pos.mul_comm, Z.add_comm.
Qed.

Lemma mul_comm (x y : float) : x * y = y * x.
Proof.
  apply Prim2SF_inj. rewrite !mul_spec. apply SFmul_comm.
Qed.

Lemma is_nan_not_nan x : is_nan x = false -> Ieee.not_nan (Prim2SF x).
Proof.
  unfold is_nan. rewrite eqb_spec. intros H C. rewrite C in H. discriminate.
Qed.

(** Python's [max] of two doubles that are not NaN is the greater of them. *)
Lemma max_is_greater (a b : float) :
  is_nan a = false -> is_nan b = false ->
  (a <=? Py.max a b) = true /\ (b <=? Py.max a b) = true /\
  (Py.max a b = a \/ Py.max a b = b).
Proof.
  intros Ha Hb. apply is_nan_not_nan in Ha. apply is_nan_not_nan in Hb.
  pose proof (Ieee.SFcompare_key _ _ (Prim2SF_valid a) (Prim2SF_valid b) Ha Hb) as C.
  assert (Raa : (a <=? a) = true)
    by (rewrite leb_spec; apply Ieee.SFleb_key; auto using Prim2SF_valid; lra).
  assert (Rbb : (b <=? b) = true)
    by (rewrite leb_spec; apply Ieee.SFleb_key; auto using Prim2SF_valid; lra).
  unfold Py.max. rewrite ltb_spec. unfold SFltb.
  destruct (SFcompare (Prim2SF a) (Prim2SF b)) as [[| |]|]; cbn [Ieee.cmp_spec] in C;
    try contradiction; (split; [|split; [|auto]]); try assumption;
    rewrite leb_spec; apply Ieee.SFleb_key; auto using Prim2SF_valid; lra.
Qed.

(** C5.  The limits [set_non_zero_ylim] hands to the axes: zero-valued
    samples are left out before the minimum and maximum are taken; when none
    is left (every sample is zero) the limits are [0, 1]; otherwise they are
    [min - margin, max + margin] with [margin = 0.05 * max(max - min, 0.1)],
    the greater of the span and 0.1 (0.1 when the span is NaN); a window of
    one nonzero value [v] gives [v - 0.05 * 0.1, v + 0.05 * 0.1], the margin
    being the double product of 0.05 and 0.1 (0.005 to one unit in the last
    place). *)
Theorem set_non_zero_ylim_spec (values : list float) :
  (Forall (fun v => (v =? 0) = true) values -> set_non_zero_ylim values = (0, 1)) /\
  (forall x rest,
      filter (fun v => negb (v =? 0)) values = x :: rest ->
      let lo := Np.min x rest in
      let hi := Np.max x rest in
      let margin := 0.05 * Py.max 0.1 (hi - lo) in
      set_non_zero_ylim values = (lo - margin, hi + margin) /\
      (is_nan (hi - lo) = false ->
       (0.1 <=? Py.max 0.1 (hi - lo)) = true /\
       (hi - lo <=? Py.max 0.1 (hi - lo)) = true /\
       (Py.max 0.1 (hi - lo) = 0.1 \/ Py.max 0.1 (hi - lo) = hi - lo))) /\
  (forall v n,
      values = repeat v (S n) -> (v =? 0) = false ->
      set_non_zero_ylim values = (v - 0.05 * 0.1, v + 0.05 * 0.1)).
Proof.
  split; [|split].
  - intros H. unfold set_non_zero_ylim. now rewrite non_zero_all_zero.
  - intros x rest H lo hi margin. split.
    + unfold set_non_zero_ylim, Np.non_zero. rewrite H.
      unfold margin, lo, hi. now rewrite mul_comm.
    + intros Hs. apply max_is_greater; [reflexivity|exact Hs].
  - intros v n -> Hv. unfold set_non_zero_ylim.
    rewrite non_zero_constant by exact Hv. cbn [repeat].
    rewrite min_constant, max_constant, span_of_constant.
    now rewrite (mul_comm 0.1 0.05).
Qed.

End Ylim.

(** A window of pulse rates that are all 97: the limits as doubles. *)
Lemma set_non_zero_ylim_spec_witness :
  set_non_zero_ylim (repeat 97%float 4) = (96.995, 97.005)%float /\
  set_non_zero_ylim [0; 0; 0]%float = (0, 1)%float /\
  set_non_zero_ylim [0; 60; 0; 70]%float = (59.5, 70.5)%float.
Proof.
  split; [|split].
  - rewrite (proj2 (proj2 (set_non_zero_ylim_spec (repeat 97%float 4))) 97%float 3%nat
               eq_refl eq_refl).
    vm_compute. reflexivity.
  - apply (proj1 (set_non_zero_ylim_spec [0; 0; 0]%float)).
    repeat constructor.
  - vm_compute. reflexivity.
Defined.

(** * Further properties: the reader, the pages of the report and the markup behind it *)

(** ** Where the values of a binary file come from *)

Lemma append_nth values numbers (c : nat) (d : number) :
  (c < List.length values)%nat -> (c < List.length numbers)%nat ->
  nth c (append values numbers) [] = nth c values [] ++ [nth c numbers d].
Proof.
  revert numbers c.
  induction values as [|v values IH]; intros [|x numbers] [|c] Hv Hn; cbn in *; try lia.
  - reflexivity.
  - apply IH; lia.
Qed.

Lemma floats_nth (n : nat) :
  forall (bs : list byte) (j : nat) (d : number),
    (j < n)%nat ->
    nth j (Struct.floats n bs) d = PyFloat (Struct.float32 (firstn 4 (skipn (4 * j) bs))).
Proof.
  induction n as [|n IH]; intros bs j d Hj; [lia|].
  destruct j as [|j]; cbn [Struct.floats nth].
  - reflexivity.
  - rewrite IH by lia. rewrite skipn_skipn.
    now replace (4 * S j)%nat with (4 * j + 4)%nat by lia.
Qed.

Lemma unpacked_field (value_bytes : list byte) (c : nat) (d : number) :
  (c < value_count)%nat ->
  nth c (PyInt (Struct.int64 (firstn 8 value_bytes)) :: Struct.floats 10 (skipn 8 value_bytes)) d
  = record_value c value_bytes.
Proof.
  intros Hc. unfold value_count in Hc. destruct c as [|j]; cbn [nth record_value].
  - unfold slice. reflexivity.
  - rewrite floats_nth by lia. unfold slice. rewrite skipn_skipn.
    replace (8 + 4 * j + 4 - (8 + 4 * j))%nat with 4%nat by lia.
    now replace (8 + 4 * j)%nat with (4 * j + 8)%nat by lia.
Qed.

Lemma read_records_layout (n : nat) :
  forall file_in values,
    List.length file_in = (48 * n)%nat ->
    List.length values = value_count ->
    exists vals,
      read_records file_in values = Ok vals /\
      List.length vals = value_count /\
      forall c, (c < value_count)%nat ->
        nth c vals [] =
        nth c values [] ++
        map (fun i => record_value c (firstn 48 (skipn (48 * i) file_in))) (seq 0 n).
Proof.
  induction n as [|n IH]; intros file_in values Hlen Hv; rewrite read_records_step.
  - destruct file_in; [|discriminate]. cbn [firstn].
    exists values. repeat split; [exact Hv|]. intros c _. cbn. now rewrite app_nil_r.
  - assert (Hf : List.length (firstn 48 file_in) = 48%nat)
      by (rewrite length_firstn; lia).
    destruct (firstn 48 file_in) as [|b l] eqn:E; [discriminate|]. rewrite <- E in *.
    unfold Struct.unpack_q_f, Struct.calcsize_q_f. rewrite Hf.
    change (48 =? 8 + 10 * 4)%nat with true. cbv iota.
    destruct (IH (skipn 48 file_in)
                (append values
                   (PyInt (Struct.int64 (firstn 8 (firstn 48 file_in)))
                    :: Struct.floats 10 (skipn 8 (firstn 48 file_in)))))
      as [vals [Hr [L N]]].
    + rewrite length_skipn. lia.
    + now rewrite append_length.
    + exists vals. split; [exact Hr|]. split; [exact L|].
      intros c Hc. rewrite (N c Hc).
      rewrite (append_nth _ _ c (PyInt 0))
        by (rewrite ?Hv; cbn [List.length]; rewrite ?floats_length;
            unfold value_count in *; lia).
      rewrite unpacked_field by exact Hc.
      rewrite <- app_assoc. f_equal. cbn [seq map app].
      f_equal. rewrite <- seq_shift, map_map. apply map_ext. intros i.
      rewrite skipn_skipn.
      now replace (48 * S i)%nat with (48 * i + 48)%nat by lia.
Qed.

Lemma read_dat_layout (file_in : list byte) (n : nat) :
  List.length file_in = (8 + 48 * n)%nat ->
  exists start vals,
    read_dat file_in = Ok (start, vals) /\
    List.length vals = value_count /\
    forall c, (c < value_count)%nat ->
      nth c vals [] = map (fun i => record_value c (record file_in i)) (seq 0 n).
Proof.
  intros Hlen. rewrite read_dat_spec by lia.
  destruct (read_records_layout n (skipn 8 file_in) (repeat [] value_count))
    as [vals [-> [L N]]].
  - rewrite length_skipn. lia.
  - apply repeat_length.
  - cbn [Py.bind]. eexists _, vals. split; [reflexivity|]. split; [exact L|].
    intros c Hc. rewrite (N c Hc).
    replace (nth c (repeat [] value_count) []) with (@nil number)
      by (symmetry; apply nth_repeat).
    cbn [app]. apply map_ext. intros i. unfold record, slice.
    rewrite skipn_skipn.
    replace (8 + 48 * i + 48 - (8 + 48 * i))%nat with 48%nat by lia.
    now replace (8 + 48 * i)%nat with (48 * i + 8)%nat by lia.
Qed.

Section Layout.

Context {ext : Externals}.

(** X1: a recording built from a binary file holds, in sequence [c] at
    index [i], value [c] of record [i] of the file: the record is the 48
    bytes at offset [8 + 48 i]; its first eight bytes are the timestamp, a
    big-endian signed integer, and the four bytes at offset [8 + 4 j] in it
    are the float of sequence [j + 1].  The thermistor sequence is the one
    that is normalized afterwards. *)
Theorem binary_record_layout name file r :
  endswith name ".dat" = true ->
  init name file = Ok r ->
  exists n,
    List.length (read_bytes file) = (8 + 48 * n)%nat /\
    (forall c, (c < value_count)%nat ->
       nth c (values r) [] = column (read_bytes file) n c) /\
    timestamps r = column (read_bytes file) n 0 /\
    positions r = column (read_bytes file) n 1 /\
    angles r = column (read_bytes file) n 2 /\
    azimuth r = column (read_bytes file) n 3 /\
    pitch r = column (read_bytes file) n 4 /\
    roll r = column (read_bytes file) n 5 /\
    thermistor r = normalize (column (read_bytes file) n 6) /\
    spo2 r = column (read_bytes file) n 7 /\
    pulse_rate r = column (read_bytes file) n 8 /\
    perfusion_index r = column (read_bytes file) n 9 /\
    mean_spo2_wave r = column (read_bytes file) n 10.
Proof.
  intros Hname Hinit.
  destruct (init_ok _ _ _ Hinit)
    as (start & vals & t0 & Hload & _ & _ & Hv & _ & Ht & Hp & Han & Haz & Hpi & Hro
        & Hth & Hsp & Hpu & Hpe & Hme & _).
  unfold load in Hload. rewrite Hname in Hload. bind_inv Hload.
  injection Hload as _ <-.
  destruct (Nat.lt_ge_cases (List.length (read_bytes file)) 8) as [Hlt|Hge];
    [rewrite read_dat_header in Ha by exact Hlt; discriminate|].
  destruct (Nat.eq_dec ((List.length (read_bytes file) - 8) mod 48) 0) as [Hz|Hnz];
    [|rewrite read_dat_partial in Ha by assumption; discriminate].
  set (n := ((List.length (read_bytes file) - 8) / 48)%nat).
  assert (Hlen : List.length (read_bytes file) = (8 + 48 * n)%nat).
  { pose proof (Nat.div_mod_eq (List.length (read_bytes file) - 8) 48). subst n. lia. }
  destruct (read_dat_layout _ _ Hlen) as (start' & vals' & E & L & N).
  rewrite E in Ha. injection Ha as <-. cbn [snd] in Hv.
  assert (C : forall c, (c < value_count)%nat ->
                nth c (values r) [] = column (read_bytes file) n c).
  { intros c Hc. rewrite Hv. change (@nil float) with (Np.array []).
    rewrite map_nth, (N c Hc). unfold column, Np.array. now rewrite map_map. }
  exists n. split; [exact Hlen|]. split; [exact C|].
  rewrite Ht, Hp, Han, Haz, Hpi, Hro, Hth, Hsp, Hpu, Hpe, Hme.
  repeat split; try (apply C; unfold value_count; lia).
  f_equal. apply C. unfold value_count. lia.
Qed.

End Layout.
(** The one-record file: its timestamp is the integer of bytes 8 to 15, its
    SpO2 value the float of bytes 40 to 43. *)
Lemma binary_record_layout_witness :
  exists r,
    init "night.dat" one_record_dat = Ok r /\
    timestamps r = column (read_bytes one_record_dat) 1 0 /\
    spo2 r = column (read_bytes one_record_dat) 1 7.
Proof.
  destruct (init "night.dat" one_record_dat) as [r|e] eqn:E;
    [|vm_compute in E; discriminate].
  destruct (binary_record_layout "night.dat" one_record_dat r eq_refl E)
    as (n & Hlen & _ & Ht & _ & _ & _ & _ & _ & _ & Hs & _).
  assert (L : List.length (read_bytes one_record_dat) = 56%nat) by reflexivity.
  assert (n = 1%nat) as -> by lia.
  exists r. repeat split; assumption.
Defined.

(** ** How long the sequences of a text file are *)

Lemma split_not_nil (sep : ascii) (s : string) : (1 <= List.length (split sep s))%nat.
Proof.
  induction s as [|c s IH]; cbn; [lia|].
  destruct (Ascii.eqb c sep); [cbn; lia|].
  destruct (split sep s); cbn in *; lia.
Qed.

Lemma append_nth_length values numbers (c : nat) :
  (c < List.length values)%nat ->
  List.length (nth c (append values numbers) []) =
  (List.length (nth c values []) + if (c <? List.length numbers)%nat then 1 else 0)%nat.
Proof.
  revert numbers c.
  induction values as [|v values IH]; intros [|x numbers] [|c] Hc; cbn in *; try lia.
  - rewrite length_app. cbn. lia.
  - rewrite IH by lia. reflexivity.
Qed.

Section TextLengths.

Context {ext : Externals}.

Lemma read_lines_lengths lines :
  forall values vals,
    read_lines lines values = Ok vals ->
    List.length vals = List.length values /\
    forall c, (c < List.length values)%nat ->
      List.length (nth c vals []) =
      (List.length (nth c values []) + List.length (lines_reaching c lines))%nat.
Proof.
  induction lines as [|line lines IH]; intros values vals H; cbn in H.
  - injection H as <-. split; [reflexivity|]. intros c _. cbn. lia.
  - bind_inv H. apply parse_line_length in Ha.
    destruct (IH _ _ H) as [L N]. rewrite append_length in L, N.
    split; [exact L|]. intros c Hc.
    rewrite (N c Hc), append_nth_length by exact Hc. rewrite Ha.
    unfold lines_reaching. cbn [filter].
    destruct (c <? List.length (split "," line))%nat; cbn [List.length]; lia.
Qed.

Lemma read_lines_good lines :
  forall values,
    first_bad lines = None -> exists vals, read_lines lines values = Ok vals.
Proof.
  induction lines as [|line lines IH]; intros values H; cbn in *; [eauto|].
  destruct (first_bad_field line) as [f|] eqn:E; [discriminate|].
  unfold first_bad_field in E. unfold parse_line.
  destruct (comprehension_good _ E) as [numbers ->]. cbn [Py.bind]. now apply IH.
Qed.

(** X2: a sequence of a recording built from a text file has one sample
    for each line that reaches it: sequence [c] is as long as there are lines
    with more than [c] fields.  Every line has a first field, so there are as
    many timestamps as lines. *)
Theorem text_sequence_lengths name file r :
  endswith name ".dat" = false ->
  init name file = Ok r ->
  (forall c, (c < value_count)%nat ->
     List.length (nth c (values r) []) =
     List.length (lines_reaching c (splitlines (read_text file)))) /\
  List.length (timestamps r) = List.length (splitlines (read_text file)).
Proof.
  intros Hname Hinit.
  destruct (init_ok _ _ _ Hinit) as (start & vals & t0 & Hload & _ & _ & Hv & _ & Ht & _).
  unfold load in Hload. rewrite Hname in Hload. bind_inv Hload.
  injection Hload as _ <-. unfold read_txt in Ha.
  destruct (read_lines_lengths _ _ _ Ha) as [L N]. rewrite repeat_length in L, N.
  assert (C : forall c, (c < value_count)%nat ->
                List.length (nth c (values r) []) =
                List.length (lines_reaching c (splitlines (read_text file)))).
  { intros c Hc. rewrite Hv. change (@nil float) with (Np.array []).
    rewrite map_nth. unfold Np.array. rewrite length_map, (N c Hc).
    rewrite nth_repeat. reflexivity. }
  split; [exact C|].
  rewrite Ht, C by (unfold value_count; lia).
  unfold lines_reaching. f_equal. apply forallb_filter_id.
  apply forallb_forall. intros line _. apply Nat.ltb_lt.
  pose proof (split_not_nil "," line). lia.
Qed.

Lemma lines_reaching_none (c : nat) (lines : list string) :
  ~ Exists (fun line => (S c <= List.length (split "," line))%nat) lines ->
  lines_reaching c lines = [].
Proof.
  intros H. unfold lines_reaching.
  induction lines as [|line lines IH]; [reflexivity|]. cbn [filter].
  destruct (Nat.ltb_spec c (List.length (split "," line))).
  - elim H. constructor. lia.
  - apply IH. intros Hex. apply H. now constructor 2.
Qed.

Lemma lines_reaching_some (c : nat) (lines : list string) :
  Exists (fun line => (S c <= List.length (split "," line))%nat) lines ->
  lines_reaching c lines <> [].
Proof.
  intros H. unfold lines_reaching. apply Exists_exists in H.
  destruct H as [line [Hin Hlen]].
  assert (In line (filter (fun line => (c <? List.length (split "," line))%nat) lines)).
  { apply filter_In. split; [exact Hin|]. apply Nat.ltb_lt. lia. }
  intros E. rewrite E in H. contradiction.
Qed.

Lemma lines_reaching_fewer (c d : nat) (lines : list string) :
  (c <= d)%nat -> lines_reaching d lines <> [] -> lines_reaching c lines <> [].
Proof.
  intros Hcd H. apply lines_reaching_some.
  destruct (lines_reaching d lines) as [|line rest] eqn:E; [contradiction|].
  assert (Hin : In line (lines_reaching d lines)) by (rewrite E; now left).
  apply filter_In in Hin. destruct Hin as [Hin Hlen]. apply Nat.ltb_lt in Hlen.
  apply Exists_exists. exists line. split; [exact Hin|lia].
Qed.

(** X3: what the constructor does with a text file, in full.  If a field
    is not a number, [float] raises [ValueError] with the first such field.
    Otherwise the recording is built when some line has at least seven
    fields, so that the timestamp, position and thermistor sequences are not
    empty; when no line has, one of the three reads of a first element
    raises [IndexError]. *)
Theorem text_construction_outcome name file :
  endswith name ".dat" = false ->
  match first_bad (splitlines (read_text file)) with
  | Some field => init name file = Raise (ValueError field)
  | None =>
      (Exists (fun line => (7 <= List.length (split "," line))%nat)
         (splitlines (read_text file)) ->
       exists r, init name file = Ok r) /\
      (~ Exists (fun line => (7 <= List.length (split "," line))%nat)
           (splitlines (read_text file)) ->
       init name file = Raise (IndexError 0 0))
  end.
Proof.
  intros Hname. destruct (first_bad (splitlines (read_text file))) as [field|] eqn:Hbad.
  - unfold init, load, read_txt. rewrite Hname.
    now rewrite (read_lines_bad _ _ _ Hbad).
  - destruct (read_lines_good _ (repeat [] value_count) Hbad) as [vals Hvals].
    destruct (read_lines_lengths _ _ _ Hvals) as [L N]. rewrite repeat_length in L, N.
    assert (Hload : load name file = Ok (None, vals)).
    { unfold load, read_txt. rewrite Hname, Hvals. reflexivity. }
    assert (C : forall c, (c < value_count)%nat ->
                  List.length (nth c (map Np.array vals) []) =
                  List.length (lines_reaching c (splitlines (read_text file)))).
    { intros c Hc. change (@nil float) with (Np.array []).
      rewrite map_nth. unfold Np.array. rewrite length_map, (N c Hc).
      rewrite nth_repeat. reflexivity. }
    assert (Z : forall c, (c < value_count)%nat ->
                  lines_reaching c (splitlines (read_text file)) <> [] ->
                  nth c (map Np.array vals) [] <> []).
    { intros c Hc Hne E. apply (f_equal (@List.length float)) in E.
      rewrite C in E by exact Hc. now destruct (lines_reaching c _). }
    split.
    + intros Hex. apply lines_reaching_some in Hex.
      apply (init_total name file None vals Hload); apply Z; unfold value_count; try lia.
      * apply (lines_reaching_fewer 0 6); [lia|exact Hex].
      * apply (lines_reaching_fewer 1 6); [lia|exact Hex].
      * exact Hex.
    + intros Hnone. apply lines_reaching_none in Hnone.
      assert (H6 : nth 6 (map Np.array vals) [] = []).
      { apply length_zero_iff_nil. rewrite C by (unfold value_count; lia).
        now rewrite Hnone. }
      unfold init. rewrite Hload. cbn [Py.bind fst snd].
      destruct (nth 0 (map Np.array vals) []) as [|t0 ts]; [reflexivity|].
      cbn [Np.getitem nth_error Py.bind].
      destruct (nth 1 (map Np.array vals) []) as [|p0 ps] eqn:E1.
      * now rewrite filtered_empty.
      * destruct (filtered_ok 3 0.1 Signal.low (p0 :: ps)) as [lp [-> _]]; [discriminate|].
        destruct (filtered_ok 3 0.3 Signal.high (p0 :: ps)) as [hp [-> _]]; [discriminate|].
        cbn [Py.bind]. rewrite H6. unfold normalize. cbn [map].
        now rewrite filtered_empty.
Qed.

End TextLengths.
(** A text of two lines, of eleven and of three fields: two timestamps, one
    SpO2 value. *)
Lemma text_sequence_lengths_witness :
  exists r,
    init "night.csv" short_line_txt = Ok r /\
    List.length (timestamps r) = 2%nat /\
    List.length (nth 7 (values r) []) = 1%nat.
Proof.
  destruct (init "night.csv" short_line_txt) as [r|e] eqn:E;
    [|vm_compute in E; discriminate].
  destruct (text_sequence_lengths "night.csv" short_line_txt r eq_refl E) as [C T].
  exists r. split; [reflexivity|]. split.
  - rewrite T. vm_compute. reflexivity.
  - rewrite C by (unfold value_count; lia). vm_compute. reflexivity.
Defined.

(** The same text: every field is a number and the first line has eleven
    fields, so the recording is built. *)
Lemma text_construction_outcome_witness :
  exists r, init "night.csv" short_line_txt = Ok r.
Proof.
  pose proof (text_construction_outcome "night.csv" short_line_txt eq_refl) as H.
  assert (E : first_bad (splitlines (read_text short_line_txt)) = None)
    by (vm_compute; reflexivity).
  rewrite E in H. apply (proj1 H).
  assert (L : splitlines (read_text short_line_txt) =
              ["1,2,3,4,5,6,7,8,9,10,11"; "2,3,4"]%string)
    by (vm_compute; reflexivity).
  rewrite L. apply Exists_cons_hd. vm_compute. lia.
Defined.

(** ** The fields of a text line after the eleventh *)

Lemma comprehension_firstn {A B : Type} (f : A -> result B) (k : nat) :
  forall (l : list A) (ys : list B),
    comprehension f l = Ok ys ->
    comprehension f (firstn k l) = Ok (firstn k ys).
Proof.
  induction k as [|k IH]; intros l ys H; [reflexivity|].
  destruct l as [|x l]; cbn in H.
  - injection H as <-. reflexivity.
  - bind_inv H. bind_inv H. injection H as <-.
    cbn [firstn comprehension]. rewrite Ha. cbn [Py.bind].
    rewrite (IH _ _ Ha0). reflexivity.
Qed.

Lemma append_firstn (k : nat) :
  forall values numbers,
    (List.length values <= k)%nat ->
    append values numbers = append values (firstn k numbers).
Proof.
  induction k as [|k IH]; intros values numbers Hk.
  - destruct values; [now destruct numbers|cbn in Hk; lia].
  - destruct values as [|v values]; [now destruct numbers|].
    destruct numbers as [|x numbers]; [reflexivity|].
    cbn [firstn append]. f_equal. apply IH. cbn in Hk. lia.
Qed.

Section TextFields.

Context {ext : Externals}.

Lemma read_lines_first_fields (k : nat) (lines1 : list string) :
  forall lines2 values vals1 vals2,
    (List.length values <= k)%nat ->
    map (fun line => firstn k (split "," line)) lines1 =
    map (fun line => firstn k (split "," line)) lines2 ->
    read_lines lines1 values = Ok vals1 ->
    read_lines lines2 values = Ok vals2 ->
    vals1 = vals2.
Proof.
  induction lines1 as [|l1 lines1 IH]; intros [|l2 lines2] values vals1 vals2 Hk Hmap H1 H2;
    try discriminate; cbn in H1, H2.
  - congruence.
  - bind_inv H1. bind_inv H2. injection Hmap as Hl Hmap.
    apply (comprehension_firstn _ k) in Ha as F1.
    apply (comprehension_firstn _ k) in Ha0 as F2.
    rewrite Hl, F2 in F1. injection F1 as F.
    rewrite (append_firstn k) in H1 by exact Hk.
    rewrite (append_firstn k) in H2 by exact Hk.
    rewrite <- F in H1.
    eapply IH; [|exact Hmap|exact H1|exact H2]. now rewrite append_length.
Qed.

(** X4: of a text line only the first eleven fields reach the recording.
    Two text files whose lines agree on their first eleven fields, and which
    both make a recording, make the same one. *)
Theorem fields_beyond_eleven_ignored name file1 file2 r1 r2 :
  endswith name ".dat" = false ->
  init name file1 = Ok r1 ->
  init name file2 = Ok r2 ->
  map (fun line => firstn value_count (split "," line)) (splitlines (read_text file1)) =
  map (fun line => firstn value_count (split "," line)) (splitlines (read_text file2)) ->
  r1 = r2.
Proof.
  intros Hname H1 H2 Hmap.
  assert (L1 : exists v, read_txt (read_text file1) = Ok v).
  { destruct (init_ok _ _ _ H1) as (s & v & t & Hl & _). unfold load in Hl.
    rewrite Hname in Hl. bind_inv Hl. eauto. }
  assert (L2 : exists v, read_txt (read_text file2) = Ok v).
  { destruct (init_ok _ _ _ H2) as (s & v & t & Hl & _). unfold load in Hl.
    rewrite Hname in Hl. bind_inv Hl. eauto. }
  destruct L1 as [v1 E1]. destruct L2 as [v2 E2].
  assert (v1 = v2).
  { unfold read_txt in E1, E2.
    eapply (read_lines_first_fields value_count); [|exact Hmap|exact E1|exact E2].
    now rewrite repeat_length. }
  subst v2. unfold init, load in H1, H2. rewrite Hname in H1, H2.
  rewrite E1 in H1. rewrite E2 in H2. congruence.
Qed.

End TextFields.
(** A line of eleven fields and the same line with a twelfth field. *)
Lemma fields_beyond_eleven_ignored_witness :
  exists r1 r2,
    init "night.csv" eleven_fields_txt = Ok r1 /\
    init "night.csv" twelve_fields_txt = Ok r2 /\
    r1 = r2.
Proof.
  destruct (init "night.csv" eleven_fields_txt) as [r1|e] eqn:E1;
    [|vm_compute in E1; discriminate].
  destruct (init "night.csv" twelve_fields_txt) as [r2|e] eqn:E2;
    [|vm_compute in E2; discriminate].
  exists r1, r2. split; [reflexivity|]. split; [reflexivity|].
  apply (fields_beyond_eleven_ignored "night.csv" eleven_fields_txt twelve_fields_txt
           r1 r2 eq_refl E1 E2).
  vm_compute. reflexivity.
Defined.

(** ** The pages of the report *)

Lemma for_each_ok {A B : Type} (body : A -> Report.result B) (P : A -> B -> Prop) (l : list A) :
  (forall a, In a l -> exists b, body a = Report.Ok b /\ P a b) ->
  exists bs,
    Report.for_each body l = Report.Ok bs /\
    List.length bs = List.length l /\
    forall k a b, nth_error l k = Some a -> nth_error bs k = Some b -> P a b.
Proof.
  induction l as [|a l IH]; intros H.
  - exists []. repeat split; auto. intros [|k] ? ? ?; discriminate.
  - destruct (H a (or_introl eq_refl)) as [b [Hb Pb]].
    destruct IH as [bs [E [L N]]]; [intros a' Ha'; apply H; now right|].
    exists (b :: bs). cbn [Report.for_each Report.bind]. rewrite Hb. cbn [Report.bind].
    rewrite E. cbn [Report.bind]. repeat split; [cbn; now rewrite L|].
    intros [|k] a' b' Ha' Hb'; cbn in Ha', Hb'.
    + injection Ha' as <-. injection Hb' as <-. exact Pb.
    + eapply N; eassumption.
Qed.

Lemma region_head {A : Type} (point_idx : nat) (values : list A) (v : A) :
  nth_error values point_idx = Some v ->
  exists rest, region point_idx values = v :: rest.
Proof.
  intros H. rewrite region_firstn.
  destruct (nth_error_split _ _ H) as (l1 & l2 & -> & <-).
  rewrite skipn_app, skipn_all, Nat.sub_diag. cbn. eauto.
Qed.

Lemma window_start_in_range (n point_idx : nat) :
  In point_idx (window_starts n) ->
  exists k, point_idx = (k * max_data_points)%nat /\ (point_idx < n)%nat.
Proof.
  rewrite window_starts_seq. intros H. apply in_map_iff in H.
  destruct H as [k [<- Hk]]. apply in_seq in Hk. exists k. split; [reflexivity|].
  pose proof (window_count_bounds n) as B. cbv zeta in B.
  unfold max_data_points in *. nia.
Qed.

Section Pages.

Context {ext : Externals}.

(** X5: a recording built from a text file has no start timestamp, and the
    loop of [process_files] over its windows ends in its first turn, at
    [data.start_unix_timestamp + data.elapsed[point_idx]], with the
    [TypeError] of [None + float]: no page is made. *)
Theorem text_recording_has_no_page name file r :
  endswith name ".dat" = false ->
  init name file = Ok r ->
  start_unix_timestamp r = None /\
  pages r = Report.Raise Report.TypeError.
Proof.
  intros Hname Hinit. split.
  - destruct (init_ok _ _ _ Hinit) as (start & vals & t0 & Hload & _ & _ & _ & Hstart & _).
    unfold load in Hload. rewrite Hname in Hload. bind_inv Hload.
    injection Hload as <- _. exact Hstart.
  - destruct (text_recording_first_page name file r Hname Hinit) as (starts & Hs & Hp).
    unfold pages. rewrite Hs. cbn [Report.for_each]. rewrite Hp. reflexivity.
Qed.

Lemma binary_recording_page name file r :
  endswith name ".dat" = true ->
  init name file = Ok r ->
  exists start,
    start_unix_timestamp r = Some start /\
    forall point_idx,
      In point_idx (window_starts (List.length (Report.negative (positions r)))) ->
      exists p,
        page_of r (Report.negative (positions r)) point_idx = Report.Ok p /\
        page_at r start point_idx p.
Proof.
  intros Hname Hinit.
  destruct (binary_recording_lengths _ _ _ Hname Hinit)
    as (start & n & Hstart & Hn & Lel & Lpo & Lro & Lpi & Lth & Lsp & Lpu & Lpe & Lme).
  exists start. split; [exact Hstart|].
  intros point_idx Hin.
  apply window_start_in_range in Hin. destruct Hin as [k [-> Hlt]].
  unfold Report.negative in Hlt. rewrite length_map, Lpo in Hlt.
  destruct (nth_error (elapsed r) (k * max_data_points)) as [e|] eqn:He;
    [|apply nth_error_None in He; lia].
  destruct (region_head _ _ _ He) as [rest Hx].
  unfold page_of, Np.getitem. rewrite He, Hstart.
  cbn [Report.builtin Report.bind Report.add]. rewrite Hx.
  eexists. split; [reflexivity|]. exists e.
  cbn [Report.timestamp Report.x Report.y Report.roll Report.pitch Report.thermistor_low_pass
       Report.spo2 Report.pulse_rate Report.perfusion_index Report.mean_spo2_wave Report.xlim].
  rewrite <- Hx. unfold Report.degrees, Report.negative.
  rewrite ?length_map, !region_length, ?length_map, Lel, Lpo, Lro, Lpi, Lth, Lsp, Lpu, Lpe, Lme.
  repeat split; try reflexivity; try exact He; unfold max_data_points in *; try lia.
  rewrite Hx. cbn [last]. destruct rest; reflexivity.
Qed.

(** The loop over the windows of a binary recording comes to its end. *)
Lemma binary_recording_pages_ok name file r :
  endswith name ".dat" = true ->
  init name file = Ok r ->
  exists ps, pages r = Report.Ok ps.
Proof.
  intros Hname Hinit.
  destruct (binary_recording_page name file r Hname Hinit) as (start & _ & H).
  destruct (for_each_ok (page_of r (Report.negative (positions r))) (page_at r start) _ H)
    as [ps [E _]].
  exists ps. exact E.
Qed.

(** X6: for a recording built from a binary file the expressions of the
    loop body raise nothing, in any window.  There is one page for each
    1000 samples (the last for what is left); the page of window [k]
    carries the timestamp [start + elapsed[1000 k]], its time axis runs from
    [elapsed[1000 k]] to the last time of the window, and its nine series
    all have the length of [x], between 1 and 1000. *)
Theorem binary_recording_pages name file r :
  endswith name ".dat" = true ->
  init name file = Ok r ->
  exists start ps,
    start_unix_timestamp r = Some start /\
    pages r = Report.Ok ps /\
    List.length ps = ((List.length (positions r) + 999) / max_data_points)%nat /\
    forall k p, nth_error ps k = Some p -> page_at r start (k * max_data_points) p.
Proof.
  intros Hname Hinit.
  destruct (binary_recording_page name file r Hname Hinit) as (start & Hstart & H).
  destruct (for_each_ok (page_of r (Report.negative (positions r))) (page_at r start) _ H)
    as [ps [E [L N]]].
  exists start, ps. split; [exact Hstart|]. split; [exact E|]. split.
  - rewrite L, window_starts_seq, length_map, length_seq.
    unfold Report.negative. now rewrite length_map.
  - intros k p Hp.
    destruct (nth_error (window_starts (List.length (Report.negative (positions r)))) k)
      as [a|] eqn:Ha.
    + assert (a = (k * max_data_points)%nat) as ->.
      { rewrite window_starts_seq, nth_error_map in Ha.
        destruct (nth_error (seq 0 _) k) as [j|] eqn:Hj; [|discriminate].
        injection Ha as <-.
        assert (Hk : (k < List.length (seq 0 ((List.length (Report.negative (positions r)) + 999)
                                              / max_data_points)))%nat)
          by (apply nth_error_Some; congruence).
        rewrite nth_error_nth' with (d := 0%nat) in Hj by exact Hk.
        rewrite length_seq in Hk. rewrite seq_nth in Hj by exact Hk.
        injection Hj as <-. reflexivity. }
      exact (N _ _ _ Ha Hp).
    + apply nth_error_None in Ha. rewrite <- L in Ha.
      apply nth_error_None in Ha. congruence.
Qed.

End Pages.
(** A text file that makes a recording: the loop makes no page. *)
Lemma text_recording_has_no_page_witness :
  exists r,
    init "night.csv" short_line_txt = Ok r /\
    pages r = Report.Raise Report.TypeError.
Proof.
  destruct (init "night.csv" short_line_txt) as [r|e] eqn:E;
    [|vm_compute in E; discriminate].
  exists r. split; [reflexivity|].
  apply (text_recording_has_no_page "night.csv" short_line_txt r eq_refl E).
Defined.

(** The one-record binary file: its pages are computed. *)
Lemma binary_recording_pages_witness :
  exists r start ps,
    init "night.dat" one_record_dat = Ok r /\
    start_unix_timestamp r = Some start /\
    pages r = Report.Ok ps /\
    List.length ps = ((List.length (positions r) + 999) / max_data_points)%nat.
Proof.
  destruct (init "night.dat" one_record_dat) as [r|e] eqn:E;
    [|vm_compute in E; discriminate].
  destruct (binary_recording_pages "night.dat" one_record_dat r eq_refl E)
    as (start & ps & Hs & Hp & Hl & _).
  exists r, start, ps. repeat split; assumption.
Defined.

(** ** The time between sensor readings *)

(** The difference of two doubles between [lo] and [hi] is finite when the
    two differences of [lo] and [hi] are. *)
Lemma sub_finite_between (lo hi a d : float) :
  Ieee.finite lo -> Ieee.finite hi ->
  Ieee.finite (hi - lo) -> Ieee.finite (lo - hi) ->
  (lo <=? a)%float = true -> (a <=? hi)%float = true ->
  (lo <=? d)%float = true -> (d <=? hi)%float = true ->
  Ieee.finite (a - d).
Proof.
  intros Flo Fhi Fhl Flh La Ha Ld Hd.
  rewrite leb_spec in La, Ha, Ld, Hd.
  pose proof (Ieee.SFleb_between _ _ _ Flo Fhi La Ha) as Fa.
  pose proof (Ieee.SFleb_between _ _ _ Flo Fhi Ld Hd) as Fd.
  pose proof (Prim2SF_valid lo) as Vlo. pose proof (Prim2SF_valid hi) as Vhi.
  pose proof (Prim2SF_valid a) as Va. pose proof (Prim2SF_valid d) as Vd.
  assert (N : forall x, Ieee.finite_or_zero x -> Ieee.not_nan x)
    by (intros [| | |]; try contradiction; discriminate).
  apply Ieee.SFleb_key in La, Ha, Ld, Hd; auto.
  unfold Ieee.finite in *. rewrite sub_spec in *. unfold SF64sub in *.
  pose proof (Ieee.SFsub_Rounded _ _ Va Vd Fa Fd) as R.
  pose proof (Ieee.SFsub_Rounded _ _ Vhi Vlo Fhi Flo) as Rhi.
  pose proof (Ieee.SFsub_Rounded _ _ Vlo Vhi Flo Fhi) as Rlo.
  apply (Ieee.SFleb_between _ _ _ Flh Fhl).
  - apply (Ieee.Rounded_mono _ _ _ _ Rlo R). lra.
  - apply (Ieee.Rounded_mono _ _ _ _ R Rhi). lra.
Qed.

Lemma float_of_int_between (z : Z) :
  (- 2 ^ 63 <= z <= 2 ^ 63)%Z ->
  (Np.float_of_int (- 2 ^ 63) <=? Np.float_of_int z)%float = true /\
  (Np.float_of_int z <=? Np.float_of_int (2 ^ 63))%float = true.
Proof.
  intros Hz. unfold Np.float_of_int. rewrite !leb_spec.
  pose proof (Ieee.binary_normalize_Rounded z 0 false) as R.
  pose proof (Ieee.binary_normalize_Rounded (2 ^ 63) 0 false) as Rhi.
  pose proof (Ieee.binary_normalize_Rounded (- 2 ^ 63) 0 false) as Rlo.
  rewrite !Prim2SF_SF2Prim
    by (eapply proj1, Ieee.Rounded_props, Ieee.binary_normalize_Rounded).
  split.
  - apply (Ieee.Rounded_mono _ _ _ _ Rlo R).
    unfold Ieee.F2R. apply Rmult_le_compat_r; [|apply IZR_le; lia].
    apply Rlt_le, Ieee.bpow_gt_0.
  - apply (Ieee.Rounded_mono _ _ _ _ R Rhi).
    unfold Ieee.F2R. apply Rmult_le_compat_r; [|apply IZR_le; lia].
    apply Rlt_le, Ieee.bpow_gt_0.
Qed.

(** The elapsed time between two timestamps of a binary file is finite. *)
Lemma elapsed_value_finite (t t0 : number) :
  int64_number t -> int64_number t0 ->
  Ieee.finite (Np.float64 t / 1.0e9 - Np.float64 t0 / 1.0e9).
Proof.
  intros [z [-> Hz]] [z0 [-> Hz0]]. cbn [Np.float64].
  destruct billion_positive as (mc & ec & Hc).
  destruct (float_of_int_between z Hz) as [L H].
  destruct (float_of_int_between z0 Hz0) as [L0 H0].
  apply (Ieee.div_mono _ _ _ mc ec Hc) in L, H, L0, H0.
  apply (sub_finite_between (Np.float_of_int (- 2 ^ 63) / 1.0e9)
           (Np.float_of_int (2 ^ 63) / 1.0e9)); try assumption;
    unfold Ieee.finite; vm_compute; exact I.
Qed.

Lemma diff_length (a : list float) :
  List.length (Report.diff a) = List.length (removelast a).
Proof.
  induction a as [|v [|w a] IH]; try reflexivity.
  change (Report.diff (v :: w :: a)) with ((w - v)%float :: Report.diff (w :: a)).
  change (removelast (v :: w :: a)) with (v :: removelast (w :: a)).
  cbn [List.length]. now rewrite IH.
Qed.

Lemma removelast_length {A : Type} (l : list A) :
  List.length (removelast l) = (List.length l - 1)%nat.
Proof.
  destruct l as [|x l] using rev_ind; [reflexivity|].
  rewrite removelast_last, length_app. cbn. lia.
Qed.

Lemma diff_non_negative (a : list float) :
  Forall (fun v => Ieee.finite v) a ->
  non_decreasing a ->
  Forall (fun d => (0 <=? d)%float = true) (Report.diff a).
Proof.
  induction a as [|v [|w a] IH]; intros Hfin Hmono; try constructor.
  - inversion Hfin as [|? ? Fv _]; subst.
    rewrite <- (Ieee.sub_diag v Fv). apply Ieee.sub_mono; [exact Fv|].
    apply (Hmono 0%nat v w); reflexivity.
  - apply IH; [now inversion Hfin|].
    intros i x y Hx Hy. apply (Hmono (S i) x y); assumption.
Qed.

Section FirstFigure.

Context {ext : Externals}.

(** X7: the first figure, "Time Between Sensor Readings".  Its two
    arguments have the same length, one less than the number of samples, and
    for a recording built from a binary file whose timestamps do not decrease
    every plotted difference is a double that is at least zero (never a NaN,
    never negative). *)
Theorem first_figure_of_a_recording name file r :
  init name file = Ok r ->
  List.length (fst (first_figure r)) = List.length (snd (first_figure r)) /\
  List.length (snd (first_figure r)) = (List.length (timestamps r) - 1)%nat /\
  (endswith name ".dat" = true ->
   non_decreasing (timestamps r) ->
   Forall (fun d => (0 <=? d)%float = true) (snd (first_figure r))).
Proof.
  intros Hinit.
  destruct (init_ok _ _ _ Hinit)
    as (start & vals & t0 & Hload & Ht0 & _ & Hv & _ & Ht & _ & _ & _ & _ & _
        & _ & _ & _ & _ & _ & Hel & _).
  unfold first_figure. cbn [fst snd].
  split; [now rewrite diff_length|].
  split.
  - rewrite diff_length, removelast_length, Hel, length_map. reflexivity.
  - intros Hname Hmono.
    pose proof (load_dat_timestamps _ _ _ _ Hname Hload) as Hint.
    assert (Hts : timestamps r = map Np.float64 (nth 0 vals [])).
    { rewrite Ht, Hv. change (@nil float) with (Np.array []). now rewrite map_nth. }
    assert (H0 : exists n0, int64_number n0 /\ t0 = Np.float64 n0).
    { rewrite <- Hv, <- Ht, Hts in Ht0.
      destruct (nth 0 vals []) as [|n0 ns]; [discriminate|].
      cbn in Ht0. injection Ht0 as <-. inversion Hint; subst. eauto. }
    destruct H0 as (n0 & Hn0 & ->).
    apply diff_non_negative.
    + rewrite Hel, Hts, map_map. apply Forall_map.
      eapply Forall_impl; [|exact Hint]. intros t Hint'. cbn beta.
      now apply elapsed_value_finite.
    + rewrite Hel. apply map_non_decreasing; [|exact Hmono].
      intros x y Hxy. apply elapsed_step_mono; [|exact Hxy].
      apply seconds_finite. now apply float64_int64_finite.
Qed.

End FirstFigure.
(** The binary file of two records, 1000000002 nanoseconds apart: its
    timestamps do not decrease, and the one difference plotted is the
    double next below 1.000000002. *)
Lemma first_figure_of_a_recording_witness :
  exists r,
    init "night.dat" two_record_dat = Ok r /\
    non_decreasing (timestamps r) /\
    first_figure r = ([0%float], [1.0000000019999999%float]) /\
    List.length (fst (first_figure r)) = List.length (snd (first_figure r)) /\
    List.length (snd (first_figure r)) = (List.length (timestamps r) - 1)%nat /\
    Forall (fun d => (0 <=? d)%float = true) (snd (first_figure r)).
Proof.
  assert (H : Py.bind (init "night.dat" two_record_dat)
                (fun r => Ok (timestamps r, first_figure r)) =
              Ok ([1%float; 1000000003%float], ([0%float], [1.0000000019999999%float])))
    by (vm_compute; reflexivity).
  destruct (init "night.dat" two_record_dat) as [r|e] eqn:E; [|discriminate H].
  cbn [Py.bind] in H. injection H as Ht Hfst Hsnd.
  assert (Hf : first_figure r = ([0%float], [1.0000000019999999%float]))
    by (unfold first_figure; now rewrite Hfst, Hsnd).
  assert (Hmono : non_decreasing (timestamps r)).
  { rewrite Ht. intros [|[|i]] x y Hx Hy; cbn in Hx, Hy; try discriminate.
    injection Hx as <-. injection Hy as <-. reflexivity. }
  destruct (first_figure_of_a_recording "night.dat" two_record_dat r E) as (H1 & H2 & H3).
  exists r. repeat split; [exact Hmono|exact Hf|exact H1|exact H2|exact (H3 eq_refl Hmono)].
Defined.

(** ** The y-axis limits enclose the data *)

(** A double that is a number: valid, and no NaN.  Its place on the real
    line is [Ieee.key]. *)
Local Abbreviation is_number x := (valid_binary x = true /\ Ieee.not_nan x).

Section NumberOrder.

Local Open Scope R_scope.

Lemma finite_number x : valid_binary x = true -> Ieee.finite_or_zero x -> is_number x.
Proof.
  intros V F. split; [exact V|]. destruct x; try contradiction; discriminate.
Qed.

Lemma leb_key x y : is_number x -> is_number y -> (SFleb x y = true <-> Ieee.key x <= Ieee.key y).
Proof.
  intros [Vx Nx] [Vy Ny]. now apply Ieee.SFleb_key.
Qed.

Lemma ltb_key x y : is_number x -> is_number y -> (SFltb x y = true <-> Ieee.key x < Ieee.key y).
Proof.
  intros [Vx Nx] [Vy Ny]. pose proof (Ieee.SFcompare_key x y Vx Vy Nx Ny) as C.
  unfold SFltb. destruct (SFcompare x y) as [[| |]|]; cbn in C; split; intros H;
    try reflexivity; try discriminate; try lra; contradiction.
Qed.

Lemma rounded_number v r : Ieee.Rounded v r -> is_number r.
Proof.
  intros H. destruct (Ieee.Rounded_props _ _ H). now split.
Qed.

Lemma rounded_sign v r : Ieee.Rounded v r -> 0 <= v -> 0 <= Ieee.key r.
Proof.
  intros H Hv.
  assert (Z : Ieee.Rounded 0 (S754_zero false)) by (left; split; [reflexivity|eauto]).
  exact (Ieee.Rounded_key_mono _ _ _ _ Z H Hv).
Qed.

Lemma key_opp x : Ieee.key (SFopp x) = - Ieee.key x.
Proof.
  destruct x as [s|s| |s m e]; cbn [SFopp Ieee.key]; try destruct s; cbn [negb]; lra.
Qed.

Lemma SFadd_SFsub x y : SFadd prec emax x y = SFsub prec emax x (SFopp y).
Proof.
  destruct x as [sx|sx| |sx mx ex], y as [sy|sy| |sy my ey]; cbn [SFadd SFsub SFopp];
    try reflexivity; try (destruct sx, sy; reflexivity); try (now destruct sy).
Qed.

Lemma SFadd_Rounded a d :
  valid_binary a = true -> valid_binary d = true ->
  Ieee.finite_or_zero a -> Ieee.finite_or_zero d ->
  Ieee.Rounded (Ieee.key a + Ieee.key d) (SFadd prec emax a d).
Proof.
  intros Va Vd Fa Fd. rewrite SFadd_SFsub.
  replace (Ieee.key a + Ieee.key d) with (Ieee.key a - Ieee.key (SFopp d))
    by (rewrite key_opp; ring).
  apply Ieee.SFsub_Rounded; try assumption.
  - destruct d as [s|s| |s m e]; try contradiction; [reflexivity|].
    cbn [SFopp]. now rewrite Ieee.valid_sign in *.
  - now destruct d.
Qed.

(** A number that is not below zero is zero, finite or the positive
    infinity. *)
Lemma number_cases x :
  is_number x -> Ieee.finite_or_zero x \/ exists s, x = S754_infinity s.
Proof.
  intros [_ N]. destruct x as [s|s| |s m e]; [left; exact I|right; eauto|now elim N|left; exact I].
Qed.

Lemma sub_below lo m :
  valid_binary lo = true -> Ieee.finite_or_zero lo -> is_number m -> 0 <= Ieee.key m ->
  is_number (SFsub prec emax lo m) /\ Ieee.key (SFsub prec emax lo m) <= Ieee.key lo.
Proof.
  intros Vlo Flo Nm Hm. pose proof (Ieee.bpow_gt_0 1024) as B.
  destruct (number_cases m Nm) as [Fm|[s ->]].
  - pose proof (Ieee.SFsub_Rounded _ _ Vlo (proj1 Nm) Flo Fm) as R.
    split; [exact (rounded_number _ _ R)|].
    pose proof (Ieee.valid_Rounded lo Vlo) as Rlo.
    assert (Rlo' : Ieee.Rounded (Ieee.key lo) lo) by (destruct lo; try contradiction; exact Rlo).
    apply (Ieee.Rounded_key_mono _ _ _ _ R Rlo'). lra.
  - destruct s; cbn [Ieee.key] in Hm; [lra|].
    pose proof (Ieee.key_lt_max lo Vlo Flo).
    destruct lo as [sl|sl| |sl ml el]; try contradiction; cbn [SFsub negb Ieee.key] in *;
      (split; [split; [reflexivity|discriminate]|lra]).
Qed.

Lemma add_above hi m :
  valid_binary hi = true -> Ieee.finite_or_zero hi -> is_number m -> 0 <= Ieee.key m ->
  is_number (SFadd prec emax hi m) /\ Ieee.key hi <= Ieee.key (SFadd prec emax hi m).
Proof.
  intros Vhi Fhi Nm Hm. pose proof (Ieee.bpow_gt_0 1024) as B.
  destruct (number_cases m Nm) as [Fm|[s ->]].
  - pose proof (SFadd_Rounded _ _ Vhi (proj1 Nm) Fhi Fm) as R.
    split; [exact (rounded_number _ _ R)|].
    pose proof (Ieee.valid_Rounded hi Vhi) as Rhi.
    assert (Rhi' : Ieee.Rounded (Ieee.key hi) hi) by (destruct hi; try contradiction; exact Rhi).
    apply (Ieee.Rounded_key_mono _ _ _ _ Rhi' R). lra.
  - destruct s; cbn [Ieee.key] in Hm; [lra|].
    pose proof (Ieee.key_lt_max hi Vhi Fhi).
    destruct hi as [sl|sl| |sl ml el]; try contradiction; cbn [SFadd Ieee.key] in *;
      (split; [split; [reflexivity|discriminate]|lra]).
Qed.

(** The product of a positive number and a positive finite one is a number
    that is not below zero. *)
Lemma mul_positive g c mc ec :
  is_number g -> 0 < Ieee.key g ->
  c = S754_finite false mc ec -> valid_binary c = true ->
  is_number (SFmul prec emax g c) /\ 0 <= Ieee.key (SFmul prec emax g c).
Proof.
  intros [Vg Ng] Hg -> Vc. pose proof (Ieee.bpow_gt_0 1024) as B.
  destruct g as [s|s| |s mg eg]; cbn [Ieee.key] in Hg; [lra| |now elim Ng|].
  - destruct s; [lra|]. cbn [SFmul xorb Ieee.key].
    split; [split; [reflexivity|discriminate]|lra].
  - pose proof (Ieee.F2R_pos mg eg) as Pg. destruct s; [lra|].
    cbn [SFmul xorb].
    set (v := Ieee.F2R (Zpos (mg * mc)) (eg + ec)).
    assert (Hin : Ieee.inbetween_int (Zpos (mg * mc)) loc_Exact (v * Ieee.bpow (- (eg + ec)))).
    { cbn [Ieee.inbetween_int]. apply Ieee.F2R_scaled. }
    pose proof (Ieee.inbetween_mag _ _ _ _ Hin) as Hmag.
    destruct (Ieee.valid_finite _ _ Vg) as (Dg & Eg & Cg).
    destruct (Ieee.valid_finite _ _ Vc) as (Dc & Ec & Cc).
    assert (Hd : (Zpos (digits2_pos (mg * mc)) >=
                  Zpos (digits2_pos mg) + Zpos (digits2_pos mc) - 1)%Z).
    { apply Ieee.digits2_ge.
      pose proof (Ieee.digits2_bounds mg) as [Lg _].
      pose proof (Ieee.digits2_bounds mc) as [Lc _].
      replace (Zpos (digits2_pos mg) + Zpos (digits2_pos mc) - 1 - 1)%Z
        with ((Zpos (digits2_pos mg) - 1) + (Zpos (digits2_pos mc) - 1))%Z by lia.
      rewrite Z.pow_add_r by lia. rewrite Pos2Z.inj_mul.
      apply Z.mul_le_mono_nonneg; try assumption; apply Z.pow_nonneg; lia. }
    destruct (Ieee.binary_round_aux_correct false (Zpos (mg * mc)) (eg + ec) loc_Exact v
                (Zpos (digits2_pos (mg * mc)) + (eg + ec))) as (n & Hn & _ & E);
      try assumption; [lia| |].
    + rewrite Ieee.fexp_eq. lia.
    + assert (R : Ieee.rounds_to v false
                    (binary_round_aux prec emax false (Zpos (mg * mc)) (eg + ec) loc_Exact)).
      { exists (Zpos (digits2_pos (mg * mc)) + (eg + ec))%Z, n. auto. }
      destruct (Ieee.rounds_to_props _ _ _ R) as (V & N & x & Hx & K).
      split; [now split|]. rewrite K. cbn [Ieee.signed].
      apply Rmin_glb; lra.
Qed.

End NumberOrder.

Section Encloses.

Local Open Scope float_scope.

Lemma prim_number (x : float) : is_nan x = false -> is_number (Prim2SF x).
Proof.
  intros H. split; [apply Prim2SF_valid|].
  unfold is_nan in H. rewrite eqb_spec in H. intros E. rewrite E in H. discriminate.
Qed.

Lemma finite_not_nan (x : float) : is_finite x = true -> is_nan x = false.
Proof.
  unfold is_finite. intros H. apply negb_true_iff, orb_false_iff in H. tauto.
Qed.

Lemma minimum_finite (a b : float) :
  is_finite a = true -> is_finite b = true ->
  is_finite (Np.minimum a b) = true /\
  (Np.minimum a b <=? a) = true /\ (Np.minimum a b <=? b) = true.
Proof.
  intros Fa Fb. unfold Np.minimum.
  rewrite (finite_not_nan a Fa), (finite_not_nan b Fb).
  pose proof (prim_number a (finite_not_nan a Fa)) as Na.
  pose proof (prim_number b (finite_not_nan b Fb)) as Nb.
  rewrite !leb_spec, ltb_spec.
  destruct (SFltb (Prim2SF b) (Prim2SF a)) eqn:E.
  - apply ltb_key in E; try assumption.
    split; [exact Fb|]. split; apply leb_key; try assumption; lra.
  - assert (~ (Ieee.key (Prim2SF b) < Ieee.key (Prim2SF a))%R)
      by (intros H; apply ltb_key in H; try assumption; congruence).
    split; [exact Fa|]. split; apply leb_key; try assumption; lra.
Qed.

Lemma maximum_finite (a b : float) :
  is_finite a = true -> is_finite b = true ->
  is_finite (Np.maximum a b) = true /\
  (a <=? Np.maximum a b) = true /\ (b <=? Np.maximum a b) = true.
Proof.
  intros Fa Fb. unfold Np.maximum.
  rewrite (finite_not_nan a Fa), (finite_not_nan b Fb).
  pose proof (prim_number a (finite_not_nan a Fa)) as Na.
  pose proof (prim_number b (finite_not_nan b Fb)) as Nb.
  rewrite !leb_spec, ltb_spec.
  destruct (SFltb (Prim2SF a) (Prim2SF b)) eqn:E.
  - apply ltb_key in E; try assumption.
    split; [exact Fb|]. split; apply leb_key; try assumption; lra.
  - assert (~ (Ieee.key (Prim2SF a) < Ieee.key (Prim2SF b))%R)
      by (intros H; apply ltb_key in H; try assumption; congruence).
    split; [exact Fa|]. split; apply leb_key; try assumption; lra.
Qed.

Lemma leb_trans_finite (a b c : float) :
  is_finite a = true -> is_finite b = true -> is_finite c = true ->
  (a <=? b) = true -> (b <=? c) = true -> (a <=? c) = true.
Proof.
  intros Fa Fb Fc. rewrite !leb_spec.
  pose proof (prim_number a (finite_not_nan a Fa)) as Na.
  pose proof (prim_number b (finite_not_nan b Fb)) as Nb.
  pose proof (prim_number c (finite_not_nan c Fc)) as Nc.
  intros H1 H2. apply leb_key in H1, H2; try assumption.
  apply leb_key; try assumption. lra.
Qed.

Lemma min_finite (rest : list float) :
  forall x,
    is_finite x = true -> Forall (fun v => is_finite v = true) rest ->
    is_finite (Np.min x rest) = true /\
    (Np.min x rest <=? x) = true /\
    Forall (fun v => (Np.min x rest <=? v) = true) rest.
Proof.
  unfold Np.min.
  induction rest as [|b rest IH]; intros x Fx Hall; cbn [fold_left].
  - split; [exact Fx|]. split; [|constructor].
    rewrite leb_spec. apply leb_key; try (apply prim_number, finite_not_nan, Fx). lra.
  - inversion Hall as [|? ? Fb Hrest]; subst.
    destruct (minimum_finite x b Fx Fb) as (Fm & Lx & Lb).
    destruct (IH _ Fm Hrest) as (Fr & Lm & Lall).
    split; [exact Fr|]. split.
    + exact (leb_trans_finite _ _ _ Fr Fm Fx Lm Lx).
    + constructor; [exact (leb_trans_finite _ _ _ Fr Fm Fb Lm Lb)|exact Lall].
Qed.

Lemma max_finite (rest : list float) :
  forall x,
    is_finite x = true -> Forall (fun v => is_finite v = true) rest ->
    is_finite (Np.max x rest) = true /\
    (x <=? Np.max x rest) = true /\
    Forall (fun v => (v <=? Np.max x rest) = true) rest.
Proof.
  unfold Np.max.
  induction rest as [|b rest IH]; intros x Fx Hall; cbn [fold_left].
  - split; [exact Fx|]. split; [|constructor].
    rewrite leb_spec. apply leb_key; try (apply prim_number, finite_not_nan, Fx). lra.
  - inversion Hall as [|? ? Fb Hrest]; subst.
    destruct (maximum_finite x b Fx Fb) as (Fm & Lx & Lb).
    destruct (IH _ Fm Hrest) as (Fr & Lm & Lall).
    split; [exact Fr|]. split.
    + exact (leb_trans_finite _ _ _ Fx Fm Fr Lx Lm).
    + constructor; [exact (leb_trans_finite _ _ _ Fb Fm Fr Lb Lm)|exact Lall].
Qed.

(** The margin is a number that is not below zero. *)
Lemma margin_not_negative (lo hi : float) :
  is_finite lo = true -> is_finite hi = true -> (lo <=? hi) = true ->
  is_number (Prim2SF (Py.max 0.1 (hi - lo) * 0.05)) /\
  (0 <= Ieee.key (Prim2SF (Py.max 0.1 (hi - lo) * 0.05)))%R.
Proof.
  intros Flo Fhi Hle.
  pose proof (Ieee.is_finite_finite _ Flo) as Flo'.
  pose proof (Ieee.is_finite_finite _ Fhi) as Fhi'.
  assert (Rs : Ieee.Rounded (Ieee.key (Prim2SF hi) - Ieee.key (Prim2SF lo))
                 (Prim2SF (hi - lo))).
  { rewrite sub_spec. apply Ieee.SFsub_Rounded; try apply Prim2SF_valid; assumption. }
  pose proof (rounded_number _ _ Rs) as Ns.
  assert (Ng : is_number (Prim2SF (Py.max 0.1 (hi - lo))) /\
               (0 < Ieee.key (Prim2SF (Py.max 0.1 (hi - lo))))%R).
  { assert (N1 : is_number (Prim2SF 0.1))
      by (split; [apply Prim2SF_valid|vm_compute; discriminate]).
    assert (K1 : (0 < Ieee.key (Prim2SF 0.1))%R).
    { change (Prim2SF 0.1) with (S754_finite false 7205759403792794 (-56)).
      cbn [Ieee.key]. apply Ieee.F2R_pos. }
    unfold Py.max. rewrite ltb_spec.
    destruct (SFltb (Prim2SF 0.1) (Prim2SF (hi - lo))) eqn:E.
    - apply ltb_key in E; try assumption. split; [exact Ns|lra].
    - split; assumption. }
  destruct Ng as [Ng Kg].
  rewrite mul_spec.
  apply (mul_positive _ (Prim2SF 0.05) 7205759403792794 (-57)); try assumption.
  - reflexivity.
  - apply Prim2SF_valid.
Qed.

(** X8: the limits [set_non_zero_ylim] gives enclose the data.  When every
    sample of the window is a finite double, every sample that is not zero
    lies between the lower and the upper limit. *)
Theorem set_non_zero_ylim_encloses (values : list float) :
  Forall (fun v => is_finite v = true) values ->
  forall v, In v values -> (v =? 0) = false ->
    (fst (set_non_zero_ylim values) <=? v) = true /\
    (v <=? snd (set_non_zero_ylim values)) = true.
Proof.
  intros Hfin v Hin Hv.
  assert (Hnz : In v (Np.non_zero values)).
  { unfold Np.non_zero. apply filter_In. split; [exact Hin|]. now rewrite Hv. }
  assert (Hfin' : Forall (fun v => is_finite v = true) (Np.non_zero values)).
  { unfold Np.non_zero. apply Forall_forall. intros w Hw. apply filter_In in Hw.
    rewrite Forall_forall in Hfin. now apply Hfin. }
  unfold set_non_zero_ylim.
  destruct (Np.non_zero values) as [|x rest]; [contradiction|].
  inversion Hfin' as [|? ? Fx Frest]; subst.
  destruct (min_finite rest x Fx Frest) as (Flo & Lx & Lall).
  destruct (max_finite rest x Fx Frest) as (Fhi & Hx & Hall).
  set (lo := Np.min x rest) in *. set (hi := Np.max x rest) in *.
  assert (Fv : is_finite v = true) by (rewrite Forall_forall in Hfin'; now apply Hfin').
  assert (Lv : (lo <=? v) = true /\ (v <=? hi) = true).
  { destruct Hnz as [<-|Hr]; [now split|].
    rewrite Forall_forall in Lall, Hall. split; [now apply Lall|now apply Hall]. }
  destruct Lv as [Lv Hv'].
  pose proof (leb_trans_finite _ _ _ Flo Fv Fhi Lv Hv') as Hlh.
  destruct (margin_not_negative lo hi Flo Fhi Hlh) as [Nm Km].
  cbn [fst snd].
  pose proof (sub_below (Prim2SF lo) _ (Prim2SF_valid lo)
                (Ieee.is_finite_finite _ Flo) Nm Km) as [Nl Kl].
  pose proof (add_above (Prim2SF hi) _ (Prim2SF_valid hi)
                (Ieee.is_finite_finite _ Fhi) Nm Km) as [Nu Ku].
  pose proof (prim_number v (finite_not_nan v Fv)) as Nv.
  pose proof (prim_number lo (finite_not_nan lo Flo)) as Nlo.
  pose proof (prim_number hi (finite_not_nan hi Fhi)) as Nhi.
  rewrite leb_spec in Lv, Hv'.
  apply leb_key in Lv, Hv'; try assumption.
  rewrite !leb_spec, sub_spec, add_spec. unfold SF64sub, SF64add.
  split; apply leb_key; try assumption; lra.
Qed.
End Encloses.

(** A window with two zeros: the limits are around 60 and 70. *)
Lemma set_non_zero_ylim_encloses_witness :
  (fst (set_non_zero_ylim [0; 60; 0; 70]) <=? 60)%float = true /\
  (60 <=? snd (set_non_zero_ylim [0; 60; 0; 70]))%float = true.
Proof.
  apply (set_non_zero_ylim_encloses [0; 60; 0; 70]%float).
  - repeat constructor.
  - right. left. reflexivity.
  - reflexivity.
Defined.

(** ** [split] and [join] *)

Lemma split_no_sep (sep : ascii) (s : string) :
  contains sep s = false -> split sep s = [s].
Proof.
  induction s as [|c s IH]; cbn; [reflexivity|].
  intros H. apply orb_false_iff in H. destruct H as [Hc Hs].
  rewrite Hc, (IH Hs). reflexivity.
Qed.

Lemma split_app_sep (sep : ascii) (s t : string) :
  contains sep s = false ->
  split sep (s ++ String sep t) = s :: split sep t.
Proof.
  induction s as [|c s IH]; cbn [String.append contains]; intros H.
  - cbn [split]. now rewrite Ascii.eqb_refl.
  - apply orb_false_iff in H. destruct H as [Hc Hs].
    cbn [split]. rewrite Hc, (IH Hs). reflexivity.
Qed.

Lemma split_ends_with (sep : ascii) (a b : string) :
  contains sep b = false ->
  exists first rest, split sep (a ++ String sep b) = (first :: rest) ++ [b].
Proof.
  intros Hb. induction a as [|c a IH]; cbn [String.append split].
  - rewrite Ascii.eqb_refl, (split_no_sep _ _ Hb). exists EmptyString, []. reflexivity.
  - destruct IH as (first & rest & ->).
    destruct (Ascii.eqb c sep).
    + exists EmptyString, (first :: rest). reflexivity.
    + exists (String c first), rest. reflexivity.
Qed.

Lemma split_join (sep : ascii) (strings : list string) :
  strings <> [] ->
  Forall (fun s => contains sep s = false) strings ->
  split sep (Markup.join (String sep "") strings) = strings.
Proof.
  induction strings as [|s strings IH]; intros Hne Hall; [contradiction|].
  inversion Hall as [|? ? Hs Hrest]; subst.
  destruct strings as [|s' strings].
  - cbn. now apply split_no_sep.
  - change (Markup.join (String sep "") (s :: s' :: strings))
      with (s ++ String sep "" ++ Markup.join (String sep "") (s' :: strings))%string.
    cbn [String.append]. rewrite split_app_sep by exact Hs.
    f_equal. apply IH; [discriminate|exact Hrest].
Qed.

Lemma contains_app (c : ascii) (s t : string) :
  contains c (s ++ t) = contains c s || contains c t.
Proof.
  induction s as [|c' s IH]; cbn; [reflexivity|]. now rewrite IH, orb_assoc.
Qed.

Lemma append_assoc (a b c : string) : ((a ++ b) ++ c = a ++ (b ++ c))%string.
Proof.
  induction a as [|x a IH]; cbn; [reflexivity|]. now rewrite IH.
Qed.

(** ** [to_css_string] and [from_css_string] *)

Lemma join_ends_with (sep : string) (c : ascii) (strings : list string) :
  strings <> [] ->
  Forall (fun s => exists p, s = (p ++ String c "")%string) strings ->
  exists p, Markup.join sep strings = (p ++ String c "")%string.
Proof.
  induction strings as [|s strings IH]; intros Hne Hall; [contradiction|].
  inversion Hall as [|? ? [p ->] Hrest]; subst.
  destruct strings as [|s' strings].
  - exists p. reflexivity.
  - destruct IH as [q Hq]; [discriminate|exact Hrest|].
    change (Markup.join sep ((p ++ String c "")%string :: s' :: strings))
      with ((p ++ String c "") ++ sep ++ Markup.join sep (s' :: strings))%string.
    rewrite Hq. exists ((p ++ String c "") ++ sep ++ q)%string.
    now rewrite !append_assoc.
Qed.

Lemma wrap_ends_with (multi_line : bool) (c : ascii) (strings : list string) :
  strings <> [] ->
  Forall (fun s => exists p, s = (p ++ String c "")%string) strings ->
  exists q,
    Markup.wrap multi_line strings =
    (q ++ String c (if multi_line then String (ascii_of_nat 10) "" else ""))%string.
Proof.
  intros Hne Hall. unfold Markup.wrap. cbv zeta.
  destruct (join_ends_with
              (if multi_line then String (ascii_of_nat 10) "    " else " "%string)
              c strings Hne Hall) as [p ->].
  eexists. rewrite append_assoc. cbn [String.append]. rewrite <- append_assoc. reflexivity.
Qed.

Lemma from_css_items_bad (items : list string) :
  forall dictionary,
    Exists (fun item => List.length (split ":" item) <> 2%nat) items ->
    exists message, Markup.from_css_items items dictionary = Raise (ValueError message).
Proof.
  induction items as [|item items IH]; intros dictionary H; [inversion H|].
  cbn [Markup.from_css_items].
  destruct (split ":" item) as [|key [|value [|extra parts]]] eqn:E.
  - cbn. eauto.
  - cbn. eauto.
  - cbn [Markup.unpack_pair Py.bind]. apply IH.
    inversion H as [? ? Hbad|? ? Hrest]; subst; [|exact Hrest].
    rewrite E in Hbad. now elim Hbad.
  - cbn. eauto.
Qed.

(** X9: [from_css_string] does not read back what [to_css_string] writes.
    For every dictionary of plain values, written on one line or on several,
    the text ends in a piece without a colon (what follows the last
    semicolon, or the whole text of an empty dictionary), and unpacking
    [key, value] from it raises [ValueError]. *)
Theorem css_string_is_not_read_back (style : list (string * string)) (multi_line : bool) :
  exists message,
    Markup.from_css_string
      (Markup.to_css_string (map (fun item => (fst item, Markup.CssText (snd item))) style)
         multi_line)
    = Raise (ValueError message).
Proof.
  unfold Markup.from_css_string. apply from_css_items_bad.
  unfold Markup.to_css_string. rewrite map_map. cbn [fst snd Markup.style_string].
  set (strings := map _ style).
  set (after := if multi_line then String (ascii_of_nat 10) "" else ""%string).
  assert (Hafter : contains ";" after = false /\ split ":" after = [after]).
  { subst after. destruct multi_line; split; reflexivity. }
  destruct Hafter as [Ha1 Ha2].
  destruct style as [|item style].
  - subst strings. cbn [map Markup.join Markup.wrap].
    destruct multi_line; cbn; constructor; cbn; discriminate.
  - destruct (wrap_ends_with multi_line ";" strings) as [q Hq].
    + subst strings. discriminate.
    + subst strings. apply Forall_map. apply Forall_forall. intros [k v] _. cbn [fst snd].
      exists (k ++ ": " ++ v)%string. now rewrite !append_assoc.
    + fold after in Hq. rewrite Hq.
      destruct (split_ends_with ";" q after Ha1) as (first & rest & ->).
      apply Exists_app. right. constructor. rewrite Ha2. cbn. discriminate.
Qed.

Lemma split_key_value (key value : string) :
  contains ":" key = false -> contains ":" value = false ->
  split ":" (key ++ ":" ++ value) = [key; value].
Proof.
  intros Hk Hv. cbn [String.append].
  rewrite split_app_sep by exact Hk. now rewrite split_no_sep.
Qed.

Lemma from_css_items_reads (items : list (string * string)) :
  forall dictionary,
    Forall (fun item => contains ":" (fst item) = false /\ contains ":" (snd item) = false)
      items ->
    Markup.from_css_items (map (fun item => fst item ++ ":" ++ snd item)%string items) dictionary
    = Ok (fold_left (fun d item => Markup.setitem d (fst item) (unquoted (snd item)))
            items dictionary).
Proof.
  induction items as [|[k v] items IH]; intros dictionary Hall; [reflexivity|].
  inversion Hall as [|? ? [Hk Hv] Hrest]; subst. cbn [fst snd] in *.
  cbn [map Markup.from_css_items fold_left fst snd].
  rewrite split_key_value by assumption.
  cbn [Markup.unpack_pair Py.bind fst snd]. now rewrite IH.
Qed.

Lemma setitem_fresh {V : Type} (d : Markup.dict V) (key : string) (value : V) :
  ~ In key (map fst d) -> Markup.setitem d key value = d ++ [(key, value)].
Proof.
  induction d as [|[k v] d IH]; intros H; [reflexivity|].
  cbn [Markup.setitem]. destruct (String.eqb_spec k key) as [->|_].
  - elim H. now left.
  - cbn [app]. f_equal. apply IH. intros Hin. apply H. now right.
Qed.

Lemma fold_setitem_distinct {V : Type} (f : V -> V) (items : list (string * V)) :
  forall d,
    NoDup (map fst d ++ map fst items) ->
    fold_left (fun d item => Markup.setitem d (fst item) (f (snd item))) items d
    = d ++ map (fun item => (fst item, f (snd item))) items.
Proof.
  induction items as [|[k v] items IH]; intros d H; cbn [fold_left map fst snd].
  - now rewrite app_nil_r.
  - rewrite setitem_fresh.
    + rewrite IH.
      * now rewrite <- app_assoc.
      * rewrite map_app. cbn [map fst]. now rewrite <- app_assoc.
    + cbn [map fst] in H. apply NoDup_remove_2 in H. intros Hin. apply H.
      apply in_or_app. now left.
Qed.

(** X10: what [from_css_string] reads.  A text [k1:v1;k2:v2;...] of at
    least one item, whose keys and values hold no colon and no semicolon, is
    read item by item: each key is set to its value, a value between double
    quotes without them, a key that comes again replacing the value it had.
    With distinct keys and no quoted value the result is the items as
    written. *)
Theorem from_css_string_reads_items (items : list (string * string)) :
  items <> [] ->
  Forall (fun item =>
            contains ":" (fst item) = false /\ contains ":" (snd item) = false /\
            contains ";" (fst item) = false /\ contains ";" (snd item) = false) items ->
  let text := Markup.join ";" (map (fun item => fst item ++ ":" ++ snd item)%string items) in
  Markup.from_css_string text =
  Ok (fold_left (fun d item => Markup.setitem d (fst item) (unquoted (snd item))) items []) /\
  (NoDup (map fst items) ->
   Forall (fun item => unquoted (snd item) = snd item) items ->
   Markup.from_css_string text = Ok items).
Proof.
  intros Hne Hall text.
  assert (E : Markup.from_css_string text =
              Ok (fold_left (fun d item => Markup.setitem d (fst item) (unquoted (snd item)))
                    items [])).
  { unfold Markup.from_css_string. subst text. rewrite split_join.
    - apply from_css_items_reads. eapply Forall_impl; [|exact Hall]. cbn. tauto.
    - destruct items; [contradiction|discriminate].
    - apply Forall_map. eapply Forall_impl; [|exact Hall].
      intros [k v] (_ & _ & Hk & Hv). cbn [fst snd] in *.
      rewrite !contains_app, Hk, Hv. reflexivity. }
  split; [exact E|]. intros Hnd Hq. rewrite E.
  rewrite fold_setitem_distinct by exact Hnd. cbn [app]. f_equal.
  rewrite <- (map_id items) at 2. apply map_ext_Forall.
  eapply Forall_impl; [|exact Hq]. intros [k v] H. cbn [fst snd] in *. now rewrite H.
Qed.
(** Two items, as a style attribute without spaces would hold them. *)
Lemma from_css_string_reads_items_witness :
  Markup.from_css_string "color:red;width:10px" =
  Ok [("color", "red"); ("width", "10px")]%string.
Proof.
  apply (proj2 (from_css_string_reads_items [("color", "red"); ("width", "10px")]%string
                  ltac:(discriminate)
                  ltac:(repeat constructor))).
  - repeat constructor; cbn; intuition discriminate.
  - repeat constructor.
Defined.

(** ** [class_name_to_function_name] *)

Lemma forall_ascii (P : ascii -> bool) :
  forallb (fun n => P (ascii_of_nat n)) (seq 0 256) = true -> forall c, P c = true.
Proof.
  intros H c. rewrite forallb_forall in H.
  rewrite <- (ascii_nat_embedding c). apply H. apply in_seq.
  pose proof (nat_ascii_bounded c). lia.
Qed.

Lemma lower_lower (c : ascii) : Markup.lower (Markup.lower c) = Markup.lower c.
Proof.
  apply Ascii.eqb_eq. revert c. apply forall_ascii. vm_compute. reflexivity.
Qed.

Lemma lower_underscore (c : ascii) :
  Ascii.eqb (Markup.lower c) "_" = Ascii.eqb c "_".
Proof.
  apply eqb_true_iff. revert c. apply forall_ascii. vm_compute. reflexivity.
Qed.

Lemma function_name_letters (name : string) :
  forall previous,
    without_underscores (Markup.function_name previous name) =
    map Markup.lower (without_underscores name) /\
    Forall (fun c => Markup.lower c = c)
      (list_ascii_of_string (Markup.function_name previous name)).
Proof.
  unfold without_underscores.
  induction name as [|char name IH]; intros previous; [split; [reflexivity|constructor]|].
  destruct (IH (Some char)) as [E F]. cbn [Markup.function_name].
  set (u := match previous with
            | Some p => Markup.is_upper_of_itself char && Markup.is_lower_of_itself p
            | None => false
            end).
  assert (H : filter (fun c => negb (Ascii.eqb c "_"))
                (list_ascii_of_string
                   (String (Markup.lower char) (Markup.function_name (Some char) name))) =
              map Markup.lower
                (filter (fun c => negb (Ascii.eqb c "_"))
                   (list_ascii_of_string (String char name))) /\
              Forall (fun c => Markup.lower c = c)
                (list_ascii_of_string
                   (String (Markup.lower char) (Markup.function_name (Some char) name)))).
  { cbn [list_ascii_of_string filter]. rewrite lower_underscore.
    split.
    - destruct (Ascii.eqb char "_"); cbn [negb map]; now rewrite E.
    - constructor; [apply lower_lower|exact F]. }
  destruct u; cbn [String.append list_ascii_of_string filter]; [|exact H].
  destruct H as [H1 H2]. split; [exact H1|].
  constructor; [reflexivity|exact H2].
Qed.

(** X11: [class_name_to_function_name] changes a name in two ways only: it
    puts underscores in, and it makes every letter small.  Without the
    underscores, the result is the name (without its underscores) in small
    letters; and no character of the result is a capital letter. *)
Theorem class_name_to_function_name_letters (name : string) :
  without_underscores (Markup.class_name_to_function_name name) =
  map Markup.lower (without_underscores name) /\
  Forall (fun c => Markup.lower c = c)
    (list_ascii_of_string (Markup.class_name_to_function_name name)).
Proof.
  apply function_name_letters.
Qed.

(** ** [Markup.attribute_string] *)

Lemma count_app (c : ascii) (s t : string) : count c (s ++ t) = (count c s + count c t)%nat.
Proof.
  induction s as [|c' s IH]; cbn; [reflexivity|]. rewrite IH. lia.
Qed.

Lemma count_replace_quote (s : string) :
  count Markup.quote (Markup.replace Markup.quote "&quot;" s) = 0%nat.
Proof.
  induction s as [|c s IH]; [reflexivity|].
  cbn [Markup.replace]. rewrite count_app, IH.
  destruct (Ascii.eqb c Markup.quote) eqn:E; [reflexivity|].
  cbn [count]. now rewrite E.
Qed.

Lemma count_join (c : ascii) (sep : string) (k : nat) (strings : list string) :
  count c sep = 0%nat ->
  Forall (fun s => count c s = k) strings ->
  count c (Markup.join sep strings) = (k * List.length strings)%nat.
Proof.
  intros Hsep. induction strings as [|s strings IH]; intros Hall; [cbn; lia|].
  inversion Hall as [|? ? Hs Hrest]; subst.
  destruct strings as [|s' strings].
  - cbn. lia.
  - change (Markup.join sep (s :: s' :: strings))
      with (s ++ sep ++ Markup.join sep (s' :: strings))%string.
    rewrite !count_app, Hsep, (IH Hrest). cbn [List.length]. lia.
Qed.

(** X12: with [replace_xml_characters], a value cannot end its own
    attribute.  When no key holds a double quote, the attribute string holds
    exactly two double quotes for each attribute, the ones around its value:
    every double quote inside a value is written [&quot;]. *)
Theorem attribute_string_quotes (attributes : Markup.dict string) :
  Forall (fun item => count Markup.quote (fst item) = 0%nat) attributes ->
  count Markup.quote (Markup.attribute_string attributes true) =
  (2 * List.length attributes)%nat.
Proof.
  intros Hkeys. destruct attributes as [|item attributes]; [reflexivity|].
  unfold Markup.attribute_string.
  rewrite count_app, (count_join _ _ 2).
  - rewrite length_map. reflexivity.
  - reflexivity.
  - apply Forall_map. eapply Forall_impl; [|exact Hkeys].
    intros [k v] Hk. cbn [fst snd] in *.
    rewrite !count_app, Hk, count_replace_quote. reflexivity.
Qed.

(** ** [HtmlBase.set_border] *)

Lemma get_setitem {V : Type} (d : Markup.dict V) (key : string) (value default : V) :
  Markup.get (Markup.setitem d key value) key default = value.
Proof.
  induction d as [|[k v] d IH]; cbn.
  - now rewrite String.eqb_refl.
  - destruct (String.eqb k key) eqn:E; cbn; rewrite E; [reflexivity|exact IH].
Qed.

Lemma find_app (a b sub : string) :
  Markup.find b sub <> None -> Markup.find (a ++ b) sub <> None.
Proof.
  intros H. induction a as [|c a IH]; [exact H|].
  cbn [String.append]. unfold Markup.find. fold Markup.find.
  destruct (String.prefix sub (String c (a ++ b))); [discriminate|].
  destruct (Markup.find (a ++ b) sub); [discriminate|contradiction].
Qed.

Section Border.

Local Open Scope string_scope.

Lemma get_setitem_other {V : Type} (d : Markup.dict V) (key key' : string) (value default : V) :
  key' <> key ->
  Markup.get (Markup.setitem d key value) key' default = Markup.get d key' default.
Proof.
  intros Hk. induction d as [|[k v] d IH]; cbn.
  - destruct (String.eqb key key') eqn:E; [|reflexivity].
    apply String.eqb_eq in E. now subst.
  - destruct (String.eqb k key) eqn:E; cbn.
    + apply String.eqb_eq in E. subst k.
      destruct (String.eqb key key') eqn:E'; [|reflexivity].
      apply String.eqb_eq in E'. now subst.
    + destruct (String.eqb k key'); [reflexivity|exact IH].
Qed.

(** X13: what [set_border] does with the class attribute.  When the text
    [border] occurs nowhere in it, the call writes [border] after the classes
    that are there, separated by a blank (alone when there is none), so
    that [border] is the last class of the element, and keeps every other
    attribute.  When the text occurs anywhere in it, be it inside another
    class name, the call changes nothing: an element of class [noborders]
    stays without the class [border].  In every case a second call changes
    nothing. *)
Theorem set_border_effect (attributes : Markup.dict string) :
  (Markup.find (Markup.get attributes "class" "") "border" = None ->
   Markup.get (Markup.set_border attributes) "class" "" =
   (if String.eqb (Markup.get attributes "class" "") ""
    then "border" else Markup.get attributes "class" "" ++ " border") /\
   (exists others, class_names (Markup.set_border attributes) = (others ++ ["border"])%list) /\
   (forall key default,
       key <> "class" ->
       Markup.get (Markup.set_border attributes) key default =
       Markup.get attributes key default)) /\
  (Markup.find (Markup.get attributes "class" "") "border" <> None ->
   Markup.set_border attributes = attributes) /\
  (Markup.get attributes "class" "" = "noborders" ->
   Markup.set_border attributes = attributes /\
   ~ In "border" (class_names (Markup.set_border attributes))) /\
  Markup.set_border (Markup.set_border attributes) = Markup.set_border attributes.
Proof.
  assert (Hsome : forall a : Markup.dict string,
             Markup.find (Markup.get a "class" "") "border" <> None ->
             Markup.set_border a = a).
  { intros a H. unfold Markup.set_border.
    destruct (Markup.find (Markup.get a "class" "") "border");
      [reflexivity|contradiction]. }
  assert (Hnone : Markup.find (Markup.get attributes "class" "") "border" = None ->
                  Markup.set_border attributes =
                  Markup.setitem attributes "class"
                    (if String.eqb (Markup.get attributes "class" "") ""
                     then "border" else Markup.get attributes "class" "" ++ " border")).
  { intros H. unfold Markup.set_border. cbv zeta. rewrite H.
    destruct (String.eqb (Markup.get attributes "class" "") "") eqn:E.
    - apply String.eqb_eq in E. now rewrite E.
    - now rewrite append_assoc. }
  split; [|split; [|split]].
  - intros H. rewrite (Hnone H). split; [apply get_setitem|]. split.
    + unfold class_names. rewrite get_setitem.
      destruct (String.eqb (Markup.get attributes "class" "") "").
      * now exists [].
      * destruct (split_ends_with " " (Markup.get attributes "class" "") "border" eq_refl)
          as (first & rest & Hs).
        exists (first :: rest). exact Hs.
    + intros key default Hkey. now apply get_setitem_other.
  - apply Hsome.
  - intros H. assert (Hf : Markup.find (Markup.get attributes "class" "") "border" <> None)
      by (rewrite H; discriminate).
    rewrite (Hsome _ Hf). split; [reflexivity|].
    unfold class_names. rewrite H. cbn. intros [E|[]]. discriminate.
  - apply Hsome.
    destruct (Markup.find (Markup.get attributes "class" "") "border") eqn:E.
    + rewrite (Hsome attributes) by (rewrite E; discriminate). rewrite E. discriminate.
    + rewrite (Hnone eq_refl), get_setitem.
      destruct (String.eqb (Markup.get attributes "class" "") "");
        [discriminate|apply find_app; discriminate].
Qed.

End Border.

(** A table with an identifier and the class [wide]: it becomes
    [wide border], and [border] is its last class. *)
Lemma set_border_effect_witness :
  Markup.get (Markup.set_border [("id", "t1"); ("class", "wide")]%string) "class" ""%string =
  "wide border"%string /\
  (exists others,
      class_names (Markup.set_border [("id", "t1"); ("class", "wide")]%string) =
      others ++ ["border"%string]) /\
  Markup.set_border (Markup.set_border [("id", "t1"); ("class", "wide")]%string) =
  Markup.set_border [("id", "t1"); ("class", "wide")]%string.
Proof.
  destruct (set_border_effect [("id", "t1"); ("class", "wide")]%string) as (H & _ & _ & Htwice).
  destruct (H eq_refl) as (Hc & Hlast & _).
  split; [exact Hc|split; [exact Hlast|exact Htwice]].
Defined.

(** An image with a source and an alternative text that holds a quote. *)
Lemma attribute_string_quotes_witness :
  count Markup.quote
    (Markup.attribute_string
       [("src", "./resources/res_1.png"); ("alt", String Markup.quote "night")]%string true)
  = 4%nat.
Proof.
  apply (attribute_string_quotes
           [("src", "./resources/res_1.png"); ("alt", String Markup.quote "night")]%string).
  repeat constructor.
Defined.

(** ** The table of the report *)

Lemma enumerate_nth {A : Type} (l : list A) (i : nat) :
  nth_error (Markup.enumerate l) i = option_map (pair i) (nth_error l i).
Proof.
  unfold Markup.enumerate.
  assert (G : forall start k,
             nth_error (combine (seq start (List.length l)) l) k =
             option_map (pair (start + k)%nat) (nth_error l k)).
  { induction l as [|x l IH]; intros start [|k]; cbn; try reflexivity.
    - now rewrite Nat.add_0_r.
    - rewrite IH. now rewrite Nat.add_succ_r. }
  apply (G 0%nat).
Qed.

Lemma enumerate_length {A : Type} (l : list A) :
  List.length (Markup.enumerate l) = List.length l.
Proof.
  unfold Markup.enumerate. rewrite length_combine, length_seq. lia.
Qed.

Lemma TableRow_nth {A : Type} (table_items : list A) (rh ch first : bool) (j : nat) :
  nth_error (Markup.TableRow table_items rh ch first) j =
  option_map
    (fun item =>
       {| Markup.class := if first && ch || (j =? 0)%nat && rh
                          then Markup.TableHeader else Markup.TableItem;
          Markup.value := item;
          Markup.attributes := [];
          Markup.css := [] |})
    (nth_error table_items j).
Proof.
  unfold Markup.TableRow. rewrite nth_error_map, enumerate_nth.
  now destruct (nth_error table_items j).
Qed.

Lemma TableRow_length {A : Type} (table_items : list A) (rh ch first : bool) :
  List.length (Markup.TableRow table_items rh ch first) = List.length table_items.
Proof.
  unfold Markup.TableRow. now rewrite length_map, enumerate_length.
Qed.

Lemma body_rows_nth {A : Type} (table_list : list (list A)) (rh ch : bool) (i : nat) :
  nth_error
    (map (fun entry => Markup.TableRow (snd entry) rh ch (fst entry =? 0)%nat)
       (Markup.enumerate table_list)) i =
  option_map (fun row => Markup.TableRow row rh ch (i =? 0)%nat) (nth_error table_list i).
Proof.
  rewrite nth_error_map, enumerate_nth. now destruct (nth_error table_list i).
Qed.

(** X14: the body of a table made from a list of rows, without title and
    without transposition.  It has one row for each row of the list, each
    with one cell for each item, in order; the cell of item [j] of row [i]
    holds that item, has no attribute and no style of its own, and is a
    header cell exactly when it is in the first row and [column_headers] is
    set, or first in its row and [row_headers] is set. *)
Theorem Tbody_cells {A : Type} (table_list : list (list A)) (column_headers row_headers : bool) :
  exists rows,
    Markup.Tbody table_list column_headers row_headers None None false = Ok rows /\
    List.length rows = List.length table_list /\
    forall i row,
      nth_error table_list i = Some row ->
      exists cells,
        nth_error rows i = Some cells /\
        List.length cells = List.length row /\
        forall j item,
          nth_error row j = Some item ->
          exists c,
            nth_error cells j = Some c /\
            Markup.value c = item /\
            Markup.attributes c = [] /\
            Markup.css c = [] /\
            (Markup.class c = Markup.TableHeader <->
             (i = 0%nat /\ column_headers = true) \/ (j = 0%nat /\ row_headers = true)).
Proof.
  eexists. split; [reflexivity|]. split.
  - now rewrite length_map, enumerate_length.
  - intros i row Hrow. rewrite body_rows_nth, Hrow. cbn [option_map].
    eexists. split; [reflexivity|]. split; [apply TableRow_length|].
    intros j item Hitem. rewrite TableRow_nth, Hitem. cbn [option_map].
    eexists. split; [reflexivity|]. cbn. repeat split.
    + destruct i, j, column_headers, row_headers; cbn; intros H;
        try discriminate; auto.
    + intros [[-> ->]|[-> ->]]; cbn; [reflexivity|].
      now rewrite orb_true_r.
Qed.

Lemma comprehension_all {A B : Type} (f : A -> result B) (P : A -> B -> Prop) (l : list A) :
  (forall a, In a l -> exists b, f a = Ok b /\ P a b) ->
  exists bs,
    comprehension f l = Ok bs /\
    List.length bs = List.length l /\
    forall k a b, nth_error l k = Some a -> nth_error bs k = Some b -> P a b.
Proof.
  induction l as [|a l IH]; intros H.
  - exists []. repeat split; auto. intros [|k] ? ? ?; discriminate.
  - destruct (H a (or_introl eq_refl)) as [b [Hb Pb]].
    destruct IH as [bs [E [L N]]]; [intros a' Ha'; apply H; now right|].
    exists (b :: bs). cbn [comprehension Py.bind]. rewrite Hb. cbn [Py.bind].
    rewrite E. cbn [Py.bind]. repeat split; [cbn; now rewrite L|].
    intros [|k] a' b' Ha' Hb'; cbn in Ha', Hb'.
    + injection Ha' as <-. injection Hb' as <-. exact Pb.
    + eapply N; eassumption.
Qed.

Lemma comprehension_raises {A B : Type} (f : A -> result B) (Q : exn -> Prop) (l : list A) :
  (forall a e, In a l -> f a = Raise e -> Q e) ->
  Exists (fun a => exists e, f a = Raise e) l ->
  exists e, comprehension f l = Raise e /\ Q e.
Proof.
  induction l as [|a l IH]; intros HQ Hex; [inversion Hex|].
  cbn [comprehension]. destruct (f a) as [b|e] eqn:E.
  - cbn [Py.bind]. destruct IH as [e [-> He]].
    + intros a' e' Hin. apply HQ. now right.
    + inversion Hex as [? ? [e' He']|]; subst; [congruence|assumption].
    + cbn. eauto.
  - cbn. exists e. split; [reflexivity|]. apply (HQ a); [now left|exact E].
Qed.

Lemma seq_nth_error (start len k : nat) :
  (k < len)%nat -> nth_error (seq start len) k = Some (start + k)%nat.
Proof.
  intros H. rewrite nth_error_nth' with (d := 0%nat) by (now rewrite length_seq).
  now rewrite seq_nth.
Qed.

Lemma nth_error_seq_inv (start len k a : nat) :
  nth_error (seq start len) k = Some a -> a = (start + k)%nat /\ (k < len)%nat.
Proof.
  intros H. assert (Hk : (k < len)%nat).
  { rewrite <- (length_seq len start). apply nth_error_Some. congruence. }
  rewrite seq_nth_error in H by exact Hk. split; [congruence|exact Hk].
Qed.

Lemma transposed_rectangle {A : Type} (table_list : list (list A)) (r c : nat) :
  List.length table_list = S r ->
  Forall (fun row => List.length row = c) table_list ->
  exists columns,
    Markup.transposed table_list = Ok columns /\
    List.length columns = c /\
    forall j, (j < c)%nat ->
      exists column,
        nth_error columns j = Some column /\
        List.length column = S r /\
        forall i row item,
          nth_error table_list i = Some row -> nth_error row j = Some item ->
          nth_error column i = Some item.
Proof.
  intros Hr Hc. unfold Markup.transposed.
  destruct table_list as [|first rest]; [discriminate|].
  cbn [Markup.getitem nth_error Py.bind].
  assert (Hfirst : List.length first = c) by (now inversion Hc).
  rewrite Hfirst, Hr.
  set (table_list := first :: rest) in *.
  set (P := fun (j : nat) (column : list A) =>
              List.length column = S r /\
              forall i row item,
                nth_error table_list i = Some row -> nth_error row j = Some item ->
                nth_error column i = Some item).
  destruct (comprehension_all
              (fun col_idx =>
                 comprehension
                   (fun row_idx =>
                      row <- Markup.getitem table_list row_idx ;; Markup.getitem row col_idx)
                   (seq 0 (S r)))
              P (seq 0 c)) as [columns [E [L N]]].
  - intros j Hj. apply in_seq in Hj.
    destruct (comprehension_all
                (fun row_idx =>
                   row <- Markup.getitem table_list row_idx ;; Markup.getitem row j)
                (fun i item => exists row, nth_error table_list i = Some row /\
                                           nth_error row j = Some item)
                (seq 0 (S r))) as [column [E [L N]]].
    + intros i Hi. apply in_seq in Hi.
      destruct (nth_error table_list i) as [row|] eqn:Hrow;
        [|apply nth_error_None in Hrow; lia].
      assert (Hlen : List.length row = c).
      { rewrite Forall_forall in Hc. apply Hc. eapply nth_error_In. exact Hrow. }
      destruct (nth_error row j) as [item|] eqn:Hitem;
        [|apply nth_error_None in Hitem; lia].
      exists item. unfold Markup.getitem. rewrite Hrow. cbn [Py.bind]. rewrite Hitem. eauto.
    + exists column. split; [exact E|]. split; [now rewrite L, length_seq|].
      intros i row item Hrow Hitem.
      assert (Hi : (i < S r)%nat).
      { rewrite <- Hr. apply nth_error_Some. congruence. }
      destruct (nth_error column i) as [b|] eqn:Hb;
        [|apply nth_error_None in Hb; rewrite L, length_seq in Hb; lia].
      destruct (N i i b (seq_nth_error 0 (S r) i Hi) Hb) as [row' [Hrow' Hitem']].
      congruence.
  - exists columns. split; [exact E|]. split; [now rewrite L, length_seq|].
    intros j Hj.
    destruct (nth_error columns j) as [column|] eqn:Hcol;
      [|apply nth_error_None in Hcol; rewrite L, length_seq in Hcol; lia].
    exists column. split; [reflexivity|].
    exact (N j j column (seq_nth_error 0 c j Hj) Hcol).
Qed.

Lemma getitem_raises {A : Type} (l : list A) (i : nat) (e : exn) :
  Markup.getitem l i = Raise e -> exists index size, e = IndexError index size.
Proof.
  unfold Markup.getitem. destruct (nth_error l i); [discriminate|].
  intros H. injection H as <-. eauto.
Qed.

Lemma transposed_ragged {A : Type} (first : list A) (rest : list (list A)) :
  Exists (fun row => (List.length row < List.length first)%nat) rest ->
  exists index size, Markup.transposed (first :: rest) = Raise (IndexError index size).
Proof.
  intros Hex. unfold Markup.transposed. cbn [Markup.getitem nth_error Py.bind].
  set (table_list := first :: rest).
  set (Q := fun e : exn => exists index size, e = IndexError index size).
  set (inner := fun col_idx =>
                  comprehension
                    (fun row_idx =>
                       row <- Markup.getitem table_list row_idx ;; Markup.getitem row col_idx)
                    (seq 0 (List.length table_list))).
  assert (HQ : forall j e, inner j = Raise e -> Q e).
  { intros j e H. unfold inner in H.
    destruct (comprehension _ (seq 0 (List.length table_list))) as [bs|e'] eqn:E;
      [discriminate|]. injection H as <-.
    clear -E. revert E. generalize (seq 0 (List.length table_list)) as l.
    induction l as [|i l IH]; cbn [comprehension]; [discriminate|].
    destruct (Markup.getitem table_list i) as [row|e0] eqn:E1; cbn [Py.bind].
    - destruct (Markup.getitem row j) as [item|e1] eqn:E2; cbn [Py.bind].
      + destruct (comprehension _ l) as [bs|e2]; cbn [Py.bind]; [discriminate|].
        intros H. injection H as <-. now apply IH.
      + intros H. injection H as <-. eapply getitem_raises. exact E2.
    - intros H. injection H as <-. eapply getitem_raises. exact E1. }
  destruct (comprehension_raises inner Q (seq 0 (List.length first))) as [e [E [i [n ->]]]].
  - intros j e _. apply HQ.
  - apply Exists_exists in Hex. destruct Hex as [row [Hin Hshort]].
    apply Exists_exists. exists (List.length row). split; [apply in_seq; lia|].
    destruct (In_nth_error _ _ Hin) as [k Hk].
    destruct (comprehension_raises
                (fun row_idx =>
                   row' <- Markup.getitem table_list row_idx ;;
                   Markup.getitem row' (List.length row))
                (fun _ => True) (seq 0 (List.length table_list))) as [e [E _]].
    + auto.
    + apply Exists_exists. exists (S k). split.
      * apply in_seq. subst table_list. cbn [List.length].
        assert (k < List.length rest)%nat by (apply nth_error_Some; congruence). lia.
      * unfold Markup.getitem. subst table_list. cbn [nth_error]. rewrite Hk.
        cbn [Py.bind].
        destruct (nth_error row (List.length row)) eqn:Hn; [|eauto].
        assert (List.length row < List.length row)%nat by (apply nth_error_Some; congruence).
        lia.
    + exists e. exact E.
  - exists i, n. exact E.
Qed.

(** X15: [transpose] turns rows into columns, for a table that has a row
    and whose rows all have [c] items: the body then has [c] rows of as many
    cells as the list has rows, and the cell at place [i] of row [j] holds
    item [j] of row [i] of the list.  A list without rows cannot be
    transposed ([table_list[0]] raises [IndexError]), nor one with a row
    shorter than the first. *)
Theorem Tbody_transpose {A : Type} (column_headers row_headers : bool) :
  (forall (table_list : list (list A)) (r c : nat),
      List.length table_list = S r ->
      Forall (fun row => List.length row = c) table_list ->
      exists rows,
        Markup.Tbody table_list column_headers row_headers None None true = Ok rows /\
        List.length rows = c /\
        forall i j row item,
          nth_error table_list i = Some row -> nth_error row j = Some item ->
          exists cells cell,
            nth_error rows j = Some cells /\
            List.length cells = S r /\
            nth_error cells i = Some cell /\
            Markup.value cell = item) /\
  Markup.Tbody (@nil (list A)) column_headers row_headers None None true
    = Raise (IndexError 0 0) /\
  (forall (first : list A) (rest : list (list A)),
      Exists (fun row => (List.length row < List.length first)%nat) rest ->
      exists index size,
        Markup.Tbody (first :: rest) column_headers row_headers None None true
        = Raise (IndexError index size)).
Proof.
  split; [|split].
  - intros table_list r c Hr Hc.
    destruct (transposed_rectangle table_list r c Hr Hc) as [columns [E [L N]]].
    unfold Markup.Tbody. rewrite E. cbn [Py.bind].
    eexists. split; [reflexivity|]. split; [now rewrite length_map, enumerate_length|].
    intros i j row item Hrow Hitem.
    assert (Hj : (j < c)%nat).
    { rewrite Forall_forall in Hc. rewrite <- (Hc row) by (eapply nth_error_In; exact Hrow).
      apply nth_error_Some. congruence. }
    destruct (N j Hj) as [column [Hcol [Lcol Hval]]].
    rewrite body_rows_nth, Hcol. cbn [option_map].
    eexists. eexists. split; [reflexivity|].
    split; [now rewrite TableRow_length|].
    rewrite TableRow_nth, (Hval i row item Hrow Hitem). cbn [option_map].
    split; reflexivity.
  - reflexivity.
  - intros first rest Hex.
    destruct (transposed_ragged first rest Hex) as [index [size E]].
    exists index, size. unfold Markup.Tbody. now rewrite E.
Qed.

(** X16: the title of a table is a row of its own above the others: one
    header cell with the title, centred, spanning [title_column_span]
    columns or, when no span is given, as many as the first row of the table
    has cells.  A title without span on a table without rows raises
    [IndexError], from [self.rows[0]]. *)
Theorem Tbody_title {A : Type} (table_list : list (list A))
    (column_headers row_headers : bool) (title : A) (title_column_span : option nat) :
  exists rows,
    Markup.Tbody table_list column_headers row_headers None None false = Ok rows /\
    let title_row (columns : nat) :=
      [{| Markup.class := Markup.TableHeader;
          Markup.value := title;
          Markup.attributes := [("colspan"%string, Markup.str columns)];
          Markup.css := [("text-align"%string, "center"%string)] |}] in
    Markup.Tbody table_list column_headers row_headers (Some title) title_column_span false =
    match title_column_span, table_list with
    | Some span, _ => Ok (title_row span :: rows)
    | None, first :: _ => Ok (title_row (List.length first) :: rows)
    | None, [] => Raise (IndexError 0 0)
    end.
Proof.
  eexists. split; [reflexivity|]. cbv zeta.
  destruct title_column_span as [span|]; [reflexivity|].
  destruct table_list as [|first rest]; [reflexivity|].
  unfold Markup.Tbody. cbn [Py.bind].
  unfold Markup.getitem. rewrite body_rows_nth. cbn [nth_error option_map Py.bind].
  now rewrite TableRow_length.
Qed.
(** Two rows of three items make three rows of two cells. *)
Lemma Tbody_transpose_witness :
  exists rows,
    Markup.Tbody [[1; 2; 3]; [4; 5; 6]]%nat false false None None true = Ok rows /\
    List.length rows = 3%nat.
Proof.
  destruct (proj1 (Tbody_transpose (A := nat) false false)
              [[1; 2; 3]; [4; 5; 6]]%nat 1%nat 3%nat eq_refl
              ltac:(repeat constructor)) as [rows [E [L _]]].
  exists rows. split; assumption.
Defined.

(** ** The figures of the report *)

Lemma str_injective (a b : nat) : Markup.str a = Markup.str b -> a = b.
Proof.
  unfold Markup.str. intros H.
  apply (f_equal NilEmpty.uint_of_string) in H. rewrite !NilEmpty.usu in H.
  injection H as H. now apply Unsigned.to_uint_inj.
Qed.

Lemma combine_fst {A B : Type} (l : list A) :
  forall l' : list B, List.length l' = List.length l -> map fst (combine l l') = l.
Proof.
  induction l as [|a l IH]; intros [|b l'] H; try discriminate; [reflexivity|].
  cbn. f_equal. apply IH. now injection H.
Qed.

Lemma combine_snd {A B : Type} (l : list A) :
  forall l' : list B, List.length l' = List.length l -> map snd (combine l l') = l'.
Proof.
  induction l as [|a l IH]; intros [|b l'] H; try discriminate; [reflexivity|].
  cbn. f_equal. apply IH. now injection H.
Qed.

Lemma digits_no_dot (d : Decimal.uint) :
  contains "." (NilEmpty.string_of_uint d) = false.
Proof.
  induction d; cbn; auto.
Qed.

(** The number in a resource name ends at the dot: two names with different
    numbers are different, whatever their extensions. *)
Lemma resource_name_injective (a b : nat) (extension extension' : string) :
  resource_name a extension = resource_name b extension' -> a = b.
Proof.
  unfold resource_name, Html.automatic_name. intros H.
  rewrite !append_assoc in H. cbn [String.append] in H.
  injection H as H. apply (f_equal (split ".")) in H.
  rewrite !split_app_sep in H by apply digits_no_dot.
  injection H as H _. now apply str_injective.
Qed.

Lemma NoDup_map_fst {A B C : Type} (f : A * B -> C) (l : list (A * B)) :
  (forall p q, f p = f q -> fst p = fst q) ->
  NoDup (map fst l) -> NoDup (map f l).
Proof.
  intros Hf. induction l as [|p l IH]; cbn [map]; intros H; [constructor|].
  inversion H as [|? ? Hp Hl]; subst. constructor; [|now apply IH].
  intros Hin. apply in_map_iff in Hin. destruct Hin as [q [Hq Hin]].
  apply Hp. apply in_map_iff. exists q. split; [|exact Hin]. now apply Hf.
Qed.

Section Figures.

Variable join : string -> string -> string.

Lemma resource_paths_automatic self folder relative extension :
  Html.resource_folder self = Some folder ->
  Html.relative_path self = Some relative ->
  exists self',
    Html.resource_paths join None extension self =
    (Report.Ok
       (join folder (Html.automatic_name (Html.auto_resource_count self) ++ "." ++ extension)%string,
        join relative (Html.automatic_name (Html.auto_resource_count self) ++ "." ++ extension)%string),
     self') /\
    Html.resource_folder self' = Some folder /\
    Html.relative_path self' = Some relative /\
    Html.auto_resource_count self' = (Html.auto_resource_count self + 1)%nat /\
    Html.body_children self' = Html.body_children self.
Proof.
  intros Hf Hr. unfold Html.resource_paths. cbn [fst snd Html.resource_folder Html.relative_path].
  rewrite Hf, Hr. eexists. split; [reflexivity|]. cbn. auto.
Qed.

(** A run of calls without name, one for each extension. *)
Lemma resource_paths_run folder relative (extensions : list string) :
  forall self,
    Html.resource_folder self = Some folder ->
    Html.relative_path self = Some relative ->
    exists self',
      Html.for_each (Html.resource_paths join None) extensions self =
      (Report.Ok
         (map (fun entry =>
                 (join folder (resource_name (fst entry) (snd entry)),
                  join relative (resource_name (fst entry) (snd entry))))
            (combine (seq (Html.auto_resource_count self) (List.length extensions)) extensions)),
       self') /\
      Html.resource_folder self' = Some folder /\
      Html.relative_path self' = Some relative /\
      Html.auto_resource_count self' =
      (Html.auto_resource_count self + List.length extensions)%nat /\
      Html.body_children self' = Html.body_children self.
Proof.
  induction extensions as [|extension extensions IH]; intros self Hf Hr.
  - exists self. cbn. rewrite Nat.add_0_r. auto.
  - destruct (resource_paths_automatic self folder relative extension Hf Hr)
      as (self1 & E1 & Hf1 & Hr1 & C1 & B1).
    destruct (IH self1 Hf1 Hr1) as (self2 & E2 & Hf2 & Hr2 & C2 & B2).
    exists self2. split.
    + cbn [Html.for_each]. unfold Html.bind at 1. rewrite E1.
      unfold Html.bind at 1. rewrite E2. unfold Html.ret.
      cbn [List.length seq combine map fst snd]. rewrite C1, Nat.add_1_r. reflexivity.
    + rewrite C2, C1, B2, B1. cbn [List.length]. repeat split; auto. lia.
Qed.

(** X17: the names [resource_paths] gives by itself.  In a document with
    its two folders, a run of calls without name returns the paths
    [join(folder, name)] and [join(relative_path, name)] for the names
    [res_<count>.<extension>] with the counts that follow each other from the
    counter on; the names of the run are all different, whatever the
    extensions; the counter ends behind the last of them and the body is
    left alone.  The counter goes back only in [clear()]: a call, [clear()]
    and a second call give the name of the counter and then the name of
    zero, which is the same name twice in a new report.  Without a resource
    folder a call raises [Exception], after it has moved the counter. *)
Theorem automatic_resource_names :
  (forall self folder relative extensions,
      Html.resource_folder self = Some folder ->
      Html.relative_path self = Some relative ->
      let entries :=
        combine (seq (Html.auto_resource_count self) (List.length extensions)) extensions in
      let names := map (fun entry => resource_name (fst entry) (snd entry)) entries in
      NoDup names /\
      exists self',
        Html.for_each (Html.resource_paths join None) extensions self =
        (Report.Ok (map (fun name => (join folder name, join relative name)) names), self') /\
        Html.auto_resource_count self' =
        (Html.auto_resource_count self + List.length extensions)%nat /\
        Html.body_children self' = Html.body_children self) /\
  (forall self folder relative extension,
      Html.resource_folder self = Some folder ->
      Html.relative_path self = Some relative ->
      exists self',
        Html.bind (Html.resource_paths join None extension) (fun first =>
        Html.bind Html.clear (fun _ =>
        Html.bind (Html.resource_paths join None extension) (fun second =>
        Html.ret (first, second)))) self =
        (Report.Ok
           ((join folder (resource_name (Html.auto_resource_count self) extension),
             join relative (resource_name (Html.auto_resource_count self) extension)),
            (join folder (resource_name 0 extension),
             join relative (resource_name 0 extension))),
         self') /\
        Html.auto_resource_count self' = 1%nat /\
        Html.body_children self' = []) /\
  (forall self extension,
      Html.resource_folder self = None ->
      fst (Html.resource_paths join None extension self) =
      Report.Raise (Report.Exception "No resource folder was provided.") /\
      Html.auto_resource_count (snd (Html.resource_paths join None extension self)) =
      (Html.auto_resource_count self + 1)%nat).
Proof.
  split; [|split].
  - intros self folder relative extensions Hf Hr. cbv zeta. split.
    + apply NoDup_map_fst.
      * intros p q. apply resource_name_injective.
      * rewrite combine_fst by (now rewrite length_seq). apply seq_NoDup.
    + destruct (resource_paths_run folder relative extensions self Hf Hr)
        as (self' & E & _ & _ & C & B).
      exists self'. rewrite map_map. auto.
  - intros self folder relative extension Hf Hr.
    destruct (resource_paths_automatic self folder relative extension Hf Hr)
      as (self1 & E1 & Hf1 & Hr1 & C1 & B1).
    destruct (resource_paths_automatic (snd (Html.clear self1)) folder relative extension Hf1 Hr1)
      as (self2 & E2 & _ & _ & C2 & B2).
    exists self2. split; [|split; [exact C2|exact B2]].
    unfold Html.bind at 1. rewrite E1. unfold Html.bind at 1.
    change (Html.clear self1) with (Report.Ok tt, snd (Html.clear self1)).
    unfold Html.bind at 1. rewrite E2. reflexivity.
  - intros self extension Hf. unfold Html.resource_paths.
    cbn [fst snd Html.resource_folder]. rewrite Hf. split; reflexivity.
Qed.

Lemma add_figure_spec self folder relative extension :
  Html.resource_folder self = Some folder ->
  Html.relative_path self = Some relative ->
  exists self',
    Html.add_figure join None extension self =
    (Report.Ok (figure join relative (Html.auto_resource_count self) extension), self') /\
    Html.resource_folder self' = Some folder /\
    Html.relative_path self' = Some relative /\
    Html.auto_resource_count self' = (Html.auto_resource_count self + 1)%nat /\
    Html.body_children self' =
    Html.body_children self ++ [figure join relative (Html.auto_resource_count self) extension].
Proof.
  intros Hf Hr.
  destruct (resource_paths_automatic self folder relative extension Hf Hr)
    as (self1 & E & Hf1 & Hr1 & C1 & B1).
  unfold Html.add_figure, Html.bind. rewrite E. cbn [snd].
  unfold Html.add. eexists. split; [reflexivity|].
  cbn [Html.resource_folder Html.relative_path Html.auto_resource_count Html.body_children].
  rewrite B1. auto.
Qed.

Lemma get_image_spec self folder relative extension :
  Html.resource_folder self = Some folder ->
  Html.relative_path self = Some relative ->
  exists self',
    Html.get_image join None extension self =
    (Report.Ok (figure join relative (Html.auto_resource_count self) extension), self') /\
    Html.resource_folder self' = Some folder /\
    Html.relative_path self' = Some relative /\
    Html.auto_resource_count self' = (Html.auto_resource_count self + 1)%nat /\
    Html.body_children self' = Html.body_children self.
Proof.
  intros Hf Hr.
  destruct (add_figure_spec self folder relative extension Hf Hr)
    as (self1 & E & Hf1 & Hr1 & C1 & B1).
  unfold Html.get_image, Html.bind. rewrite E. unfold Html.pop. rewrite B1.
  destruct (Html.body_children self ++
            [figure join relative (Html.auto_resource_count self) extension]) as [|first rest] eqn:Eb.
  - destruct (Html.body_children self); discriminate.
  - rewrite <- Eb. eexists. split.
    + f_equal. f_equal.
      rewrite <- (last_last (Html.body_children self)
                    (figure join relative (Html.auto_resource_count self) extension) first).
      rewrite Eb. cbn [last]. destruct rest; reflexivity.
    + cbn [Html.resource_folder Html.relative_path Html.auto_resource_count Html.body_children].
      rewrite removelast_last. auto.
Qed.

(** X18: [get_image] gives the figure without putting it into the report.
    In a document with its two folders the call returns the image of the
    next automatic name, its source the relative path with [%20] for each
    space; afterwards the body has the children it had, and the counter has
    moved on by one. *)
Theorem get_image_leaves_the_body self folder relative extension :
  Html.resource_folder self = Some folder ->
  Html.relative_path self = Some relative ->
  exists self',
    Html.get_image join None extension self =
    (Report.Ok
       (Html.Image
          [("src"%string,
            Markup.replace " " "%20"
              (join relative
                 (Html.automatic_name (Html.auto_resource_count self) ++ "." ++ extension)%string))]),
     self') /\
    Html.body_children self' = Html.body_children self /\
    Html.auto_resource_count self' = (Html.auto_resource_count self + 1)%nat.
Proof.
  intros Hf Hr.
  destruct (get_image_spec self folder relative extension Hf Hr) as (self' & E & _ & _ & C & B).
  exists self'. auto.
Qed.

Context {ext : Externals}.

Lemma turns_spec (data : BreathingMonitorFile) (signal : list float) folder relative :
  forall starts ps self,
    Report.for_each (page_of data signal) starts = Report.Ok ps ->
    Html.resource_folder self = Some folder ->
    Html.relative_path self = Some relative ->
    exists self',
      Html.for_each
        (fun point_idx =>
           Html.bind (Html.pure (page_of data signal point_idx)) (fun page =>
           Html.bind (Html.get_image join None "png") (fun image =>
           Html.ret (page, [image]))))
        starts self =
      (Report.Ok
         (combine ps
            (map (fun k => [figure join relative (Html.auto_resource_count self + k) "png"])
               (seq 0 (List.length ps)))),
       self') /\
      Html.resource_folder self' = Some folder /\
      Html.relative_path self' = Some relative /\
      Html.auto_resource_count self' = (Html.auto_resource_count self + List.length ps)%nat /\
      Html.body_children self' = Html.body_children self.
Proof.
  induction starts as [|point_idx starts IH]; intros ps self Hps Hf Hr.
  - cbn in Hps. injection Hps as <-. exists self. cbn. rewrite Nat.add_0_r. auto.
  - cbn [Report.for_each] in Hps.
    destruct (page_of data signal point_idx) as [page|e] eqn:Ep; [|discriminate].
    cbn [Report.bind] in Hps.
    destruct (Report.for_each (page_of data signal) starts) as [ps'|e] eqn:Eps; [|discriminate].
    cbn [Report.bind] in Hps. injection Hps as <-.
    destruct (get_image_spec self folder relative "png" Hf Hr)
      as (self1 & E1 & Hf1 & Hr1 & C1 & B1).
    destruct (IH ps' self1 eq_refl Hf1 Hr1) as (self2 & E2 & Hf2 & Hr2 & C2 & B2).
    exists self2. split.
    + cbn [Html.for_each]. unfold Html.bind at 1. unfold Html.bind at 1.
      unfold Html.pure at 1. rewrite Ep. unfold Html.bind at 1. rewrite E1.
      unfold Html.ret at 1. unfold Html.bind at 1. rewrite E2. unfold Html.ret.
      f_equal. f_equal. cbn [List.length seq map combine]. rewrite Nat.add_0_r.
      f_equal. f_equal. rewrite <- seq_shift, map_map. apply map_ext.
      intros k. rewrite C1. do 2 f_equal. lia.
    + rewrite C2, C1, B2, B1. cbn [List.length]. repeat split; auto. lia.
Qed.

(** X19: the report of a recording built from a binary file, from the first
    figure to the table.  In a document with its two folders, [process_files]
    adds one image, the first figure, and one table to the body; the table
    has one row for each page, and the row of page [k] is one [TableItem]
    cell that holds the image of the figure taken in turn [k].  The figures
    carry the automatic names in the order they were taken: the first figure
    the next free number, page [k] the number [k + 1] after it. *)
Theorem report_of_binary_recording name file r self folder relative :
  endswith name ".dat" = true ->
  init name file = Ok r ->
  Html.resource_folder self = Some folder ->
  Html.relative_path self = Some relative ->
  exists ps self' rows,
    Html.report_of join r self = (Report.Ok ps, self') /\
    pages r = Report.Ok ps /\
    Html.auto_resource_count self' =
    (Html.auto_resource_count self + 1 + List.length ps)%nat /\
    Html.body_children self' =
    Html.body_children self ++
    [figure join relative (Html.auto_resource_count self) "png"; Html.Table [] rows] /\
    List.length rows = List.length ps /\
    forall k, (k < List.length ps)%nat ->
      nth_error rows k =
      Some [{| Markup.class := Markup.TableItem;
               Markup.value :=
                 figure join relative (Html.auto_resource_count self + 1 + k) "png";
               Markup.attributes := [];
               Markup.css := [] |}].
Proof.
  intros Hname Hinit Hf Hr.
  destruct (binary_recording_pages_ok name file r Hname Hinit) as [ps Hps].
  destruct (add_figure_spec self folder relative "png" Hf Hr)
    as (self1 & E1 & Hf1 & Hr1 & C1 & B1).
  unfold pages in Hps.
  destruct (turns_spec r (Report.negative (positions r)) folder relative _ ps self1 Hps Hf1 Hr1)
    as (self2 & E2 & Hf2 & Hr2 & C2 & B2).
  set (images := map (fun k => [figure join relative (Html.auto_resource_count self1 + k) "png"])
                   (seq 0 (List.length ps))) in *.
  assert (Li : List.length images = List.length ps)
    by (subst images; now rewrite length_map, length_seq).
  pose proof (combine_snd ps images Li) as Hsnd.
  pose proof (combine_fst ps images Li) as Hfst.
  set (rows := map (fun entry => Markup.TableRow (snd entry) false false (fst entry =? 0)%nat)
                 (Markup.enumerate images)).
  assert (Et : Markup.Tbody images false false None None false = Ok rows) by reflexivity.
  exists ps. eexists. exists rows. split.
  - unfold Html.report_of. unfold Html.bind at 1. rewrite E1.
    unfold Html.bind at 1. rewrite E2. unfold Html.bind at 1.
    unfold Html.table, Html.bind at 1, Html.pure, Html.new_table.
    rewrite Hsnd, Et. cbn [Report.builtin Report.bind]. unfold Html.add, Html.ret.
    rewrite Hfst. reflexivity.
  - split; [unfold pages; exact Hps|].
    cbn [Html.auto_resource_count Html.body_children].
    rewrite C2, C1, B2, B1, <- app_assoc. cbn [app].
    split; [reflexivity|]. split; [reflexivity|].
    split; [subst rows; now rewrite length_map, enumerate_length|].
    intros k Hk.
    assert (Hrow : nth_error images k =
                   Some [figure join relative (Html.auto_resource_count self + 1 + k) "png"]).
    { subst images. rewrite nth_error_map.
      rewrite nth_error_nth' with (d := 0%nat) by (now rewrite length_seq).
      rewrite seq_nth by exact Hk. cbn [option_map]. now rewrite C1. }
    subst rows. rewrite body_rows_nth, Hrow. cbn [option_map]. f_equal.
    unfold Markup.TableRow, Markup.enumerate. cbn [List.length seq combine map fst snd].
    now rewrite !andb_false_r.
Qed.

(** X20: the report of a recording built from a text file stops at its
    first page.  In a document with its two folders the first figure is
    added to the body; then the first turn of the loop raises [TypeError]
    before it takes a figure, so the body has the one image, the counter has
    moved on by one, and no table is added. *)
Theorem report_of_text_recording name file r self folder relative :
  endswith name ".dat" = false ->
  init name file = Ok r ->
  Html.resource_folder self = Some folder ->
  Html.relative_path self = Some relative ->
  exists self',
    Html.report_of join r self = (Report.Raise Report.TypeError, self') /\
    Html.auto_resource_count self' = (Html.auto_resource_count self + 1)%nat /\
    Html.body_children self' =
    Html.body_children self ++ [figure join relative (Html.auto_resource_count self) "png"].
Proof.
  intros Hname Hinit Hf Hr.
  destruct (add_figure_spec self folder relative "png" Hf Hr)
    as (self1 & E1 & Hf1 & Hr1 & C1 & B1).
  destruct (text_recording_first_page name file r Hname Hinit) as (starts & Hs & Hp).
  exists self1. split; [|auto].
  unfold Html.report_of. unfold Html.bind at 1. rewrite E1.
  unfold Html.bind at 1. rewrite Hs. cbn [Html.for_each].
  unfold Html.bind at 1. unfold Html.bind at 1. unfold Html.pure. rewrite Hp. reflexivity.
Qed.

End Figures.

(** A new report: three calls give [res_0.png], [res_1.gif] and [res_2.png];
    a call, [clear()] and a call give [res_0.png] twice. *)
Lemma automatic_resource_names_witness :
  (exists self',
      Html.for_each (Html.resource_paths posix_join None) ["png"; "gif"; "png"]%string
        night_report =
      (Report.Ok
         [("plots/night.dat/resources/res_0.png", "./resources/res_0.png");
          ("plots/night.dat/resources/res_1.gif", "./resources/res_1.gif");
          ("plots/night.dat/resources/res_2.png", "./resources/res_2.png")]%string,
       self') /\
      Html.auto_resource_count self' = 3%nat /\
      Html.body_children self' = []) /\
  (exists self',
      Html.bind (Html.resource_paths posix_join None "png") (fun first =>
      Html.bind Html.clear (fun _ =>
      Html.bind (Html.resource_paths posix_join None "png") (fun second =>
      Html.ret (first, second)))) night_report =
      (Report.Ok
         (("plots/night.dat/resources/res_0.png", "./resources/res_0.png"),
          ("plots/night.dat/resources/res_0.png", "./resources/res_0.png"))%string,
       self') /\
      Html.auto_resource_count self' = 1%nat /\
      Html.body_children self' = []).
Proof.
  destruct (automatic_resource_names posix_join) as (Hrun & Hclear & _).
  split.
  - destruct (Hrun night_report "plots/night.dat/resources" "./resources"
                ["png"; "gif"; "png"] eq_refl eq_refl)%string as (_ & self' & E & C & B).
    exists self'. split; [exact E|split; [exact C|exact B]].
  - destruct (Hclear night_report "plots/night.dat/resources" "./resources" "png"
                eq_refl eq_refl)%string as (self' & E & C & B).
    exists self'. split; [exact E|split; [exact C|exact B]].
Defined.

(** The first image of a new report: [res_0.png] in the resource folder. *)
Lemma get_image_leaves_the_body_witness :
  exists self',
    Html.get_image posix_join None "png" night_report =
    (Report.Ok (Html.Image [("src", "./resources/res_0.png")]%string), self') /\
    Html.body_children self' = [] /\
    Html.auto_resource_count self' = 1%nat.
Proof.
  destruct (get_image_leaves_the_body posix_join night_report
              "plots/night.dat/resources" "./resources" "png" eq_refl eq_refl)
    as (self' & E & B & C).
  exists self'. repeat split; assumption.
Defined.

(** The one-record binary file in a new report. *)
Lemma report_of_binary_recording_witness :
  exists r ps self' rows,
    init "night.dat" one_record_dat = Ok r /\
    Html.report_of posix_join r night_report = (Report.Ok ps, self') /\
    Html.body_children self' =
    [figure posix_join "./resources" 0 "png"; Html.Table [] rows] /\
    List.length rows = List.length ps.
Proof.
  destruct (init "night.dat" one_record_dat) as [r|e] eqn:E;
    [|vm_compute in E; discriminate].
  destruct (report_of_binary_recording posix_join "night.dat" one_record_dat r night_report
              "plots/night.dat/resources" "./resources" eq_refl E eq_refl eq_refl)
    as (ps & self' & rows & H1 & _ & _ & H2 & H3 & _).
  exists r, ps, self', rows. repeat split; assumption.
Defined.

(** A text file in a new report: the first figure, then the [TypeError]. *)
Lemma report_of_text_recording_witness :
  exists r self',
    init "night.csv" short_line_txt = Ok r /\
    Html.report_of posix_join r night_report = (Report.Raise Report.TypeError, self') /\
    Html.body_children self' = [figure posix_join "./resources" 0 "png"].
Proof.
  destruct (init "night.csv" short_line_txt) as [r|e] eqn:E;
    [|vm_compute in E; discriminate].
  destruct (report_of_text_recording posix_join "night.csv" short_line_txt r night_report
              "plots/night.dat/resources" "./resources" eq_refl E eq_refl eq_refl)
    as (self' & H1 & _ & H2).
  exists r, self'. repeat split; assumption.
Defined.
